(** * Code AI Interpreter: a shallow embedding of the VS Code extension

    The extension collects lines of code from the active document, asks a
    remote service to explain them, and writes the explanations back as
    comments or as inlay hints.  This development embeds the functions of
    [src/extension.ts] (its line-by-line variant, its auto-interpret
    variant and its block variant) and proves properties of them.

    Conventions.
    - A JavaScript string is the list of its UTF-16 code units, so that
      [length] is JavaScript's [.length].
    - A JavaScript number is an integer or [NaN]; fractional numbers are
      outside the model.
    - A value obtained from [JSON.parse] is a [json]; [undefined] is the
      [None] of [option json].
    - An exception is the message of the thrown [Error] object. *)

From Stdlib Require Import ZArith NArith Lia Sorting.Sorted.
From Stdlib Require Strings.String Strings.Ascii.
From Stdlib Require DecimalString DecimalZ DecimalPos.
Import String.StringSyntax.
From stdpp Require Import base option list gmap.

Local Open Scope Z_scope.

(** ** JavaScript strings *)

Abbreviation jsstring := (list N).

Fixpoint str (s : String.string) : jsstring :=
  match s with
  | String.EmptyString => []
  | String.String c s' => Ascii.N_of_ascii c :: str s'
  end.
Delimit Scope string_scope with string.
Arguments str s%_string.

Module JS.

(** [s.startsWith(p)] *)
Fixpoint startsWith (s p : jsstring) : bool :=
  match p, s with
  | [], _ => true
  | c :: p', d :: s' => (c =? d)%N && startsWith s' p'
  | _ :: _, [] => false
  end.

(** [s.includes(p)] *)
Fixpoint includes (s p : jsstring) : bool :=
  startsWith s p ||
  match s with
  | [] => false
  | _ :: s' => includes s' p
  end.

(** The code units matched by [\s] and removed by [trim()]: the
    WhiteSpace and LineTerminator productions of ECMAScript. *)
Definition isWhiteSpace (c : N) : bool :=
  ((9 <=? c) && (c <=? 13) || (c =? 32) || (c =? 160) || (c =? 5760)
   || (8192 <=? c) && (c <=? 8202) || (c =? 8232) || (c =? 8233)
   || (c =? 8239) || (c =? 8287) || (c =? 12288) || (c =? 65279))%N.

Fixpoint trimStart (s : jsstring) : jsstring :=
  match s with
  | [] => []
  | c :: s' => if isWhiteSpace c then trimStart s' else s
  end.

Definition trimEnd (s : jsstring) : jsstring := rev (trimStart (rev s)).

(** [s.trim()] *)
Definition trim (s : jsstring) : jsstring := trimEnd (trimStart s).

(** The capture of the match of [s] against a leading run of [\s]: the
    leading white space. *)
Fixpoint leadingWhiteSpace (s : jsstring) : jsstring :=
  match s with
  | [] => []
  | c :: s' => if isWhiteSpace c then c :: leadingWhiteSpace s' else []
  end.

(** [s.substring(0, n)] *)
Definition substring0 (s : jsstring) (n : nat) : jsstring := take n s.

(** [l.join(sep)] on an array of strings *)
Fixpoint join (sep : jsstring) (l : list jsstring) : jsstring :=
  match l with
  | [] => []
  | [x] => x
  | x :: l' => x ++ sep ++ join sep l'
  end.

(** [s.split(c)] for a separator of one code unit *)
Fixpoint split (sep : N) (s : jsstring) : list jsstring :=
  match s with
  | [] => [[]]
  | c :: s' =>
      if (c =? sep)%N then [] :: split sep s'
      else match split sep s' with
           | w :: ws => (c :: w) :: ws
           | [] => [[c]]
           end
  end.

(** [s.replace(/pat/g, rep)] for a literal pattern: the matches are taken
    from the left and do not overlap.  [skip] counts the code units of
    the current match still to be dropped. *)
Fixpoint replaceAll_from (skip : nat) (pat rep s : jsstring) : jsstring :=
  match s with
  | [] => []
  | c :: s' =>
      match skip with
      | S k => replaceAll_from k pat rep s'
      | O =>
          if startsWith s pat
          then rep ++ replaceAll_from (length pat - 1) pat rep s'
          else c :: replaceAll_from O pat rep s'
      end
  end.

Definition replaceAll (pat rep s : jsstring) : jsstring :=
  replaceAll_from O pat rep s.

(** [s.replace(/\s+/g, ' ')]; [inws] tells that the previous code unit
    was white space already replaced. *)
Fixpoint collapseWhiteSpace_from (inws : bool) (s : jsstring) : jsstring :=
  match s with
  | [] => []
  | c :: s' =>
      if isWhiteSpace c
      then (if inws then collapseWhiteSpace_from true s'
            else 32%N :: collapseWhiteSpace_from true s')
      else c :: collapseWhiteSpace_from false s'
  end.

Definition collapseWhiteSpace (s : jsstring) : jsstring :=
  collapseWhiteSpace_from false s.

(** [a === b] on strings *)
Definition eqb (a b : jsstring) : bool := bool_decide (a = b).

(** The decimal representation of an integer, as [String(n)] gives it. *)
Definition ofInt (n : Z) : jsstring :=
  str (DecimalString.NilZero.string_of_int (Z.to_int n)).

(** *** Numbers *)

(** The numbers of the model: an integer, or [None] for [NaN].  They
    are the line numbers, indices, lengths and status codes of the
    program.  JavaScript has numbers with a fraction as well; such a
    number has no value here, so that what is shown of numbers is shown
    for payloads whose numbers are integers. *)
Abbreviation number := (option Z).
Abbreviation NaN := (@None Z).

(** *** Values of JSON.parse *)

#[local] Unset Elimination Schemes.
Inductive json : Type :=
| JNull
| JBool (b : bool)
| JNum (n : Z)
| JStr (s : jsstring)
| JArr (items : list json)
| JObj (fields : list (jsstring * json)).
#[local] Set Elimination Schemes.

(** A JavaScript value of this program: a JSON value or [undefined]. *)
Abbreviation jsval := (option json).
Abbreviation undefined := (@None json).

(** Truthiness, as [if (v)], [!v], [a || b] and [a && b] test it. *)
Definition truthy (v : jsval) : bool :=
  match v with
  | None => false
  | Some JNull => false
  | Some (JBool b) => b
  | Some (JNum n) => negb (n =? 0)
  | Some (JStr s) => negb (eqb s [])
  | Some (JArr _) => true
  | Some (JObj _) => true
  end.

(** [a || b] *)
Definition or_else (a b : jsval) : jsval := if truthy a then a else b.

(** The own property [k] of an object built by JSON.parse. *)
Fixpoint lookup_field (k : jsstring) (fields : list (jsstring * json)) : jsval :=
  match fields with
  | [] => None
  | (k', v) :: fields' => if eqb k k' then Some v else lookup_field k fields'
  end.

(** *** Exceptions *)

Inductive outcome (A : Type) : Type :=
| Ret (a : A)
| Throw (msg : jsstring).
Arguments Ret {A} a.
Arguments Throw {A} msg.

Definition obind {A B} (m : outcome A) (f : A -> outcome B) : outcome B :=
  match m with
  | Ret a => f a
  | Throw msg => Throw msg
  end.

(** [try { m } catch (e) { h e.message }] without state *)
Definition ocatch {A} (m : outcome A) (h : jsstring -> outcome A) : outcome A :=
  match m with
  | Ret a => Ret a
  | Throw msg => h msg
  end.

(** The TypeErrors this program can raise; the engine chooses the text. *)
Inductive type_error : Type :=
| NullProperty (prop : jsstring)     (* reading a property of null *)
| NotAFunction (callee : jsstring)   (* calling what is not a function *)
| NotPrimitive.                      (* an object without a usable toString *)

(** The built-ins of the JavaScript engine that the extension calls. *)
Class Host : Type := {
  (** [JSON.parse(text)]: the value, or the message of the SyntaxError *)
  JSON_parse : jsstring -> outcome json;
  (** [JSON.stringify(value)] *)
  JSON_stringify : json -> jsstring;
  (** The conversion of a string to a number, as [s - 1] performs it *)
  StringToNumber : jsstring -> number;
  (** The message of a TypeError *)
  typeErrorMessage : type_error -> jsstring
}.

Section Coercions.
Context `{Host}.

(** [v.k] for the property names this program reads ([error],
    [message], [body], [explanations], [lineNumber], [explanation]):
    none of them is defined on a prototype, so only an object has
    them, as own properties; reading a property of [null] throws. *)
Definition get_prop (v : json) (k : jsstring) : outcome jsval :=
  match v with
  | JNull => Throw (typeErrorMessage (NullProperty k))
  | JObj fields => Ret (lookup_field k fields)
  | _ => Ret undefined
  end.

(** [String(v)], the conversion a template literal and [new Error(v)]
    apply.  An array joins its elements with a comma, [null] elements
    giving the empty string; an object gives [[object Object]], unless
    an own [toString] property (never callable in parsed JSON) hides
    the inherited method, and then the conversion throws. *)
Fixpoint ToString (v : json) : outcome jsstring :=
  match v with
  | JNull => Ret (str "null")
  | JBool true => Ret (str "true")
  | JBool false => Ret (str "false")
  | JNum n => Ret (ofInt n)
  | JStr s => Ret s
  | JArr items =>
      (fix joinItems (l : list json) : outcome jsstring :=
         match l with
         | [] => Ret []
         | x :: l' =>
             obind (match x with JNull => Ret [] | _ => ToString x end)
               (fun sx =>
                  match l' with
                  | [] => Ret sx
                  | _ => obind (joinItems l') (fun r => Ret (sx ++ str "," ++ r))
                  end)
         end) items
  | JObj fields =>
      match lookup_field (str "toString") fields with
      | Some _ => Throw (typeErrorMessage NotPrimitive)
      | None => Ret (str "[object Object]")
      end
  end.

(** [Number(v)], the conversion [v - 1] applies. *)
Definition ToNumber (v : jsval) : outcome number :=
  match v with
  | None => Ret NaN
  | Some JNull => Ret (Some 0)
  | Some (JBool b) => Ret (Some (if b then 1 else 0))
  | Some (JNum n) => Ret (Some n)
  | Some (JStr s) => Ret (StringToNumber s)
  | Some (JArr items) => obind (ToString (JArr items)) (fun s => Ret (StringToNumber s))
  | Some (JObj fields) => obind (ToString (JObj fields)) (fun _ => Ret NaN)
  end.

(** [v - 1] *)
Definition minus_one (v : jsval) : outcome number :=
  obind (ToNumber v) (fun n => Ret (match n with Some z => Some (z - 1) | None => NaN end)).

(** [JSON.parse(v)]: the argument is converted to a string first. *)
Definition JSON_parse_value (v : json) : outcome json :=
  obind (ToString v) JSON_parse.

Definition isArray (v : jsval) : bool :=
  match v with Some (JArr _) => true | _ => false end.

End Coercions.

(** *** Code that mutates state and may throw *)

Definition M (S A : Type) : Type := S -> S * outcome A.

Definition mret {S A} (a : A) : M S A := fun s => (s, Ret a).

Definition mthrow {S A} (msg : jsstring) : M S A := fun s => (s, Throw msg).

Definition mbind {S A B} (m : M S A) (f : A -> M S B) : M S B :=
  fun s =>
    match m s with
    | (s', Ret a) => f a s'
    | (s', Throw msg) => (s', Throw msg)
    end.

Definition lift {S A} (o : outcome A) : M S A := fun s => (s, o).

(** [try { m } catch (e) { h e.message }]: the handler runs in the state
    that the block left behind. *)
Definition try_catch {S A} (m : M S A) (h : jsstring -> M S A) : M S A :=
  fun s =>
    match m s with
    | (s', Ret a) => (s', Ret a)
    | (s', Throw msg) => h msg s'
    end.

Definition modify {S} (f : S -> S) : M S unit := fun s => (f s, Ret tt).

Definition gets {S A} (f : S -> A) : M S A := fun s => (s, Ret (f s)).

(** [items.forEach(f)] on an array *)
Fixpoint forEach {S A} (f : A -> M S unit) (items : list A) : M S unit :=
  match items with
  | [] => mret tt
  | x :: items' => mbind (f x) (fun _ => forEach f items')
  end.

End JS.

Notation "'let*' x ':=' m 'in' k" := (JS.mbind m (fun x => k))
  (at level 10, x name, m at level 100, k at level 200, only parsing).
Notation "'let?' x ':=' m 'in' k" := (JS.obind m (fun x => k))
  (at level 10, x name, m at level 100, k at level 200, only parsing).
Notation "m ';;;' k" := (JS.mbind m (fun _ => k))
  (at level 100, k at level 200, right associativity, only parsing).
Notation "m ';;?' k" := (JS.obind m (fun _ => k))
  (at level 100, k at level 200, right associativity, only parsing).

Import JS.

(** ** The network *)

Record request : Type := {
  url : jsstring;
  body : jsstring
}.

(** What [response.status], [response.statusText] and
    [await response.text()] give. *)
Record response : Type := {
  status : Z;
  statusText : jsstring;
  text : jsstring
}.

(** [response.ok]: the status is in the range 200 to 299. *)
Definition ok (r : response) : bool := (200 <=? status r) && (status r <=? 299).

(** [await fetch(...)] followed by [await response.text()]: the promise is
    rejected with an error, or the response arrives. *)
Inductive fetch_result : Type :=
| Rejected (msg : jsstring)
| Responded (r : response).

(** The service as the extension sees it. *)
Abbreviation network := (request -> fetch_result).

(** ** The editor *)

Record TextDocument : Type := {
  uri : jsstring;            (* [document.uri.toString()] *)
  languageId : jsstring;
  lines : list jsstring      (* the text of each line, without its line break *)
}.

Definition lineCount (document : TextDocument) : Z := Z.of_nat (length (lines document)).

(** [document.lineAt(i).text]; a line number outside the document throws. *)
Definition lineAt (document : TextDocument) (i : Z) : outcome jsstring :=
  if (0 <=? i) && (i <? lineCount document) then
    match lines document !! Z.to_nat i with
    | Some l => Ret l
    | None => Throw (str "Illegal value for `line`")
    end
  else Throw (str "Illegal value for `line`").

Record Position : Type := {
  line : Z;
  character : Z
}.

(** A selection runs from [start] to [end_], and [start] is not after
    [end_]. *)
Record Selection : Type := {
  start : Position;
  end_ : Position
}.

(** [selection.isEmpty] *)
Definition isEmpty (s : Selection) : bool :=
  (line (start s) =? line (end_ s)) && (character (start s) =? character (end_ s)).

Module Editor.
Record TextEditor : Type := {
  document : TextDocument;
  selections : list Selection
}.
End Editor.
Abbreviation TextEditor := Editor.TextEditor.

(** One call on the [editBuilder] of [editor.edit]. *)
Inductive edit : Type :=
| Delete (lineNumber : Z)                 (* the line and its line break *)
| Insert (position : Position) (value : jsstring).

(** ** The comment-inserting variant of extension.ts

    [interpretLines], [insertCommentsAsExplanations] and
    [interpretSelectedLines], at lines 257 to 665 of
    [src/src/extension.ts]; the line numbers are those of that file. *)

Module Comments.

Definition SERVER_URL : jsstring :=
  str "https://code-ai-interpreter.azurewebsites.net/api/code_ai_interpreter".

(** [getInterpretationLanguage()]; [setting] is the value of
    [codeAIInterpreter.interpretationLanguage], if set. *)
Definition getInterpretationLanguage (setting : option jsstring) : jsstring :=
  let language := default (str "English") setting in
  if eqb language [] then str "English" else language.

(** The state of one call of [interpretLines]: the map [result] that
    the call builds and returns, the module's [interpretationCache],
    and the requests sent to the service so far. *)
Record call_state : Type := {
  result : gmap number jsval;
  interpretationCache : gmap jsstring jsstring;
  requests : list request
}.

Definition result_set (index : number) (v : jsval) : M call_state unit :=
  modify (fun st => {| result := <[index := v]> (result st);
                       interpretationCache := interpretationCache st;
                       requests := requests st |}).

Definition cache_get (key : jsstring) : M call_state (option jsstring) :=
  gets (fun st => interpretationCache st !! key).

Definition cache_set (key value : jsstring) : M call_state unit :=
  modify (fun st => {| result := result st;
                       interpretationCache := <[key := value]> (interpretationCache st);
                       requests := requests st |}).

(** [await fetch(SERVER_URL, ...)] and [await response.text()] *)
Definition fetch (net : network) (req : request) : M call_state response :=
  fun st =>
    ({| result := result st;
        interpretationCache := interpretationCache st;
        requests := requests st ++ [req] |},
     match net req with
     | Rejected msg => Throw msg
     | Responded r => Ret r
     end).

Section InterpretLines.
Context `{Host}.
Variable setting : option jsstring.
Variable net : network.

(** [throw new Error(v)] *)
Definition throw_new_Error {A} (v : json) : outcome A :=
  let? msg := ToString v in Throw msg.

(** [throw new Error(`Server error: ${v}`)] *)
Definition throw_server_error {A} (v : jsval) : outcome A :=
  let? s := ToString (default JNull v) in
  Throw (str "Server error: " ++ s).

(** [v.forEach(f)]: only an array has the method. *)
Definition forEach_value (callee : jsstring) (v : jsval)
    (f : json -> M call_state unit) : M call_state unit :=
  match v with
  | Some (JArr items) => forEach f items
  | Some JNull | None => mthrow (typeErrorMessage (NullProperty (str "forEach")))
  | Some _ => mthrow (typeErrorMessage (NotAFunction callee))
  end.

(** [item.lineNumber - 1] *)
Definition lineIndex (item : json) : outcome number :=
  let? lineNumber := get_prop item (str "lineNumber") in
  minus_one lineNumber.

(** Lines 342 to 355: the cached text is parsed and replayed.  The
    result tells whether the function returns here. *)
Definition replayCached (cached : jsstring) : M call_state bool :=
  try_catch
    (let* cachedData := lift (JSON_parse cached) in
     let* explanations := lift (get_prop cachedData (str "explanations")) in
     if truthy explanations then
       forEach_value (str "cachedData.explanations.forEach") explanations
         (fun item =>
            let* index := lift (lineIndex item) in
            let* explanation := lift (get_prop item (str "explanation")) in
            result_set index explanation) ;;;
       mret true
     else mret false)
    (fun _ => mret false).

(** Lines 370 to 381: the message of the error thrown for a status
    outside 200 to 299. *)
Definition httpErrorMessage (r : response) : json :=
  let errorMessage := JStr (str "HTTP " ++ ofInt (status r) ++ str ": " ++ statusText r) in
  match (let? errorData := JSON_parse (text r) in
         let? error := get_prop errorData (str "error") in
         if truthy error then Ret (default errorMessage error)
         else
           let? message := get_prop errorData (str "message") in
           if truthy message then Ret (default errorMessage message)
           else Ret errorMessage)
  with
  | Ret v => v
  | Throw _ =>
      if negb (eqb (text r) []) then JStr (substring0 (text r) 200)
      else errorMessage
  end.

(** Lines 394 to 407: a [body] field is parsed and takes the place of
    the payload. *)
Definition unwrapBody (data : json) : outcome json :=
  let? body := get_prop data (str "body") in
  if truthy body then
    ocatch
      (let? bodyData := JSON_parse_value (default JNull body) in
       let? error := get_prop bodyData (str "error") in
       (if truthy error then throw_server_error error else Ret tt) ;;?
       Ret bodyData)
      (fun msg =>
         if negb (eqb msg []) && includes msg (str "Server error")
         then Throw msg
         else Throw (str "Failed to parse response body"))
  else Ret data.

(** Lines 368 to 407: the payload that a response carries. *)
Definition responsePayload (response : response) : outcome json :=
  (if negb (ok response) then throw_new_Error (httpErrorMessage response)
   else Ret tt) ;;?
  let? data :=
    ocatch (JSON_parse (text response))
      (fun _ => Throw (str "Invalid response format: "
                         ++ substring0 (text response) 100)) in
  let? error := get_prop data (str "error") in
  (if truthy error then throw_server_error error else Ret tt) ;;?
  unwrapBody data.

(** Lines 357 to 366: the request sent for [codeLines]. *)
Definition batchRequest (codeLines : list jsstring) (language : jsstring) : request :=
  {| url := SERVER_URL;
     body := JSON_stringify
               (JObj [(str "codeLines", JArr (map JStr codeLines));
                      (str "language", JStr language)]) |}.

(** Lines 357 to 407: the request, and the payload of its response. *)
Definition fetchPayload (codeLines : list jsstring) (language : jsstring)
    : M call_state json :=
  let* response := fetch net (batchRequest codeLines language) in
  lift (responsePayload response).

(** Lines 409 to 422: the explanations are entered in [result], each
    under its line number less one when that is an index of
    [codeLines], and the payload is cached. *)
Definition storeExplanations (codeLines : list jsstring) (cacheKey : jsstring)
    (data : json) : M call_state unit :=
  let* explanations := lift (get_prop data (str "explanations")) in
  if truthy explanations && isArray explanations then
    forEach_value (str "data.explanations.forEach") explanations
      (fun item =>
         let* index := lift (lineIndex item) in
         match index with
         | Some i =>
             if (0 <=? i) && (i <? Z.of_nat (length codeLines)) then
               let* explanation := lift (get_prop item (str "explanation")) in
               result_set index explanation
             else mret tt
         | None => mret tt
         end) ;;;
    cache_set cacheKey (JSON_stringify data)
  else mthrow (str "Invalid response format: explanations array not found").

(** Line 340: the key of the cache. *)
Definition cacheKeyOf (codeLines : list jsstring) (language : jsstring) : jsstring :=
  join [10%N] codeLines ++ str ":" ++ language.

(** Lines 337 to 424: the [try] block of [interpretLines]. *)
Definition interpretLines_try (codeLines : list jsstring) : M call_state unit :=
  let language := getInterpretationLanguage setting in
  let cacheKey := cacheKeyOf codeLines language in
  let* cached := cache_get cacheKey in
  let* replayed :=
    match cached with
    | Some c => if negb (eqb c []) then replayCached c else mret false
    | None => mret false
    end in
  if replayed then mret tt
  else
    let* data := fetchPayload codeLines language in
    storeExplanations codeLines cacheKey data.

(** Lines 427 to 430: the message reported for an error whose
    [message] is given. *)
Definition reportedMessage (message : jsstring) : jsstring :=
  let errorMessage :=
    if negb (eqb message []) then message else str "Unknown error occurred" in
  if negb (eqb message [])
     && (includes message (str "Failed to fetch")
         || includes message (str "NetworkError")
         || includes message (str "The request"))
  then str "Network error. Please check your internet connection and try again."
  else errorMessage.

(** Lines 425 to 436: the [catch] block of [interpretLines]. *)
Definition interpretLines_catch (codeLines : list jsstring) (message : jsstring)
    : M call_state unit :=
  let errorMessage := reportedMessage message in
  forEach (fun index : nat =>
             result_set (Some (Z.of_nat index))
                        (Some (JStr (str "Error: " ++ errorMessage))))
          (seq 0 (length codeLines)).

(** [interpretLines(codeLines)] as a computation on the state. *)
Definition interpretLines_run (codeLines : list jsstring) : M call_state unit :=
  try_catch (interpretLines_try codeLines) (interpretLines_catch codeLines).

(** The state in which a call of [interpretLines] starts. *)
Definition initial (cache : gmap jsstring jsstring) : call_state :=
  {| result := ∅; interpretationCache := cache; requests := [] |}.

(** [await interpretLines(codeLines)], called when the cache is
    [cache]: the map returned, the cache afterwards and the requests
    sent. *)
Definition interpretLines (codeLines : list jsstring)
    (cache : gmap jsstring jsstring)
    : gmap number jsval * gmap jsstring jsstring * list request :=
  let st := fst (interpretLines_run codeLines (initial cache)) in
  (result st, interpretationCache st, requests st).

End InterpretLines.

(** *** Comments *)

(** The code units of the brain emoji, U+1F9E0. *)
Definition brain : jsstring := [55358; 56800]%N.

(** [getCommentPrefix(languageId)] *)
Definition getCommentPrefix (languageId : jsstring) : jsstring :=
  if existsb (eqb languageId)
       [str "python"; str "shellscript"; str "bash"; str "powershell";
        str "yaml"; str "yml"; str "ruby"; str "perl"; str "lua"]
  then str "# " ++ brain ++ str " "
  else if existsb (eqb languageId) [str "html"; str "xml"]
  then str "<!-- " ++ brain ++ str " "
  else if existsb (eqb languageId) [str "css"; str "scss"; str "less"; str "sass"]
  then str "/* " ++ brain ++ str " "
  else if eqb languageId (str "sql")
  then str "-- " ++ brain ++ str " "
  else str "// " ++ brain ++ str " ".

(** [getCommentSuffix(languageId)] *)
Definition getCommentSuffix (languageId : jsstring) : jsstring :=
  if existsb (eqb languageId) [str "html"; str "xml"] then str " -->"
  else if existsb (eqb languageId) [str "css"; str "scss"; str "less"; str "sass"]
  then str " */"
  else [].

Definition commentPatterns : list jsstring :=
  [str "//"; str "#"; str "--"; str "<!--"; str "/*"].

(** Line 489: the line is an explanation comment inserted earlier. *)
Definition isComment (existingLine : jsstring) : bool :=
  let trimmed := trim existingLine in
  existsb (startsWith trimmed) commentPatterns && includes trimmed brain.

(** Lines 512 to 526: the chain of replacements, then [trim()]. *)
Definition cleanExplanation (explanation : jsstring) : jsstring :=
  let s := replaceAll [49444; 47749]%N [] explanation in               (* 설명 *)
  let s := replaceAll [51060; 32; 53076; 46300; 45716]%N [] s in       (* 이 코드는 *)
  let s := replaceAll [53076; 46300; 45716]%N [] s in                  (* 코드는 *)
  let s := replaceAll [54633; 45768; 45796]%N [] s in                  (* 합니다 *)
  let s := replaceAll [54633; 45768; 45796; 46]%N [] s in              (* 합니다. *)
  let s := replaceAll (str "//") [] s in
  let s := replaceAll (str "#") [] s in
  let s := replaceAll (str "--") [] s in
  let s := replaceAll (str "<!--") [] s in
  let s := replaceAll (str "/*") [] s in
  let s := replaceAll (str "*/") [] s in
  let s := replaceAll [10%N] (str " ") s in
  let s := collapseWhiteSpace s in
  trim s.

Definition maxLength : nat := 100.

Section Wrap.
Variables indent commentPrefix commentSuffix : jsstring.

(** Lines 540 to 551: the loop over the words; the state is
    [commentText] and [currentLine]. *)
Fixpoint wrapWords (words : list jsstring) (commentText currentLine : jsstring)
    : jsstring * jsstring :=
  match words with
  | [] => (commentText, currentLine)
  | word :: words' =>
      let testLine :=
        currentLine ++ (if eqb currentLine commentPrefix then [] else str " ")
                    ++ word ++ commentSuffix in
      if (maxLength <? length testLine)%nat && negb (eqb currentLine commentPrefix)
      then wrapWords words'
             (commentText ++ indent ++ currentLine ++ commentSuffix ++ [10%N])
             (commentPrefix ++ word)
      else wrapWords words' commentText
             ((if negb (eqb currentLine commentPrefix)
               then currentLine ++ str " " else currentLine) ++ word)
  end.

(** Lines 528 to 553: the text inserted for a cleaned explanation. *)
Definition commentText (cleanedExplanation : jsstring) : jsstring :=
  if (length cleanedExplanation <=? maxLength)%nat
  then indent ++ commentPrefix ++ cleanedExplanation ++ commentSuffix ++ [10%N]
  else
    let '(commentText, currentLine) :=
      wrapWords (split 32%N cleanedExplanation) [] commentPrefix in
    commentText ++ indent ++ currentLine ++ commentSuffix ++ [10%N].
End Wrap.

(** [Array.from(explanations.keys()).sort((a, b) => b - a)]: the
    comparator orders integers, so the array is sorted whatever the
    engine's algorithm; here the keys are inserted one by one. *)
Fixpoint insertDescending (x : Z) (l : list Z) : list Z :=
  match l with
  | [] => [x]
  | y :: l' => if y <? x then x :: l else y :: insertDescending x l'
  end.

Definition sortDescending (l : list Z) : list Z := foldr insertDescending [] l.

(** The state of [insertCommentsAsExplanations]: the module's map
    [insertedComments] and the calls made so far on the [editBuilder]. *)
Record edit_state : Type := {
  insertedComments : gmap jsstring (gset Z);
  edits : list edit
}.

Definition addEdit (e : edit) : M edit_state unit :=
  modify (fun st => {| insertedComments := insertedComments st;
                       edits := edits st ++ [e] |}).

(** [insertedSet.has(lineNumber)], where [insertedSet] is the set stored
    under [uri]. *)
Definition insertedSet_has (uri : jsstring) (lineNumber : Z) : M edit_state bool :=
  gets (fun st => bool_decide (lineNumber ∈ default ∅ (insertedComments st !! uri))).

(** [insertedSet.add(lineNumber)]: the set is shared with the map. *)
Definition insertedSet_add (uri : jsstring) (lineNumber : Z) : M edit_state unit :=
  modify (fun st =>
            {| insertedComments :=
                 <[uri := {[lineNumber]} ∪ default ∅ (insertedComments st !! uri)]>
                   (insertedComments st);
               edits := edits st |}).

(** Lines 485 to 496, the [while] loop: [rest] holds the lines from
    [deleteLine] to the end of the document. *)
Fixpoint deleteExplanationLines (deleteLine : Z) (rest : list jsstring)
    : M edit_state unit :=
  match rest with
  | [] => mret tt
  | existingLine :: rest' =>
      if isComment existingLine then
        addEdit (Delete deleteLine) ;;;
        deleteExplanationLines (deleteLine + 1) rest'
      else mret tt
  end.

Section InsertComments.
Context `{Host}.

(** Lines 479 to 497: the explanation comments below a line that has
    received one before are deleted. *)
Definition deleteInserted (document : TextDocument) (lineNumber : Z)
    : M edit_state unit :=
  let* has := insertedSet_has (uri document) lineNumber in
  if has then
    let nextLine := lineNumber + 1 in
    if nextLine <? lineCount document then
      (* the first [lineAt] of the loop throws on a negative line *)
      lift (lineAt document nextLine) ;;;
      deleteExplanationLines nextLine (drop (Z.to_nat nextLine) (lines document))
    else mret tt
  else mret tt.

(** Lines 475 to 557: the body of the loop over [sortedLines]. *)
Definition insertComment (document : TextDocument) (explanations : gmap Z jsval)
    (lineNumber : Z) : M edit_state unit :=
  let explanation := default undefined (explanations !! lineNumber) in
  if negb (truthy explanation) then mret tt
  else
    deleteInserted document lineNumber ;;;
    let insertLine := lineNumber + 1 in
    let* codeLineText := lift (lineAt document lineNumber) in
    let indent := leadingWhiteSpace codeLineText in
    let insertPosition := {| line := insertLine; character := 0 |} in
    let* explanationText :=
      match explanation with
      | Some (JStr s) => mret s
      | _ => mthrow (typeErrorMessage (NotAFunction (str "explanation.replace")))
      end in
    let cleanedExplanation := cleanExplanation explanationText in
    addEdit (Insert insertPosition
               (commentText indent
                  (getCommentPrefix (languageId document))
                  (getCommentSuffix (languageId document))
                  cleanedExplanation)) ;;;
    insertedSet_add (uri document) lineNumber.

(** [insertCommentsAsExplanations(document, explanations)], called
    when the active editor is [activeTextEditor] and the map
    [insertedComments] is [inserted].  It gives the map afterwards
    and, unless the edit callback throws, the transaction handed to
    [editor.edit]: [None] when [editor.edit] is not called. *)
Definition insertCommentsAsExplanations (activeTextEditor : option TextEditor)
    (document : TextDocument) (explanations : gmap Z jsval)
    (inserted : gmap jsstring (gset Z))
    : gmap jsstring (gset Z) * outcome (option (list edit)) :=
  match activeTextEditor with
  | None => (inserted, Ret None)
  | Some editor =>
      if negb (eqb (uri (Editor.document editor)) (uri document))
      then (inserted, Ret None)
      else
        let inserted :=
          match inserted !! uri document with
          | Some _ => inserted
          | None => <[uri document := ∅]> inserted
          end in
        let sortedLines := sortDescending (map fst (map_to_list explanations)) in
        match forEach (insertComment document explanations) sortedLines
                {| insertedComments := inserted; edits := [] |} with
        | (st, Ret _) => (insertedComments st, Ret (Some (edits st)))
        | (st, Throw msg) => (insertedComments st, Throw msg)
        end
  end.
End InsertComments.

(** *** The selection *)

(** [selectedLines.add(i)]: a set keeps the order of first insertion. *)
Definition addLine (set : list Z) (i : Z) : list Z :=
  if bool_decide (i ∈ set) then set else set ++ [i].

(** Lines 585 to 590: the line numbers covered by the selections. *)
Definition selectedLines (selections : list Selection) : list Z :=
  foldl (fun set selection =>
           foldl addLine set
                 (seqZ (line (start selection))
                       (line (end_ selection) - line (start selection) + 1)))
        [] selections.

(** The test of lines 599 to 605 on a trimmed line. *)
Definition isCodeLine (trimmedLine : jsstring) : bool :=
  negb (eqb trimmedLine [])
  && negb (startsWith trimmedLine (str "//"))
  && negb (startsWith trimmedLine (str "/*"))
  && negb (startsWith trimmedLine (str "*"))
  && negb (startsWith trimmedLine (str "#"))
  && negb (startsWith trimmedLine (str "--"))
  && negb (startsWith trimmedLine (str "'")).

(** An entry of the array [lines] of [interpretSelectedLines]. *)
Record CodeLine : Type := {
  lineNumber : Z;
  code : jsstring
}.

(** Lines 592 to 611: the code lines among the selected lines. *)
Fixpoint collectCodeLines (document : TextDocument) (selected : list Z)
    : outcome (list CodeLine) :=
  match selected with
  | [] => Ret []
  | lineNumber :: selected' =>
      let? lineText := lineAt document lineNumber in
      let trimmedLine := trim lineText in
      let? rest := collectCodeLines document selected' in
      Ret (if isCodeLine trimmedLine
           then {| lineNumber := lineNumber; code := trimmedLine |} :: rest
           else rest)
  end.

(** Lines 570 to 616 of [interpretSelectedLines]: the array [lines]
    sent for interpretation, or [None] when the command stops with a
    message (no editor, nothing selected, no code line). *)
Definition interpretSelectedLines_lines (activeTextEditor : option TextEditor)
    : outcome (option (list CodeLine)) :=
  match activeTextEditor with
  | None => Ret None
  | Some editor =>
      let selections := Editor.selections editor in
      if (length selections =? 0)%nat || forallb isEmpty selections
      then Ret None
      else
        let? lines := collectCodeLines (Editor.document editor)
                        (selectedLines selections) in
        Ret (if (length lines =? 0)%nat then None else Some lines)
  end.

(** *** The command *)

(** A message shown to the user. *)
Inductive notice : Type :=
| Warning (message : jsstring)         (* [showWarningMessage] *)
| Information (message : jsstring).    (* [showInformationMessage] *)

(** Lines 628 to 633, the [for] loop: [i] is the loop variable and
    [rest] holds the entries of [lines] from [i] on. *)
Fixpoint lineNumberMap_from (i : Z) (rest : list CodeLine)
    (explanations : gmap number jsval) (lineNumberMap : gmap Z jsval) : gmap Z jsval :=
  match rest with
  | [] => lineNumberMap
  | line :: rest' =>
      let explanation :=
        or_else (default undefined (explanations !! Some i))
                (Some (JStr (str "No explanation available"))) in
      lineNumberMap_from (i + 1) rest' explanations
        (<[lineNumber line := explanation]> lineNumberMap)
  end.

(** What a run of the command leaves: the messages shown, the cache, the
    requests sent, the map [insertedComments], and what became of the
    insertion that [updateInlayHints] starts and does not await: the
    transaction handed to [editor.edit], [None] when there is none, or
    the error thrown in the edit callback. *)
Record command_run : Type := {
  notices : list notice;
  cacheAfter : gmap jsstring jsstring;
  requestsSent : list request;
  insertedAfter : gmap jsstring (gset Z);
  transaction : outcome (option (list edit))
}.

(** A run that stops with a message. *)
Definition stopped (message : notice) (cache : gmap jsstring jsstring)
    (inserted : gmap jsstring (gset Z)) : command_run :=
  {| notices := [message]; cacheAfter := cache; requestsSent := [];
     insertedAfter := inserted; transaction := Ret None |}.

Section Command.
Context `{Host}.
Variable setting : option jsstring.
Variable net : network.

(** [interpretSelectedLines()], lines 569 to 646, called when the active
    editor is [activeTextEditor], the cache is [cache] and the map
    [insertedComments] is [inserted].  The request is awaited, and the
    comments are inserted afterwards: [editorAtInsertion] is the active
    editor when the explanations have arrived, and [documentAtInsertion]
    is what the [TextDocument] of the command holds by then, the text
    that [insertCommentsAsExplanations] reads.  The reports to the
    progress notification are left out.  A selection that reaches
    beyond the document makes [lineAt] throw. *)
Definition interpretSelectedLines (activeTextEditor editorAtInsertion : option TextEditor)
    (documentAtInsertion : TextDocument)
    (cache : gmap jsstring jsstring) (inserted : gmap jsstring (gset Z))
    : outcome command_run :=
  match activeTextEditor with
  | None => Ret (stopped (Warning (str "No active editor found.")) cache inserted)
  | Some editor =>
      let document := Editor.document editor in
      let selections := Editor.selections editor in
      if (length selections =? 0)%nat || forallb isEmpty selections
      then Ret (stopped (Warning (str "Please select lines to interpret.")) cache inserted)
      else
        let? lines := collectCodeLines document (selectedLines selections) in
        if (length lines =? 0)%nat
        then Ret (stopped (Information (str "No code lines found in selection."))
                    cache inserted)
        else
          let codeLines := map code lines in
          let '(explanations, cache', requests) :=
            interpretLines setting net codeLines cache in
          let lineNumberMap := lineNumberMap_from 0 lines explanations ∅ in
          let '(inserted', transaction) :=
            insertCommentsAsExplanations editorAtInsertion documentAtInsertion
              lineNumberMap inserted in
          Ret {| notices :=
                   [Information (str "Interpreted " ++ ofInt (Z.of_nat (length lines))
                                   ++ str " selected lines.")];
                 cacheAfter := cache';
                 requestsSent := requests;
                 insertedAfter := inserted';
                 transaction := transaction |}
  end.

End Command.

End Comments.

(** ** An engine to run the model on

    A host with the behaviour of V8 on the JSON texts of this protocol:
    objects, arrays, strings with their escapes, integers, [true],
    [false] and [null].  A number with a fraction or an exponent is
    outside the model and is rejected.  The theorems below hold for every
    host; this one evaluates the examples. *)

Module Node.

Definition quote : N := 34%N.
Definition backslash : N := 92%N.

Definition hexDigit (n : N) : N :=
  (if n <? 10 then 48 + n else 87 + n)%N.

(** One code unit inside a JSON string literal. *)
Definition escapeUnit (c : N) : jsstring :=
  if (c =? quote)%N then [backslash; quote]
  else if (c =? backslash)%N then [backslash; backslash]
  else if (c =? 8)%N then backslash :: str "b"
  else if (c =? 9)%N then backslash :: str "t"
  else if (c =? 10)%N then backslash :: str "n"
  else if (c =? 12)%N then backslash :: str "f"
  else if (c =? 13)%N then backslash :: str "r"
  else if (c <? 32)%N then
    backslash :: str "u00" ++ [hexDigit (c / 16); hexDigit (c mod 16)]%N
  else [c].

Definition quoteString (s : jsstring) : jsstring :=
  quote :: flat_map escapeUnit s ++ [quote].

(** [JSON.stringify(v)] *)
Fixpoint stringify (v : json) : jsstring :=
  match v with
  | JNull => str "null"
  | JBool true => str "true"
  | JBool false => str "false"
  | JNum n => ofInt n
  | JStr s => quoteString s
  | JArr items => str "[" ++ join (str ",") (map stringify items) ++ str "]"
  | JObj fields =>
      str "{"
      ++ join (str ",")
           (map (fun kv => quoteString (fst kv) ++ str ":" ++ stringify (snd kv)) fields)
      ++ str "}"
  end.

Fixpoint skipWhiteSpace (s : jsstring) : jsstring :=
  match s with
  | c :: s' =>
      if ((c =? 32) || (c =? 9) || (c =? 10) || (c =? 13))%N
      then skipWhiteSpace s' else s
  | [] => []
  end.

Definition isDigit (c : N) : bool := ((48 <=? c) && (c <=? 57))%N.

Definition hexValue (c : N) : option N :=
  if isDigit c then Some (c - 48)%N
  else if ((97 <=? c) && (c <=? 102))%N then Some (c - 87)%N
  else if ((65 <=? c) && (c <=? 70))%N then Some (c - 55)%N
  else None.

(** The code units of a string literal after its opening quote, and the
    text after its closing quote. *)
Fixpoint parseString (s : jsstring) : option (jsstring * jsstring) :=
  match s with
  | [] => None
  | c :: s' =>
      if (c =? quote)%N then Some ([], s')
      else if (c <? 32)%N then None
      else if (c =? backslash)%N then
        match s' with
        | e :: s'' =>
            let simple (u : N) :=
              match parseString s'' with
              | Some (r, rest) => Some (u :: r, rest)
              | None => None
              end in
            if (e =? quote)%N then simple quote
            else if (e =? backslash)%N then simple backslash
            else if (e =? 47)%N then simple 47%N
            else if (e =? 98)%N then simple 8%N
            else if (e =? 102)%N then simple 12%N
            else if (e =? 110)%N then simple 10%N
            else if (e =? 114)%N then simple 13%N
            else if (e =? 116)%N then simple 9%N
            else if (e =? 117)%N then
              match s'' with
              | h1 :: ((h2 :: ((h3 :: ((h4 :: s4) as s3)) as s2)) as s1) =>
                  match hexValue h1, hexValue h2, hexValue h3, hexValue h4,
                        parseString s4 with
                  | Some a, Some b, Some c', Some d, Some (r, rest) =>
                      Some ((((a * 16 + b) * 16 + c') * 16 + d)%N :: r, rest)
                  | _, _, _, _, _ => None
                  end
              | _ => None
              end
            else None
        | [] => None
        end
      else
        match parseString s' with
        | Some (r, rest) => Some (c :: r, rest)
        | None => None
        end
  end.

(** The digits at the head of [s], their value after [acc], and the
    rest. *)
Fixpoint parseDigits (acc : Z) (s : jsstring) : Z * jsstring :=
  match s with
  | c :: s' =>
      if isDigit c then parseDigits (acc * 10 + Z.of_N (c - 48)) s' else (acc, s)
  | [] => (acc, [])
  end.

(** An integer literal: no leading zero, no fraction, no exponent. *)
Definition parseInt (s : jsstring) : option (Z * jsstring) :=
  match s with
  | c :: s' =>
      if negb (isDigit c) then None
      else
        let '(n, rest) := parseDigits 0 s in
        let plain :=
          match rest with
          | d :: _ => negb ((d =? 46) || (d =? 101) || (d =? 69))%N
          | [] => true
          end in
        let leadingZero :=
          (c =? 48)%N && match s' with d :: _ => isDigit d | [] => false end in
        if plain && negb leadingZero then Some (n, rest) else None
  | [] => None
  end.

(** A repeated member name keeps its place and takes the later value. *)
Fixpoint setField (k : jsstring) (v : json) (fields : list (jsstring * json))
    : list (jsstring * json) :=
  match fields with
  | [] => [(k, v)]
  | (k', v') :: fields' =>
      if eqb k k' then (k, v) :: fields' else (k', v') :: setField k v fields'
  end.

Fixpoint parseValue (fuel : nat) (s : jsstring) : option (json * jsstring) :=
  match fuel with
  | O => None
  | S fuel' =>
      match skipWhiteSpace s with
      | 110 :: 117 :: 108 :: 108 :: r => Some (JNull, r)
      | 116 :: 114 :: 117 :: 101 :: r => Some (JBool true, r)
      | 102 :: 97 :: 108 :: 115 :: 101 :: r => Some (JBool false, r)
      | 34 :: r =>
          match parseString r with
          | Some (x, r') => Some (JStr x, r')
          | None => None
          end
      | 91 :: r =>
          match skipWhiteSpace r with
          | 93 :: r' => Some (JArr [], r')
          | _ =>
              match parseElements fuel' r with
              | Some (items, r') => Some (JArr items, r')
              | None => None
              end
          end
      | 123 :: r =>
          match skipWhiteSpace r with
          | 125 :: r' => Some (JObj [], r')
          | _ =>
              match parseMembers fuel' [] r with
              | Some (fields, r') => Some (JObj fields, r')
              | None => None
              end
          end
      | 45 :: r =>
          match parseInt r with
          | Some (n, r') => Some (JNum (- n), r')
          | None => None
          end
      | r =>
          match parseInt r with
          | Some (n, r') => Some (JNum n, r')
          | None => None
          end
      end%N
  end
with parseElements (fuel : nat) (s : jsstring) : option (list json * jsstring) :=
  match fuel with
  | O => None
  | S fuel' =>
      match parseValue fuel' s with
      | Some (v, r) =>
          match skipWhiteSpace r with
          | 93 :: r' => Some ([v], r')
          | 44 :: r' =>
              match parseElements fuel' r' with
              | Some (items, r'') => Some (v :: items, r'')
              | None => None
              end
          | _ => None
          end%N
      | None => None
      end
  end
with parseMembers (fuel : nat) (acc : list (jsstring * json)) (s : jsstring)
    : option (list (jsstring * json) * jsstring) :=
  match fuel with
  | O => None
  | S fuel' =>
      match skipWhiteSpace s with
      | 34 :: r =>
          match parseString r with
          | Some (k, r1) =>
              match skipWhiteSpace r1 with
              | 58 :: r2 =>
                  match parseValue fuel' r2 with
                  | Some (v, r3) =>
                      match skipWhiteSpace r3 with
                      | 125 :: r4 => Some (setField k v acc, r4)
                      | 44 :: r4 => parseMembers fuel' (setField k v acc) r4
                      | _ => None
                      end
                  | None => None
                  end
              | _ => None
              end
          | None => None
          end
      | _ => None
      end%N
  end.

(** [JSON.parse(text)] *)
Definition parse (s : jsstring) : outcome json :=
  match parseValue (2 * length s + 2) s with
  | Some (v, r) =>
      match skipWhiteSpace r with
      | [] => Ret v
      | _ => Throw (str "Unexpected non-whitespace character after JSON")
      end
  | None => Throw (str "Unexpected token in JSON")
  end.

(** The conversion of a string holding an integer literal; [NaN] for
    any other text but the empty one. *)
Definition stringToNumber (s : jsstring) : number :=
  match trim s with
  | [] => Some 0
  | 45%N :: r =>
      match parseDigits 0 r with
      | (n, []) => if bool_decide (r = []) then NaN else Some (- n)
      | _ => NaN
      end
  | r =>
      match parseDigits 0 r with
      | (n, []) => Some n
      | _ => NaN
      end
  end.

Definition message (e : type_error) : jsstring :=
  match e with
  | NullProperty prop =>
      str "Cannot read properties of null (reading '" ++ prop ++ str "')"
  | NotAFunction callee => callee ++ str " is not a function"
  | NotPrimitive => str "Cannot convert object to primitive value"
  end.

Definition host : Host := {|
  JSON_parse := parse;
  JSON_stringify := stringify;
  StringToNumber := stringToNumber;
  typeErrorMessage := message
|}.

End Node.

(** ** The auto-interpret variant of extension.ts

    [interpretLine] and [CodeInterpretationProvider.provideInlayHints],
    at lines 1 to 256 of [src/src/extension.ts]. *)

Module Hints.

Definition SERVER_URL : jsstring :=
  str "https://faas-tor1-70ca848e.doserverless.co/api/v1/web/fn-8a83d9b2-585c-4100-96ab-e3b51f99460c/default/code-ai-interpreter".

(** [getInterpretationLanguage()] *)
Definition getInterpretationLanguage (setting : option jsstring) : jsstring :=
  default (str "English") setting.

(** The module's variables, and the requests sent so far. *)
Record hint_state : Type := {
  isAutoInterpretEnabled : bool;
  interpretationCache : gmap jsstring json;
  requests : list request
}.

Definition cache_get (key : jsstring) : M hint_state jsval :=
  gets (fun st => interpretationCache st !! key).

Definition cache_set (key : jsstring) (value : json) : M hint_state unit :=
  modify (fun st => {| isAutoInterpretEnabled := isAutoInterpretEnabled st;
                       interpretationCache := <[key := value]> (interpretationCache st);
                       requests := requests st |}).

(** [await fetch(SERVER_URL, ...)]; the text of the response is read by
    [response.json()] later. *)
Definition fetch (net : network) (req : request) : M hint_state response :=
  fun st =>
    ({| isAutoInterpretEnabled := isAutoInterpretEnabled st;
        interpretationCache := interpretationCache st;
        requests := requests st ++ [req] |},
     match net req with
     | Rejected msg => Throw msg
     | Responded r => Ret r
     end).

Record InlayHint : Type := {
  position : Position;
  label : jsstring;
  paddingLeft : bool;
  paddingRight : bool
}.

(** The code units of the light bulb emoji, U+1F4A1. *)
Definition bulb : jsstring := [55357; 56481]%N.

(** The test of line 100 on a trimmed line: the line is skipped. *)
Definition isSkipped (lineText : jsstring) : bool :=
  eqb lineText []
  || startsWith lineText (str "//")
  || startsWith lineText (str "/*")
  || startsWith lineText (str "*").

Section Provider.
Context `{Host}.
Variable setting : option jsstring.
Variable net : network.

(** [throw new Error(v)] *)
Definition throw_new_Error {A} (v : json) : M hint_state A :=
  let* msg := lift (ToString v) in mthrow msg.

(** [(await interpretLine(codeLine, lineNumber)).explanation] *)
Definition interpretLine (codeLine : jsstring) (lineNumber : Z) : M hint_state json :=
  try_catch
    (let language := getInterpretationLanguage setting in
     let* response :=
       fetch net {| url := SERVER_URL;
                    body := JSON_stringify
                              (JObj [(str "codeLine", JStr codeLine);
                                     (str "language", JStr language)]) |} in
     (if negb (ok response) then
        let* errorData := lift (JSON_parse (text response)) in
        let* error := lift (get_prop errorData (str "error")) in
        throw_new_Error
          (if truthy error then default JNull error
           else JStr (str "API request failed"))
      else mret tt) ;;;
     let* data := lift (JSON_parse (text response)) in
     let* error := lift (get_prop data (str "error")) in
     (if truthy error then throw_new_Error (default JNull error) else mret tt) ;;;
     let* explanation := lift (get_prop data (str "explanation")) in
     mret (if truthy explanation then default JNull explanation
           else JStr (str "Failed to get explanation")))
    (fun message => mret (JStr (str "Error during interpretation: " ++ message))).

(** Lines 104 to 118: the explanation of line [i], from the cache or
    from the service; [undefined] when the loop goes on to the next
    line without a hint. *)
Definition explanationFor (documentUri : jsstring) (i : Z) (lineText : jsstring)
    : M hint_state jsval :=
  let language := getInterpretationLanguage setting in
  let cacheKey :=
    documentUri ++ str ":" ++ ofInt i ++ str ":" ++ lineText
                ++ str ":" ++ language in
  let* cached := cache_get cacheKey in
  if negb (truthy cached) then
    try_catch
      (let* explanation := interpretLine lineText (i + 1) in
       cache_set cacheKey explanation ;;;
       mret (Some explanation))
      (fun _ => mret None)
  else mret cached.

(** Lines 95 to 130, the [for] loop: [i] is the loop variable and
    [rest] holds the lines from [i] to the end of the document, so
    that [i < lineCount] exactly when [rest] is not empty. *)
Fixpoint hintsFrom (documentUri : jsstring) (i : Z) (rest : list jsstring)
    (hints : list InlayHint) : M hint_state (list InlayHint) :=
  match rest with
  | [] => mret hints
  | lineText0 :: rest' =>
      if i <? 100 then
        let lineText := trim lineText0 in
        if isSkipped lineText then hintsFrom documentUri (i + 1) rest' hints
        else
          let* explanation := explanationFor documentUri i lineText in
          match explanation with
          | None => hintsFrom documentUri (i + 1) rest' hints
          | Some explanation =>
              let* text := lift (ToString explanation) in
              hintsFrom documentUri (i + 1) rest'
                (hints ++ [{| position :=
                                {| line := i;
                                   character := Z.of_nat (length lineText0) |};
                              label := str " " ++ bulb ++ str " " ++ text;
                              paddingLeft := true;
                              paddingRight := false |}])
          end
      else mret hints
  end.

(** [provideInlayHints(document, range, token)] *)
Definition provideInlayHints (document : TextDocument)
    : M hint_state (list InlayHint) :=
  let* enabled := gets isAutoInterpretEnabled in
  if negb enabled then mret []
  else hintsFrom (uri document) 0 (lines document) [].

End Provider.

(** *** The switch and the listeners of [activate] *)

(** The module's variables together with what the extension shows:
    [inlayHintsProvider] tells whether the variable holds a
    registration, [registrations] counts the providers registered and
    not disposed of, [refreshes] lists the documents for which
    [vscode.executeInlayHintProvider] was run or scheduled, [messages]
    the information messages shown. *)
Record extension_state : Type := {
  hint : hint_state;
  inlayHintsProvider : bool;
  registrations : nat;
  statusBarText : jsstring;
  statusBarTooltip : jsstring;
  statusBarBackground : option jsstring;
  refreshes : list jsstring;
  messages : list jsstring
}.

(** Lines 181 to 189 of [activate], on the module's initial variables. *)
Definition activated : extension_state :=
  {| hint := {| isAutoInterpretEnabled := false; interpretationCache := ∅;
                requests := [] |};
     inlayHintsProvider := false;
     registrations := 0;
     statusBarText := str "$(circle-slash) Interpretation Off";
     statusBarTooltip := str "Auto interpretation is disabled. Click to enable.";
     statusBarBackground := None;
     refreshes := [];
     messages := [] |}.

(** The document of the editor, for a refresh of its hints. *)
Definition refreshOf (editor : option TextEditor) : list jsstring :=
  match editor with
  | Some editor => [uri (Editor.document editor)]
  | None => []
  end.

(** [toggleAutoInterpret(context)], lines 137 to 179. *)
Definition toggleAutoInterpret (setting : option jsstring)
    (activeTextEditor : option TextEditor) (st : extension_state) : extension_state :=
  if negb (isAutoInterpretEnabled (hint st)) then
    let language := getInterpretationLanguage setting in
    {| hint := {| isAutoInterpretEnabled := true;
                  interpretationCache := interpretationCache (hint st);
                  requests := requests (hint st) |};
       inlayHintsProvider := true;
       registrations := S (registrations st);
       statusBarText := str "$(check) Interpretation On";
       statusBarTooltip :=
         str "Auto interpretation is enabled (" ++ language ++ str "). Click to disable.";
       statusBarBackground := Some (str "statusBarItem.prominentForeground");
       refreshes := refreshes st ++ refreshOf activeTextEditor;
       messages := messages st
                   ++ [str "Auto interpretation enabled (" ++ language ++ str ")."] |}
  else
    {| hint := {| isAutoInterpretEnabled := false;
                  interpretationCache := ∅;
                  requests := requests (hint st) |};
       inlayHintsProvider := false;
       registrations := if inlayHintsProvider st then pred (registrations st)
                        else registrations st;
       statusBarText := str "$(circle-slash) Interpretation Off";
       statusBarTooltip := str "Auto interpretation is disabled. Click to enable.";
       statusBarBackground := None;
       refreshes := refreshes st;
       messages := messages st ++ [str "Auto interpretation disabled."] |}.

(** The state with another cache. *)
Definition with_cache (st : extension_state) (cache : gmap jsstring json)
    : extension_state :=
  {| hint := {| isAutoInterpretEnabled := isAutoInterpretEnabled (hint st);
                interpretationCache := cache;
                requests := requests (hint st) |};
     inlayHintsProvider := inlayHintsProvider st;
     registrations := registrations st;
     statusBarText := statusBarText st;
     statusBarTooltip := statusBarTooltip st;
     statusBarBackground := statusBarBackground st;
     refreshes := refreshes st;
     messages := messages st |}.

(** The state with one more refresh. *)
Definition with_refresh (st : extension_state) (documents : list jsstring)
    : extension_state :=
  {| hint := hint st;
     inlayHintsProvider := inlayHintsProvider st;
     registrations := registrations st;
     statusBarText := statusBarText st;
     statusBarTooltip := statusBarTooltip st;
     statusBarBackground := statusBarBackground st;
     refreshes := refreshes st ++ documents;
     messages := messages st |}.

(** The listener of [onDidChangeConfiguration], lines 192 to 207;
    [affectsLanguage] is what [event.affectsConfiguration] answers for
    the language setting. *)
Definition onDidChangeConfiguration (affectsLanguage : bool)
    (setting : option jsstring) (activeTextEditor : option TextEditor)
    (st : extension_state) : extension_state :=
  if affectsLanguage then
    let st := with_cache st ∅ in
    if isAutoInterpretEnabled (hint st) then
      match activeTextEditor with
      | Some editor =>
          let language := getInterpretationLanguage setting in
          {| hint := hint st;
             inlayHintsProvider := inlayHintsProvider st;
             registrations := registrations st;
             statusBarText := statusBarText st;
             statusBarTooltip :=
               str "Auto interpretation is enabled (" ++ language
                   ++ str "). Click to disable.";
             statusBarBackground := statusBarBackground st;
             refreshes := refreshes st ++ [uri (Editor.document editor)];
             messages := messages st |}
      | None => st
      end
    else st
  else st.

(** The listener of [onDidChangeActiveTextEditor], lines 215 to 222. *)
Definition onDidChangeActiveTextEditor (editor : option TextEditor)
    (st : extension_state) : extension_state :=
  if isAutoInterpretEnabled (hint st) then with_refresh st (refreshOf editor) else st.

(** Lines 232 to 238: the keys that hold the number of line [i] between
    two colons are collected and deleted. *)
Definition deleteLineKeys (cache : gmap jsstring json) (i : Z) : gmap jsstring json :=
  let keysToDelete :=
    List.filter (fun key => includes key (str ":" ++ ofInt i ++ str ":"))
      (map fst (map_to_list cache)) in
  foldl (fun cache key => delete key cache) cache keysToDelete.

(** A change of a document: the range that it replaces, with the fields
    of a selection. *)
Record TextDocumentContentChangeEvent : Type := {
  range : Selection
}.

(** Lines 229 to 239: the lines of one change. *)
Definition deleteChangedKeys (cache : gmap jsstring json)
    (change : TextDocumentContentChangeEvent) : gmap jsstring json :=
  let startLine := line (start (range change)) in
  let endLine := line (end_ (range change)) in
  foldl deleteLineKeys cache (seqZ startLine (endLine - startLine + 1)).

(** The listener of [onDidChangeTextDocument], lines 225 to 251, for a
    change of [document] while the active editor is [activeTextEditor];
    [editorAtRefresh] is the active editor when the timer fires.  The
    editor gives one document object for a uri, so that the comparison
    of the documents is that of their uris. *)
Definition onDidChangeTextDocument (document : TextDocument)
    (contentChanges : list TextDocumentContentChangeEvent)
    (activeTextEditor editorAtRefresh : option TextEditor)
    (st : extension_state) : extension_state :=
  if isAutoInterpretEnabled (hint st)
     && match activeTextEditor with
        | Some editor => eqb (uri document) (uri (Editor.document editor))
        | None => false
        end
  then
    let cache := foldl deleteChangedKeys (interpretationCache (hint st)) contentChanges in
    with_refresh (with_cache st cache) (refreshOf editorAtRefresh)
  else st.

End Hints.

(** ** The block variant of extension.ts

    [parseCodeBlocks], in the copy of the variant that [src/README.md]
    holds from its line 939 on; the line numbers are those of
    [src/README.md]. *)

Module Blocks.

Record CodeBlock : Type := {
  startLine : Z;
  endLine : Z;
  code : jsstring
}.

Definition openBrace : N := 123%N.
Definition closeBrace : N := 125%N.

(** The test of line 1069 on a trimmed line: the line is skipped. *)
Definition isSkipped (trimmedLine : jsstring) : bool :=
  eqb trimmedLine []
  || startsWith trimmedLine (str "//")
  || startsWith trimmedLine (str "/*")
  || startsWith trimmedLine (str "*").

Definition blockKeywords : list jsstring :=
  [str "function"; str "class"; str "if"; str "for"; str "while"; str "switch";
   str "try"; str "catch"; str "finally"; str "else"].

(** The first pattern of [isBlockStart]: white space, then a keyword.
    Its last alternative, [else], white space and [if], begins with
    the alternative [else]. *)
Definition startsWithKeyword (s : jsstring) : bool :=
  existsb (startsWith (trimStart s)) blockKeywords.

(** The second pattern: an opening brace and white space up to the
    end. *)
Definition endsWithBrace (s : jsstring) : bool :=
  match rev (trimEnd s) with
  | c :: _ => (c =? openBrace)%N
  | [] => false
  end.

(** The third pattern: an arrow, white space and an opening brace. *)
Fixpoint hasArrowBrace (s : jsstring) : bool :=
  match s with
  | [] => false
  | c :: s' =>
      (if (c =? 61)%N then
         match s' with
         | d :: r =>
             (d =? 62)%N
             && match trimStart r with
                | e :: _ => (e =? openBrace)%N
                | [] => false
                end
         | [] => false
         end
       else false)
      || hasArrowBrace s'
  end.

Definition isBlockStart (trimmedLine : jsstring) : bool :=
  startsWithKeyword trimmedLine || endsWithBrace trimmedLine
  || hasArrowBrace trimmedLine.

(** The variables of the scan; [blockStart] is [-1] outside a block. *)
Record scan_state : Type := {
  braceDepth : Z;
  blockStart : Z;
  blocks : list CodeBlock
}.

(** [lines.slice(from, to).join('\n')] *)
Definition sliceJoin (lines : list jsstring) (from to : Z) : jsstring :=
  join [10%N] (take (Z.to_nat to - Z.to_nat from) (drop (Z.to_nat from) lines)).

(** Lines 1079 to 1097: one character of line [i]. *)
Definition scanChar (lines : list jsstring) (i : Z) (blockStartLine : bool)
    (st : scan_state) (c : N) : scan_state :=
  if (c =? openBrace)%N then
    {| braceDepth := braceDepth st + 1;
       blockStart := if (braceDepth st =? 0) && blockStartLine then i else blockStart st;
       blocks := blocks st |}
  else if (c =? closeBrace)%N then
    let depth := braceDepth st - 1 in
    if (depth =? 0) && negb (blockStart st =? -1) then
      {| braceDepth := depth;
         blockStart := -1;
         blocks := blocks st ++ [{| startLine := blockStart st;
                                    endLine := i;
                                    code := sliceJoin lines (blockStart st) (i + 1) |}] |}
    else
      {| braceDepth := depth; blockStart := blockStart st; blocks := blocks st |}
  else st.

(** Lines 1065 to 1098: line [i]. *)
Definition scanLine (lines : list jsstring) (i : Z) (line : jsstring)
    (st : scan_state) : scan_state :=
  let trimmedLine := trim line in
  if isSkipped trimmedLine then st
  else foldl (scanChar lines i (isBlockStart trimmedLine)) st line.

(** Lines 1064 to 1099: the lines [rest], the first of which is line [i]. *)
Fixpoint scanLines (lines : list jsstring) (i : Z) (rest : list jsstring)
    (st : scan_state) : scan_state :=
  match rest with
  | [] => st
  | line :: rest' => scanLines lines (i + 1) rest' (scanLine lines i line st)
  end.

(** Lines 1102 to 1113: every code line as a block of its own. *)
Fixpoint lineBlocks (i : Z) (rest : list jsstring) : list CodeBlock :=
  match rest with
  | [] => []
  | line :: rest' =>
      let trimmedLine := trim line in
      if negb (isSkipped trimmedLine)
      then {| startLine := i; endLine := i; code := trimmedLine |}
           :: lineBlocks (i + 1) rest'
      else lineBlocks (i + 1) rest'
  end.

(** [parseCodeBlocks(document)] *)
Definition parseCodeBlocks (document : TextDocument) : list CodeBlock :=
  let lines := lines document in
  let st := scanLines lines 0 lines {| braceDepth := 0; blockStart := -1; blocks := [] |} in
  match blocks st with
  | [] => lineBlocks 0 lines
  | blocks => blocks
  end.

(** *** The command [interpretFileByBlocks] (README.md, lines 946 to 1198) *)

Definition SERVER_URL : jsstring :=
  str "https://code-ai-interpreter.azurewebsites.net/api/code_ai_interpreter".

(** [getInterpretationLanguage()], lines 954 to 957 *)
Definition getInterpretationLanguage (setting : option jsstring) : jsstring :=
  default (str "English") setting.

(** The module's variables [blockInterpretationCache] and
    [blockDecorationType] (whether it holds a decoration type), the
    number of decoration types created and not disposed of, and the
    requests sent so far. *)
Record block_state : Type := {
  blockInterpretationCache : gmap jsstring json;
  blockDecorationType : bool;
  decorationTypes : nat;
  requests : list request
}.

Definition cache_get (key : jsstring) : M block_state jsval :=
  gets (fun st => blockInterpretationCache st !! key).

Definition cache_set (key : jsstring) (value : json) : M block_state unit :=
  modify (fun st => {| blockInterpretationCache := <[key := value]> (blockInterpretationCache st);
                       blockDecorationType := blockDecorationType st;
                       decorationTypes := decorationTypes st;
                       requests := requests st |}).

(** [await fetch(SERVER_URL, ...)] and [await response.text()] *)
Definition fetch (net : network) (req : request) : M block_state response :=
  fun st =>
    ({| blockInterpretationCache := blockInterpretationCache st;
        blockDecorationType := blockDecorationType st;
        decorationTypes := decorationTypes st;
        requests := requests st ++ [req] |},
     match net req with
     | Rejected msg => Throw msg
     | Responded r => Ret r
     end).

(** Lines 1135 to 1147: the decoration type of the last run is disposed
    of and a new one is created. *)
Definition newDecorationType : M block_state unit :=
  modify (fun st => {| blockInterpretationCache := blockInterpretationCache st;
                       blockDecorationType := true;
                       decorationTypes :=
                         S (if blockDecorationType st then pred (decorationTypes st)
                            else decorationTypes st);
                       requests := requests st |}).

(** A decoration: its range, and the text rendered after it. *)
Record DecorationOptions : Type := {
  range : Selection;
  contentText : jsstring
}.

(** What a run of the command shows: the messages, and the decorations
    given to [editor.setDecorations], if it is reached.  The progress
    notification is not part of the model. *)
Record blocks_run : Type := {
  notices : list Comments.notice;
  decorations : option (list DecorationOptions)
}.

Section Command.
Context `{Host}.
Variable setting : option jsstring.
Variable net : network.

(** [await interpretBlock(blockCode)], lines 982 to 1043.  From the
    test of [response.ok] to the unwrapping of [body] the statements
    are those of [interpretLines] in src/extension.ts. *)
Definition interpretBlock (blockCode : jsstring) : M block_state json :=
  try_catch
    (let language := getInterpretationLanguage setting in
     let* response :=
       fetch net {| url := SERVER_URL;
                    body := JSON_stringify
                              (JObj [(str "codeLine", JStr blockCode);
                                     (str "language", JStr language)]) |} in
     let* data := lift (Comments.responsePayload response) in
     let* explanation := lift (get_prop data (str "explanation")) in
     mret (if truthy explanation then default JNull explanation
           else JStr (str "Failed to get explanation")))
    (fun message =>
       mret (JStr (str "Error: "
                     ++ (if negb (eqb message []) then message
                         else str "Unknown error occurred")))).

(** Line 1165: the key of the cache. *)
Definition blockKey (documentUri : jsstring) (block : CodeBlock) : jsstring :=
  documentUri ++ str ":block:" ++ ofInt (startLine block) ++ str ":"
              ++ ofInt (endLine block) ++ str ":"
              ++ getInterpretationLanguage setting.

(** Lines 1163 to 1176: the explanation of a block, from the cache or
    from the service. *)
Definition explanationOf (documentUri : jsstring) (block : CodeBlock)
    : M block_state json :=
  let cacheKey := blockKey documentUri block in
  let* explanation := cache_get cacheKey in
  if negb (truthy explanation) then
    try_catch
      (let* explanation := interpretBlock (code block) in
       cache_set cacheKey explanation ;;;
       mret explanation)
      (fun message => mret (JStr (str "Error: " ++ message)))
  else mret (default JNull explanation).

(** Lines 1155 to 1192, the [for] loop: [i] is the loop variable,
    [rest] the blocks from [i] on, and [documentAt i] the document as
    it is when block [i] is decorated, after the explanation has
    arrived. *)
Fixpoint decorateFrom (documentAt : Z -> TextDocument) (documentUri : jsstring)
    (i : Z) (rest : list CodeBlock) (decorations : list DecorationOptions)
    : M block_state (list DecorationOptions) :=
  match rest with
  | [] => mret decorations
  | block :: rest' =>
      let* explanation := explanationOf documentUri block in
      let* lineText := lift (lineAt (documentAt i) (endLine block)) in
      let endPosition := {| line := endLine block;
                            character := Z.of_nat (length lineText) |} in
      let* text := lift (ToString explanation) in
      decorateFrom documentAt documentUri (i + 1) rest'
        (decorations ++ [{| range := {| start := endPosition; end_ := endPosition |};
                            contentText := str " // " ++ Hints.bulb ++ str " " ++ text |}])
  end.

(** [await interpretFileByBlocks()], lines 1119 to 1198. *)
Definition interpretFileByBlocks (activeTextEditor : option TextEditor)
    (documentAt : Z -> TextDocument) : M block_state blocks_run :=
  match activeTextEditor with
  | None =>
      mret {| notices := [Comments.Warning (str "No active editor found.")];
              decorations := None |}
  | Some editor =>
      let document := Editor.document editor in
      let blocks := parseCodeBlocks document in
      if (Z.of_nat (length blocks) =? 0) then
        mret {| notices := [Comments.Information
                              (str "No code blocks found to interpret.")];
                decorations := None |}
      else
        newDecorationType ;;;
        let* decorations := decorateFrom documentAt (uri document) 0 blocks [] in
        mret {| notices := [Comments.Information
                              (str "Interpreted " ++ ofInt (Z.of_nat (length blocks))
                                   ++ str " code blocks.")];
                decorations := Some decorations |}
  end.

End Command.

End Blocks.

(** * The terms of the properties *)

(** Every unit of the batch holds the same string [Error: message]. *)
Definition reportsError (codeLines : list jsstring) (result : gmap number jsval)
    (message : jsstring) : Prop :=
  forall i : nat, (i < length codeLines)%nat ->
    result !! Some (Z.of_nat i) = Some (Some (JStr (str "Error: " ++ message))).

Section CallTerms.
Import Comments.

(** A computation that leaves the cache and the requests alone. *)
Definition frames {A} (m : M call_state A) : Prop :=
  forall st, interpretationCache (m st).1 = interpretationCache st
             /\ requests (m st).1 = requests st.

(** The state after the request has been sent. *)
Definition sent (req : request) (st : call_state) : call_state :=
  {| result := result st; interpretationCache := interpretationCache st;
     requests := requests st ++ [req] |}.

End CallTerms.

(** The ways in which a batched request fails as a whole, for the answer
    of the service to the request. *)
Inductive batchFailure `{Host} (answer : fetch_result) : Prop :=
| TransportError msg :
    answer = Rejected msg -> batchFailure answer
| HttpErrorStatus r :
    answer = Responded r -> ok r = false -> batchFailure answer
| ParseFailure r msg :
    answer = Responded r -> JSON_parse (text r) = Throw msg -> batchFailure answer
| ServiceError r data error :
    answer = Responded r ->
    JSON_parse (text r) = Ret data ->
    get_prop data (str "error") = Ret error ->
    truthy error = true ->
    batchFailure answer
| MissingExplanations r data :
    answer = Responded r ->
    Comments.responsePayload r = Ret data ->
    (forall items, get_prop data (str "explanations") <> Ret (Some (JArr items))) ->
    batchFailure answer.

Section ServiceTerms.
Context `{Host}.
Variable setting : option jsstring.
Variable net : network.
Import Comments.

(** What the [try] block does once the cache has not served the call. *)
Definition askService (codeLines : list jsstring) (st1 : call_state)
    : call_state * outcome unit :=
  let language := getInterpretationLanguage setting in
  let st2 := sent (batchRequest codeLines language) st1 in
  match net (batchRequest codeLines language) with
  | Rejected msg => (st2, Throw msg)
  | Responded r =>
      match responsePayload r with
      | Ret data => storeExplanations codeLines (cacheKeyOf codeLines language) data st2
      | Throw msg => (st2, Throw msg)
      end
  end.

End ServiceTerms.

(** The answer of a service that refuses the request. *)
Definition rateLimited : json := JObj [(str "error", JStr (str "rate limited"))].

Definition net500 : network :=
  fun _ => Responded {| status := 500; statusText := str "Internal Server Error";
                        text := Node.stringify rateLimited |}.

(** A payload with the explanation of one line. *)
Definition declaresX : json :=
  JObj [(str "explanations",
         JArr [JObj [(str "lineNumber", JNum 1);
                     (str "explanation", JStr (str "Declares a constant x with value 10"))]])].

(** The payload [v] as the JSON text under [body]. *)
Definition wrap (v : json) : json := JObj [(str "body", JStr (Node.stringify v))].

(** The service answering every request with status 200 and the text of
    [v]. *)
Definition net200 (v : json) : network :=
  fun _ => Responded {| status := 200; statusText := str "OK"; text := Node.stringify v |}.

(** The line number of [item], less one, is an index of [codeLines]. *)
Definition inRange `{Host} (codeLines : list jsstring) (item : json) : Prop :=
  exists i : Z,
    Comments.lineIndex item = Ret (Some i) /\ 0 <= i < Z.of_nat (length codeLines).

Section ReplayTerms.
Context `{Host}.
Import Comments.

Definition with_result (st : call_state) (r : gmap number jsval) : call_state :=
  {| result := r; interpretationCache := interpretationCache st;
     requests := requests st |}.

(** What the entry [item] of an explanations array adds to the map. *)
Definition enter (item : json) (r : gmap number jsval) : gmap number jsval :=
  match lineIndex item, get_prop item (str "explanation") with
  | Ret index, Ret explanation => <[index := explanation]> r
  | _, _ => r
  end.

(** Computations that send no request. *)
Definition quiet {A} (m : M call_state A) : Prop :=
  forall st, requests (m st).1 = requests st.

End ReplayTerms.

(** The service that cannot be reached. *)
Definition netDown : network := fun _ => Rejected (str "Failed to fetch").

(** A payload whose only explanation carries the line number 2. *)
Definition lineTwo : json :=
  JObj [(str "explanations",
         JArr [JObj [(str "lineNumber", JNum 2);
                     (str "explanation", JStr (str "Returns x"))]])].

(** The lines at which a transaction inserts text. *)
Definition insertionLines (transaction : list edit) : list Z :=
  flat_map (fun e => match e with
                     | Insert position _ => [line position]
                     | Delete _ => []
                     end) transaction.

(** A document of two lines in an editor, and explanations for both. *)
Definition twoLines : TextDocument :=
  {| uri := str "file:///a.js"; languageId := str "javascript";
     lines := [str "const x = 10;"; str "return x;"] |}.

Definition twoLinesEditor : TextEditor :=
  {| Editor.document := twoLines; Editor.selections := [] |}.

Definition twoExplanations : gmap Z jsval :=
  {[ 0 := Some (JStr (str "Declares x")); 1 := Some (JStr (str "Returns x")) ]}.

Definition otherDocument : TextDocument :=
  {| uri := str "file:///b.js"; languageId := str "javascript";
     lines := [str "let y;"] |}.

(** No two spaces follow each other. *)
Fixpoint single (l : jsstring) : Prop :=
  match l with
  | [] => True
  | a :: l' =>
      match l' with
      | b :: _ => ~ (a = 32%N /\ b = 32%N)
      | [] => True
      end /\ single l'
  end.

Definition onlySpaces (l : jsstring) : Prop :=
  Forall (fun c => isWhiteSpace c = true -> c = 32%N) l.

Section WrapTerms.
Variables indent commentPrefix commentSuffix : jsstring.
Import Comments.




End WrapTerms.


















(** The text of the pieces. *)
Definition marked (pieces : list (jsstring * jsstring)) : jsstring :=
  concat (map (fun piece => piece.1 ++ piece.2) pieces).



(** Line [i] of the document is a code line for [interpretSelectedLines]. *)
Definition isCodeLineAt (document : TextDocument) (i : Z) : bool :=
  match lineAt document i with
  | Ret text => Comments.isCodeLine (trim text)
  | Throw _ => false
  end.

(** The line at the end of which a hint is shown. *)
Definition hintLine (hint : Hints.InlayHint) : Z := line (Hints.position hint).

(** The prefixes that [interpretSelectedLines] takes for comments, and
    those that [provideInlayHints] takes for comments. *)
Definition selectionMarkers : list jsstring :=
  [str "//"; str "/*"; str "*"; str "#"; str "--"; str "'"].

Definition hintMarkers : list jsstring := [str "//"; str "/*"; str "*"].

(** The trimmed line is empty or starts with one of the markers. *)
Definition blankOrComment (markers : list jsstring) (text : jsstring) : Prop :=
  trim text = []
  \/ exists marker, marker ∈ markers /\ startsWith (trim text) marker = true.

(** A document with a line comment of Python, and an editor in which all
    of it is selected. *)
Definition pythonLines : TextDocument :=
  {| uri := str "file:///a.py"; languageId := str "python";
     lines := [str "x = 10"; str "  # the answer"; str ""; str "// c"; str "print(x)"] |}.

Definition pythonEditor : TextEditor :=
  {| Editor.document := pythonLines;
     Editor.selections :=
       [{| start := {| line := 0; character := 0 |};
           end_ := {| line := 4; character := 8 |} |}] |}.

(** The service answering every request with the explanation [E]. *)
Definition netExplains : network :=
  fun _ => Responded {| status := 200; statusText := str "OK";
                        text := Node.stringify (JObj [(str "explanation", JStr (str "E"))]) |}.

Definition autoInterpreting : Hints.hint_state :=
  {| Hints.isAutoInterpretEnabled := true; Hints.interpretationCache := ∅;
     Hints.requests := [] |}.

(** The hints of a call, or none when the call throws. *)
Definition hintsOf (r : Hints.hint_state * outcome (list Hints.InlayHint))
    : list Hints.InlayHint :=
  match r.2 with
  | Ret hints => hints
  | Throw _ => []
  end.

(** A document of 102 code lines, all of them selected. *)
Definition manyLines : TextDocument :=
  {| uri := str "file:///b.js"; languageId := str "javascript";
     lines := replicate 102 (str "x++;") |}.

Definition manyLinesEditor : TextEditor :=
  {| Editor.document := manyLines;
     Editor.selections :=
       [{| start := {| line := 0; character := 0 |};
           end_ := {| line := 101; character := 4 |} |}] |}.

(** The units of a run of the command, or none when it stops. *)
Definition unitsOf (r : outcome (option (list Comments.CodeLine)))
    : list Comments.CodeLine :=
  match r with
  | Ret (Some units) => units
  | _ => []
  end.

Definition isBrace (c : N) : bool :=
  (c =? Blocks.openBrace)%N || (c =? Blocks.closeBrace)%N.

(** The braces that the scan of [parseCodeBlocks] reads in the lines
    [ls]: those of the lines that are not skipped. *)
Definition braces (ls : list jsstring) : list N :=
  flat_map (fun l => if Blocks.isSkipped (trim l) then [] else List.filter isBrace l) ls.

(** A sequence of braces in which every opening brace has its closing
    brace. *)
Inductive balanced : list N -> Prop :=
| balanced_nil : balanced []
| balanced_pair w1 w2 :
    balanced w1 -> balanced w2 ->
    balanced (Blocks.openBrace :: w1 ++ Blocks.closeBrace :: w2).

(** From the depth [d] on, the braces [u] are read below an open block:
    none is read at depth 0, and none closes the block. *)
Fixpoint inside (d : Z) (u : list N) : Prop :=
  match u with
  | [] => True
  | c :: u' =>
      if (c =? Blocks.openBrace)%N then 1 <= d /\ inside (d + 1) u'
      else if (c =? Blocks.closeBrace)%N then 2 <= d /\ inside (d - 1) u'
      else inside d u'
  end.

Fixpoint depthAfter (d : Z) (u : list N) : Z :=
  match u with
  | [] => d
  | c :: u' =>
      if (c =? Blocks.openBrace)%N then depthAfter (d + 1) u'
      else if (c =? Blocks.closeBrace)%N then depthAfter (d - 1) u'
      else depthAfter d u'
  end.

(** The unit of line [i] in a document where no block is found. *)
Definition lineUnit (i : nat) (l : jsstring) : option Blocks.CodeBlock :=
  if Blocks.isSkipped (trim l) then None
  else Some {| Blocks.startLine := Z.of_nat i; Blocks.endLine := Z.of_nat i;
               Blocks.code := trim l |}.

Definition noBrace (l : jsstring) : Prop :=
  (Blocks.openBrace ∉ l) /\ (Blocks.closeBrace ∉ l).

(** A function between two statements. *)
Definition functionLines : list jsstring :=
  [str "function f(a) {";
   str "  if (a) { return 1; }";
   str "  // }";
   str "  return 2;";
   str "}"].

Definition statements : list jsstring :=
  [str "const x = 1;"; str ""; str "// the sum"; str "f(x) + 1"].

(** Every key of the map is a number from 0 up to [n], not included:
    no key is [NaN], negative, or [n] or more. *)
Definition keysBelow (n : nat) (r : gmap number jsval) : Prop :=
  forall k v, r !! k = Some v -> exists i : Z, k = Some i /\ 0 <= i < Z.of_nat n.

(** The run has sent nothing, and has written [value] under [key] in
    the cache where it returns and nothing where it throws. *)
Definition writesOnReturn {A} (key value : jsstring) (st : Comments.call_state)
    (run : Comments.call_state * outcome A) : Prop :=
  Comments.requests run.1 = Comments.requests st
  /\ match run.2 with
     | Ret _ => Comments.interpretationCache run.1
                = <[key := value]> (Comments.interpretationCache st)
     | Throw _ => Comments.interpretationCache run.1 = Comments.interpretationCache st
     end.

(** A computation that keeps the keys of [result] below [n]. *)
Definition keeps {A} (n : nat) (m : M Comments.call_state A) : Prop :=
  forall st, keysBelow n (Comments.result st) -> keysBelow n (Comments.result (m st).1).

(** The text holds no line feed and no carriage return. *)
Definition noLineBreak (l : jsstring) : Prop := (10%N ∉ l) /\ (13%N ∉ l).

(** The openings of the comment prefixes. *)
Definition commentOpenings : list jsstring :=
  [str "# "; str "<!-- "; str "/* "; str "-- "; str "// "].

(** The number of explanation comments at the head of [rest]. *)
Fixpoint commentRun (rest : list jsstring) : nat :=
  match rest with
  | existingLine :: rest' =>
      if Comments.isComment existingLine then S (commentRun rest') else O
  | [] => O
  end.

(** The deletions of the explanation comments that follow line [n]. *)
Definition deletionsBelow (document : TextDocument) (n : Z) : list edit :=
  map Delete
    (seqZ (n + 1) (Z.of_nat (commentRun (drop (Z.to_nat (n + 1)) (lines document))))).

(** The lines of the document for which [insertedComments] holds a mark. *)
Definition tracked (inserted : gmap jsstring (gset Z)) (document : TextDocument)
    : gset Z :=
  default ∅ (inserted !! uri document).

(** The edits for line [n] when the lines in [marked] are marked: the
    comments below a marked line are deleted, and the comment for the
    explanation is inserted. *)
Definition editsFor (document : TextDocument) (explanations : gmap Z jsval)
    (marked : gset Z) (n : Z) : list edit :=
  match default undefined (explanations !! n), lineAt document n with
  | Some (JStr explanation), Ret codeLineText =>
      if eqb explanation [] then []
      else
        (if bool_decide (n ∈ marked) then deletionsBelow document n else [])
        ++ [Insert {| line := n + 1; character := 0 |}
              (Comments.commentText (leadingWhiteSpace codeLineText)
                 (Comments.getCommentPrefix (languageId document))
                 (Comments.getCommentSuffix (languageId document))
                 (Comments.cleanExplanation explanation))]
  | _, _ => []
  end.

(** Line [j] of the document is taken for an explanation comment. *)
Definition isCommentAt (document : TextDocument) (j : Z) : bool :=
  match lineAt document j with
  | Ret existingLine => Comments.isComment existingLine
  | Throw _ => false
  end.

(** A document in which line 0 carries a mark and an explanation comment
    below it, and a new explanation for the line. *)
Definition commentedLines : TextDocument :=
  {| uri := str "file:///a.js"; languageId := str "javascript";
     lines := [str "const x = 10;"; str "// " ++ Comments.brain ++ str " Sets x";
               str "return x;"] |}.

Definition commentedEditor : TextEditor :=
  {| Editor.document := commentedLines; Editor.selections := [] |}.

Definition firstMarked : gmap jsstring (gset Z) := {[ str "file:///a.js" := {[ 0 ]} ]}.

Definition firstExplained : gmap Z jsval := {[ 0 := Some (JStr (str "Declares x")) ]}.

Definition replacement : list edit :=
  [Delete 1;
   Insert {| line := 1; character := 0 |}
     (Comments.getCommentPrefix (str "javascript") ++ str "Declares x" ++ [10%N])].

(** The marks after explanations for both lines of [twoLines]. *)
Definition bothMarked : gmap jsstring (gset Z) := {[ str "file:///a.js" := {[ 0; 1 ]} ]}.

(** An editor in which two selections overlap. *)
Definition overlappingEditor : TextEditor :=
  {| Editor.document := pythonLines;
     Editor.selections :=
       [{| start := {| line := 0; character := 0 |};
           end_ := {| line := 1; character := 3 |} |};
        {| start := {| line := 0; character := 2 |};
           end_ := {| line := 4; character := 8 |} |}] |}.

(** The explanation that the command enters for the unit of index [i]. *)
Definition enteredExplanation (explanations : gmap number jsval) (i : Z) : jsval :=
  or_else (default undefined (explanations !! Some i))
          (Some (JStr (str "No explanation available"))).

(** The units of [pythonEditor]. *)
Definition pythonUnits : list Comments.CodeLine :=
  [{| Comments.lineNumber := 0; Comments.code := str "x = 10" |};
   {| Comments.lineNumber := 4; Comments.code := str "print(x)" |}].

(** The document of [pythonEditor] after its code lines were indented
    while the request was under way, and the editor that shows it. *)
Definition pythonLinesIndented : TextDocument :=
  {| uri := str "file:///a.py"; languageId := str "python";
     lines := [str "  x = 10"; str "  # the answer"; str ""; str "// c";
               str "  print(x)"] |}.

Definition pythonEditorIndented : TextEditor :=
  {| Editor.document := pythonLinesIndented;
     Editor.selections := [] |}.

(** An editor in which only a comment, a blank line and another comment
    are selected. *)
Definition commentsEditor : TextEditor :=
  {| Editor.document := pythonLines;
     Editor.selections :=
       [{| start := {| line := 1; character := 0 |};
           end_ := {| line := 3; character := 4 |} |}] |}.

(** Every value of the cache is one that [provideInlayHints] takes for a
    cached explanation. *)
Definition allTruthy (cache : gmap jsstring json) : Prop :=
  map_Forall (fun _ v => truthy (Some v) = true) cache.

(** The request that [interpretLine] sends for a line. *)
Definition lineRequest `{Host} (setting : option jsstring) (codeLine : jsstring)
    : request :=
  {| url := Hints.SERVER_URL;
     body := JSON_stringify
               (JObj [(str "codeLine", JStr codeLine);
                      (str "language", JStr (Hints.getInterpretationLanguage setting))]) |}.

(** The key under which the explanation of line [i] is cached. *)
Definition hintKey (setting : option jsstring) (documentUri : jsstring) (i : Z)
    (lineText : jsstring) : jsstring :=
  documentUri ++ str ":" ++ ofInt i ++ str ":" ++ lineText ++ str ":"
              ++ Hints.getInterpretationLanguage setting.

(** The state after one more request. *)
Definition asked (st : Hints.hint_state) (req : request) : Hints.hint_state :=
  {| Hints.isAutoInterpretEnabled := Hints.isAutoInterpretEnabled st;
     Hints.interpretationCache := Hints.interpretationCache st;
     Hints.requests := Hints.requests st ++ [req] |}.

(** A computation that leaves the state as it is. *)
Definition steady {S A} (m : M S A) : Prop := forall st, (m st).1 = st.

(** A computation whose results all satisfy [P]. *)
Definition gives {S A} (P : A -> Prop) (m : M S A) : Prop :=
  forall st st' a, m st = (st', Ret a) -> P a.


(** The text that marks line [i] in a key. *)
Definition lineMarker (i : Z) : jsstring := str ":" ++ ofInt i ++ str ":".

(** The lines that the ranges of the changes cover. *)
Definition changedLines (contentChanges : list Hints.TextDocumentContentChangeEvent)
    : list Z :=
  flat_map (fun change =>
              seqZ (line (start (Hints.range change)))
                   (line (end_ (Hints.range change))
                    - line (start (Hints.range change)) + 1))
           contentChanges.

(** The extension after auto interpretation was switched on and the
    hints of [pythonLines] were given. *)
Definition watching : Hints.extension_state :=
  let switched := Hints.toggleAutoInterpret None (Some pythonEditor) Hints.activated in
  Hints.with_cache switched
    (Hints.interpretationCache
       (Hints.provideInlayHints (H := Node.host) None netExplains pythonLines
          (Hints.hint switched)).1).

(** A change of line 4. *)
Definition lastLineChanged : list Hints.TextDocumentContentChangeEvent :=
  [{| Hints.range := {| start := {| line := 4; character := 0 |};
                        end_ := {| line := 4; character := 8 |} |} |}].

(** What can happen to the extension once it is activated. *)
Inductive event : Type :=
| Toggled (setting : option jsstring) (activeTextEditor : option TextEditor)
| ConfigurationChanged (affectsLanguage : bool) (setting : option jsstring)
    (activeTextEditor : option TextEditor)
| ActiveEditorChanged (editor : option TextEditor)
| DocumentChanged (document : TextDocument)
    (contentChanges : list Hints.TextDocumentContentChangeEvent)
    (activeTextEditor editorAtRefresh : option TextEditor).

Definition handle (st : Hints.extension_state) (e : event) : Hints.extension_state :=
  match e with
  | Toggled setting activeTextEditor =>
      Hints.toggleAutoInterpret setting activeTextEditor st
  | ConfigurationChanged affectsLanguage setting activeTextEditor =>
      Hints.onDidChangeConfiguration affectsLanguage setting activeTextEditor st
  | ActiveEditorChanged editor => Hints.onDidChangeActiveTextEditor editor st
  | DocumentChanged document contentChanges activeTextEditor editorAtRefresh =>
      Hints.onDidChangeTextDocument document contentChanges activeTextEditor
        editorAtRefresh st
  end.

(** The status bar and the registration agree with the switch. *)
Definition consistent (st : Hints.extension_state) : Prop :=
  let enabled := Hints.isAutoInterpretEnabled (Hints.hint st) in
  Hints.statusBarText st
  = (if enabled then str "$(check) Interpretation On"
     else str "$(circle-slash) Interpretation Off")
  /\ Hints.inlayHintsProvider st = enabled
  /\ Hints.registrations st = (if enabled then 1%nat else 0%nat)
  /\ Hints.statusBarBackground st
     = (if enabled then Some (str "statusBarItem.prominentForeground") else None).

(** The lines that a block covers. *)
Definition span (block : Blocks.CodeBlock) : Z * Z :=
  (Blocks.startLine block, Blocks.endLine block).

(** The block covers lines of a document of [n] lines. *)
Definition within (n : Z) (block : Blocks.CodeBlock) : Prop :=
  0 <= Blocks.startLine block <= Blocks.endLine block /\ Blocks.endLine block < n.

(** The first block ends where the second starts, or above. *)
Definition before (block1 block2 : Blocks.CodeBlock) : Prop :=
  Blocks.endLine block1 <= Blocks.startLine block2.

(** The text of a block: its lines joined by line feeds, or the one line
    that it covers, trimmed. *)
Definition carries (lines : list jsstring) (block : Blocks.CodeBlock) : Prop :=
  Blocks.code block
  = Blocks.sliceJoin lines (Blocks.startLine block) (Blocks.endLine block + 1)
  \/ (Blocks.startLine block = Blocks.endLine block
      /\ exists text,
           lines !! Z.to_nat (Blocks.startLine block) = Some text
           /\ Blocks.code block = trim text).

(** What the scan has found when line [n] is reached: blocks above that
    line, in their order, and none of them below the line where the
    open block starts. *)
Definition scanned (lines : list jsstring) (n : Z) (st : Blocks.scan_state) : Prop :=
  Forall (fun block => within n block /\ carries lines block) (Blocks.blocks st)
  /\ StronglySorted before (Blocks.blocks st)
  /\ (Blocks.blockStart st = -1
      \/ (0 <= Blocks.blockStart st < n
          /\ Forall (fun block => Blocks.endLine block <= Blocks.blockStart st)
                    (Blocks.blocks st))).

(** The request that [interpretBlock] sends for the text of a block. *)
Definition blockRequest `{Host} (setting : option jsstring) (blockCode : jsstring)
    : request :=
  {| url := Blocks.SERVER_URL;
     body := JSON_stringify
               (JObj [(str "codeLine", JStr blockCode);
                      (str "language", JStr (Blocks.getInterpretationLanguage setting))]) |}.

(** The state after one more request. *)
Definition askedBlock (st : Blocks.block_state) (req : request) : Blocks.block_state :=
  {| Blocks.blockInterpretationCache := Blocks.blockInterpretationCache st;
     Blocks.blockDecorationType := Blocks.blockDecorationType st;
     Blocks.decorationTypes := Blocks.decorationTypes st;
     Blocks.requests := Blocks.requests st ++ [req] |}.

(** What [interpretBlock] returns for an error with the given message. *)
Definition errorText (message : jsstring) : json :=
  JStr (str "Error: "
          ++ (if negb (eqb message []) then message else str "Unknown error occurred")).

(** The end of line [i] of a document, as a range. *)
Definition lineEnd (document : TextDocument) (i : Z) : Selection :=
  let position :=
    {| line := i;
       character := Z.of_nat (length (default [] (lines document !! Z.to_nat i))) |} in
  {| start := position; end_ := position |}.

(** The decorations that a run has set, if it has. *)
Definition shown (run : Blocks.blocks_run) : list Blocks.DecorationOptions :=
  default [] (Blocks.decorations run).

(** The message that ends a run without blocks. *)
Definition noBlocks : Blocks.blocks_run :=
  {| Blocks.notices := [Comments.Information (str "No code blocks found to interpret.")];
     Blocks.decorations := None |}.

(** The message that ends a run for [n] blocks. *)
Definition interpretedBlocks (n : nat) : list Comments.notice :=
  [Comments.Information (str "Interpreted " ++ ofInt (Z.of_nat n) ++ str " code blocks.")].

(** The state in which the extension is loaded. *)
Definition loaded : Blocks.block_state :=
  {| Blocks.blockInterpretationCache := ∅;
     Blocks.blockDecorationType := false;
     Blocks.decorationTypes := 0;
     Blocks.requests := [] |}.

(** A run of the command: the setting of the language, the service, the
    active editor and the document as the run finds them. *)
Record invocation : Type := {
  withSetting : option jsstring;
  withService : network;
  withEditor : option TextEditor;
  withDocumentAt : Z -> TextDocument
}.

Definition invoke `{Host} (st : Blocks.block_state) (call : invocation)
    : Blocks.block_state :=
  (Blocks.interpretFileByBlocks (withSetting call) (withService call) (withEditor call)
     (withDocumentAt call) st).1.

(** The variable holds the only decoration type that is not disposed
    of, and no cached explanation is falsy. *)
Definition tidy (st : Blocks.block_state) : Prop :=
  Blocks.decorationTypes st = (if Blocks.blockDecorationType st then 1 else 0)%nat
  /\ allTruthy (Blocks.blockInterpretationCache st).

Definition oneFunction : TextDocument :=
  {| uri := str "file:///c.js"; languageId := str "javascript";
     lines := [str "function f() {"; str "  return 1;"; str "}"] |}.

(** The same file after an edit inside the function. *)
Definition oneFunctionEdited : TextDocument :=
  {| uri := str "file:///c.js"; languageId := str "javascript";
     lines := [str "function g() {"; str "  return 2 + 2;"; str "}"] |}.

Definition editorOf (document : TextDocument) : TextEditor :=
  {| Editor.document := document; Editor.selections := [] |}.

(** What the run for the file shows when the service explains every
    block with [E]. *)
Definition oneFunctionRun : Blocks.blocks_run :=
  {| Blocks.notices := interpretedBlocks 1;
     Blocks.decorations :=
       Some [{| Blocks.range := lineEnd oneFunction 2;
                Blocks.contentText := str " // " ++ Hints.bulb ++ str " E" |}] |}.

(** * The properties *)

(** ** The batched call *)

Lemma eqb_eq (a b : jsstring) : eqb a b = true <-> a = b.
Proof. unfold eqb. apply bool_decide_eq_true. Qed.

Lemma eqb_neq (a b : jsstring) : eqb a b = false <-> a <> b.
Proof. unfold eqb. apply bool_decide_eq_false. Qed.

Section InterpretLinesFacts.
Context `{Host}.
Variable setting : option jsstring.
Variable net : network.
Import Comments.

Lemma frames_mret {A} (a : A) : frames (mret a).
Proof. intros st. auto. Qed.

Lemma frames_mthrow {A} msg : frames (@mthrow call_state A msg).
Proof. intros st. auto. Qed.

Lemma frames_lift {A} (o : outcome A) : frames (lift o).
Proof. intros st. auto. Qed.

Lemma frames_result_set index v : frames (result_set index v).
Proof. intros st. auto. Qed.

Lemma frames_mbind {A B} (m : M call_state A) (f : A -> M call_state B) :
  frames m -> (forall a, frames (f a)) -> frames (mbind m f).
Proof.
  intros Hm Hf st. unfold mbind. specialize (Hm st).
  destruct (m st) as [st' [a|msg]]; simpl in *; auto.
  destruct (Hf a st') as [-> ->]. auto.
Qed.

Lemma frames_try_catch {A} (m : M call_state A) h :
  frames m -> (forall msg, frames (h msg)) -> frames (try_catch m h).
Proof.
  intros Hm Hh st. unfold try_catch. specialize (Hm st).
  destruct (m st) as [st' [a|msg]]; simpl in *; auto.
  destruct (Hh msg st') as [-> ->]. auto.
Qed.

Lemma frames_forEach {A} (f : A -> M call_state unit) items :
  (forall a, frames (f a)) -> frames (forEach f items).
Proof.
  intros Hf. induction items as [|x items IH]; simpl.
  - apply frames_mret.
  - apply frames_mbind; auto.
Qed.

Lemma frames_forEach_value callee v f :
  (forall a, frames (f a)) -> frames (forEach_value callee v f).
Proof.
  intros Hf. destruct v as [[]|]; simpl;
    auto using frames_mthrow, frames_forEach.
Qed.

Lemma frames_replayCached c : frames (replayCached c).
Proof.
  unfold replayCached. apply frames_try_catch; [|intros; apply frames_mret].
  apply frames_mbind; [apply frames_lift|intros cachedData].
  apply frames_mbind; [apply frames_lift|intros explanations].
  destruct (truthy explanations); [|apply frames_mret].
  apply frames_mbind; [|intros; apply frames_mret].
  apply frames_forEach_value. intros item.
  apply frames_mbind; [apply frames_lift|intros index].
  apply frames_mbind; [apply frames_lift|intros explanation].
  apply frames_result_set.
Qed.

Lemma replayCached_returns c st : exists st' b, replayCached c st = (st', Ret b).
Proof.
  unfold replayCached, try_catch.
  match goal with |- context [match ?m st with _ => _ end] => destruct (m st) as [st' [b|msg]] end.
  - eauto.
  - eexists _, _. reflexivity.
Qed.

(** The [catch] block enters the message under every index. *)
Lemma forEach_result_set_spec (v : jsval) (l : list nat) st :
  exists r,
    forEach (fun index : nat => result_set (Some (Z.of_nat index)) v) l st
    = ({| result := r; interpretationCache := interpretationCache st;
          requests := requests st |}, Ret tt)
    /\ (forall i, i ∈ l -> r !! Some (Z.of_nat i) = Some v)
    /\ (forall k, (forall i, i ∈ l -> k <> Some (Z.of_nat i)) -> r !! k = result st !! k).
Proof.
  revert st. induction l as [|a l IH]; intros st; simpl.
  - exists (result st). destruct st; simpl. split; [reflexivity|].
    split; [intros i Hi; inversion Hi|auto].
  - unfold mbind, result_set at 1, modify. simpl.
    destruct (IH {| result := <[Some (Z.of_nat a) := v]> (result st);
                    interpretationCache := interpretationCache st;
                    requests := requests st |}) as (r & -> & Hin & Hout).
    simpl in *. exists r. split; [reflexivity|]. split.
    + intros i Hi. apply elem_of_cons in Hi as [->|Hi]; [|auto].
      destruct (decide (a ∈ l)) as [Ha|Ha]; [auto|].
      rewrite Hout; [apply lookup_insert_eq|].
      intros i Hi [=Heq]. apply Nat2Z.inj in Heq. subst. contradiction.
    + intros k Hk. rewrite Hout.
      * apply lookup_insert_ne. intros <-. eapply Hk; [left|reflexivity].
      * intros i Hi. apply Hk. right. exact Hi.
Qed.

Lemma interpretLines_catch_spec codeLines msg st :
  exists r,
    interpretLines_catch codeLines msg st
    = ({| result := r; interpretationCache := interpretationCache st;
          requests := requests st |}, Ret tt)
    /\ (forall i : nat, (i < length codeLines)%nat ->
          r !! Some (Z.of_nat i)
          = Some (Some (JStr (str "Error: " ++ reportedMessage msg)))).
Proof.
  unfold interpretLines_catch.
  destruct (forEach_result_set_spec
              (Some (JStr (str "Error: " ++ reportedMessage msg)))
              (seq 0 (length codeLines)) st) as (r & Heq & Hin & _).
  exists r. split; [exact Heq|].
  intros i Hi. apply Hin. apply elem_of_seq. lia.
Qed.

Lemma interpretLines_run_returns codeLines st :
  exists st', interpretLines_run setting net codeLines st = (st', Ret tt).
Proof.
  unfold interpretLines_run, try_catch.
  destruct (interpretLines_try setting net codeLines st) as [st1 [[]|msg]].
  - eauto.
  - destruct (interpretLines_catch_spec codeLines msg st1) as (r & -> & _). eauto.
Qed.

Lemma interpretLines_run_throw codeLines st st1 msg :
  interpretLines_try setting net codeLines st = (st1, Throw msg) ->
  reportsError codeLines (result (interpretLines_run setting net codeLines st).1)
               (reportedMessage msg)
  /\ interpretationCache (interpretLines_run setting net codeLines st).1
     = interpretationCache st1
  /\ requests (interpretLines_run setting net codeLines st).1 = requests st1.
Proof.
  intros Htry. unfold interpretLines_run, try_catch. rewrite Htry.
  destruct (interpretLines_catch_spec codeLines msg st1) as (r & -> & Hr).
  simpl. auto.
Qed.

(** The [try] block after the cache has been consulted. *)
Lemma interpretLines_try_unfold codeLines st :
  let language := getInterpretationLanguage setting in
  let key := cacheKeyOf codeLines language in
  interpretLines_try setting net codeLines st
  = match (match interpretationCache st !! key with
           | Some c => if negb (eqb c []) then replayCached c st else (st, Ret false)
           | None => (st, Ret false)
           end) with
    | (st1, Ret true) => (st1, Ret tt)
    | (st1, Ret false) =>
        let st2 := sent (batchRequest codeLines language) st1 in
        match net (batchRequest codeLines language) with
        | Rejected msg => (st2, Throw msg)
        | Responded r =>
            match responsePayload r with
            | Ret data => storeExplanations codeLines key data st2
            | Throw msg => (st2, Throw msg)
            end
        end
    | (st1, Throw msg) => (st1, Throw msg)
    end.
Proof.
  intros language key. unfold interpretLines_try.
  fold language. fold key.
  unfold mbind at 1. unfold cache_get, gets.
  unfold mbind at 1.
  destruct (interpretationCache st !! key) as [c|] eqn:Hc;
    [destruct (negb (eqb c []));
     [destruct (replayCached c st) as [st1 [[|]|msg]]; try reflexivity|]|];
    unfold mret, mbind, fetchPayload, mbind, fetch, sent, lift;
    (destruct (net (batchRequest codeLines language)); try reflexivity;
     destruct (responsePayload r); reflexivity).
Qed.

Lemma throw_new_Error_throws {A} v : exists m, @throw_new_Error _ A v = Throw m.
Proof. unfold throw_new_Error. destruct (ToString v); simpl; eauto. Qed.

Lemma throw_server_error_throws {A} v : exists m, @throw_server_error _ A v = Throw m.
Proof. unfold throw_server_error. destruct (ToString _); simpl; eauto. Qed.

Lemma responsePayload_http r :
  ok r = false -> exists m, responsePayload r = Throw m.
Proof.
  intros Hok. unfold responsePayload. rewrite Hok. simpl.
  destruct (@throw_new_Error_throws unit (httpErrorMessage r)) as [m ->].
  simpl. eauto.
Qed.

Lemma responsePayload_parse r msg :
  JSON_parse (text r) = Throw msg -> exists m, responsePayload r = Throw m.
Proof.
  intros Hparse. destruct (ok r) eqn:Hok; [|apply responsePayload_http; exact Hok].
  unfold responsePayload. rewrite Hok, Hparse. simpl. eauto.
Qed.

Lemma responsePayload_error r data error :
  JSON_parse (text r) = Ret data ->
  get_prop data (str "error") = Ret error ->
  truthy error = true ->
  exists m, responsePayload r = Throw m.
Proof.
  intros Hparse Herror Htruthy.
  destruct (ok r) eqn:Hok; [|apply responsePayload_http; exact Hok].
  unfold responsePayload. rewrite Hok, Hparse. cbn [negb obind ocatch].
  rewrite Herror. cbn [obind]. rewrite Htruthy.
  destruct (@throw_server_error_throws unit error) as [m ->]. simpl. eauto.
Qed.

Lemma storeExplanations_missing codeLines key data st :
  (forall items, get_prop data (str "explanations") <> Ret (Some (JArr items))) ->
  exists m, storeExplanations codeLines key data st = (st, Throw m).
Proof.
  intros Hmissing. unfold storeExplanations, mbind, lift.
  destruct (get_prop data (str "explanations")) as [[[]|]|m] eqn:Hget;
    cbn [isArray]; rewrite ?andb_false_r; try (eexists; reflexivity).
  exfalso. eapply Hmissing. reflexivity.
Qed.

End InterpretLinesFacts.

Section InterpretLinesFailures.
Context `{Host}.
Variable setting : option jsstring.
Variable net : network.
Import Comments.

(** A call that sends a request has found nothing to replay. *)
Lemma interpretLines_try_sent codeLines cache :
  (interpretLines setting net codeLines cache).2 <> [] ->
  exists st1,
    interpretationCache st1 = cache /\ requests st1 = []
    /\ interpretLines_try setting net codeLines (initial cache) = askService setting net codeLines st1.
Proof.
  intros Hsent.
  pose proof (interpretLines_try_unfold setting net codeLines (initial cache)) as Htry.
  cbv zeta in Htry.
  assert (Hreplay : exists st1 b,
            match interpretationCache (initial cache)
                    !! cacheKeyOf codeLines (getInterpretationLanguage setting) with
            | Some c => if negb (eqb c []) then replayCached c (initial cache)
                        else (initial cache, Ret false)
            | None => (initial cache, Ret false)
            end = (st1, Ret b)
            /\ interpretationCache st1 = cache /\ requests st1 = []).
  { destruct (interpretationCache (initial cache) !! _) as [c|]; [|eauto 6].
    destruct (negb (eqb c [])); [|eauto 6].
    destruct (replayCached_returns c (initial cache)) as (st1 & b & Heq).
    exists st1, b. split; [exact Heq|].
    pose proof (frames_replayCached c (initial cache)) as Hframe.
    rewrite Heq in Hframe. exact Hframe. }
  destruct Hreplay as (st1 & b & Hreplay & Hcache & Hreq).
  rewrite Hreplay in Htry. destruct b.
  - exfalso. apply Hsent. unfold interpretLines, interpretLines_run, try_catch.
    rewrite Htry. simpl. exact Hreq.
  - exists st1. auto.
Qed.

Lemma batchFailure_throws codeLines st :
  batchFailure (net (batchRequest codeLines (getInterpretationLanguage setting))) ->
  exists st2 msg, askService setting net codeLines st = (st2, Throw msg).
Proof.
  unfold askService.
  intros [msg ->|r -> Hok|r msg -> Hparse|r data error -> Hparse Herror Htruthy
         |r data -> Hpayload Hmissing].
  - eauto.
  - destruct (responsePayload_http r Hok) as [m ->]. eauto.
  - destruct (responsePayload_parse r msg Hparse) as [m ->]. eauto.
  - destruct (responsePayload_error r data error Hparse Herror Htruthy) as [m ->]. eauto.
  - rewrite Hpayload.
    destruct (storeExplanations_missing codeLines
                (cacheKeyOf codeLines (getInterpretationLanguage setting)) data
                (sent (batchRequest codeLines (getInterpretationLanguage setting)) st)
                Hmissing) as [m ->].
    eauto.
Qed.

(** The result of a call whose [try] block throws. *)
Lemma interpretLines_throw codeLines cache st1 msg :
  interpretLines_try setting net codeLines (initial cache) = (st1, Throw msg) ->
  reportsError codeLines (interpretLines setting net codeLines cache).1.1
               (reportedMessage msg).
Proof.
  intros Htry. unfold interpretLines.
  apply (interpretLines_run_throw setting net codeLines _ _ _ Htry).
Qed.

(** The error thrown for a status outside 200 to 299 when the body is a
    JSON object with a string under [error]. *)
Lemma responsePayload_http_error r data e :
  ok r = false ->
  JSON_parse (text r) = Ret data ->
  get_prop data (str "error") = Ret (Some (JStr e)) ->
  e <> [] ->
  responsePayload r = Throw e.
Proof.
  intros Hok Hparse Herror He. unfold responsePayload. rewrite Hok.
  cbn [negb]. unfold httpErrorMessage. rewrite Hparse. cbn [obind].
  rewrite Herror. cbn [obind truthy].
  apply eqb_neq in He. rewrite He. reflexivity.
Qed.

End InterpretLinesFailures.

(** C9: [interpretLines] never throws to its caller, and when the request
    it sends fails (transport error, status outside 200 to 299, text that
    is not JSON, an [error] field, no [explanations] array), the map it
    resolves with holds [Error: message] under every index of
    [codeLines]. *)
Theorem interpretLines_resolves_with_errors `{Host} setting net codeLines cache :
  (forall st, exists st',
      Comments.interpretLines_run setting net codeLines st = (st', Ret tt))
  /\ ((Comments.interpretLines setting net codeLines cache).2 <> [] ->
      batchFailure (net (Comments.batchRequest codeLines
                           (Comments.getInterpretationLanguage setting))) ->
      exists message,
        reportsError codeLines
          (Comments.interpretLines setting net codeLines cache).1.1 message).
Proof.
  split.
  - intros st. apply interpretLines_run_returns.
  - intros Hsent Hfail.
    destruct (interpretLines_try_sent setting net codeLines cache Hsent)
      as (st1 & _ & _ & Htry).
    destruct (batchFailure_throws setting net codeLines st1 Hfail) as (st2 & msg & Hthrow).
    rewrite Hthrow in Htry.
    exists (Comments.reportedMessage msg).
    eapply interpretLines_throw. exact Htry.
Qed.

Lemma interpretLines_resolves_with_errors_witness :
  exists message,
    reportsError [str "const x = 10;"; str "return x;"]
      (Comments.interpretLines (H := Node.host) None net500
         [str "const x = 10;"; str "return x;"] ∅).1.1 message.
Proof.
  apply (proj2 (interpretLines_resolves_with_errors (H := Node.host) None net500
                  [str "const x = 10;"; str "return x;"] ∅)).
  - vm_compute. discriminate.
  - eapply HttpErrorStatus; reflexivity.
Defined.

(** C3 (amended): when the [try] block of a batched request throws, every
    unit receives the same string [Error: message]; and when the service
    answers a request with status 500 and the body
    [{"error":"rate limited"}], that string is [Error: rate limited]. *)
Theorem failed_batch_reports_one_error `{Host} setting net codeLines cache :
  (forall st1 msg,
      Comments.interpretLines_try setting net codeLines (Comments.initial cache)
      = (st1, Throw msg) ->
      reportsError codeLines
        (Comments.interpretLines setting net codeLines cache).1.1
        (Comments.reportedMessage msg))
  /\ (forall r,
        (Comments.interpretLines setting net codeLines cache).2 <> [] ->
        net (Comments.batchRequest codeLines
               (Comments.getInterpretationLanguage setting)) = Responded r ->
        status r = 500 ->
        JSON_parse (text r) = Ret (JObj [(str "error", JStr (str "rate limited"))]) ->
        reportsError codeLines
          (Comments.interpretLines setting net codeLines cache).1.1
          (str "rate limited")).
Proof.
  split.
  - intros st1 msg Htry. eapply interpretLines_throw. exact Htry.
  - intros r Hsent Hnet Hstatus Hparse.
    destruct (interpretLines_try_sent setting net codeLines cache Hsent)
      as (st1 & _ & _ & Htry).
    unfold askService in Htry. rewrite Hnet in Htry.
    assert (Hpayload : Comments.responsePayload r = Throw (str "rate limited")).
    { eapply responsePayload_http_error.
      - unfold ok. rewrite Hstatus. reflexivity.
      - exact Hparse.
      - reflexivity.
      - discriminate. }
    rewrite Hpayload in Htry.
    apply (interpretLines_throw setting net codeLines cache _ _ Htry).
Qed.

Lemma failed_batch_reports_one_error_witness :
  reportsError [str "const x = 10;"; str "return x;"]
    (Comments.interpretLines (H := Node.host) None net500
       [str "const x = 10;"; str "return x;"] ∅).1.1
    (str "rate limited").
Proof.
  apply (proj2 (failed_batch_reports_one_error (H := Node.host) None net500
                  [str "const x = 10;"; str "return x;"] ∅)
           {| status := 500; statusText := str "Internal Server Error";
              text := Node.stringify rateLimited |}).
  - vm_compute. discriminate.
  - reflexivity.
  - reflexivity.
  - vm_compute. reflexivity.
Defined.

(** C3 as stated fails: on status 500 with the body
    [{"error":"rate limited"}] the units hold [Error: rate limited],
    without the words [Server error]. *)
Lemma http500_error_not_prefixed :
  let result :=
    (Comments.interpretLines (H := Node.host) None net500
       [str "const x = 10;"; str "return x;"] ∅).1.1 in
  result !! Some 0 = Some (Some (JStr (str "Error: rate limited")))
  /\ result !! Some 1 = Some (Some (JStr (str "Error: rate limited")))
  /\ result !! Some 0 <> Some (Some (JStr (str "Error: Server error: rate limited"))).
Proof.
  vm_compute. repeat split; discriminate.
Qed.

Lemma startsWith_app (p s : jsstring) : startsWith (p ++ s) p = true.
Proof.
  induction p as [|c p IH]; simpl; [destruct s; reflexivity|].
  rewrite N.eqb_refl. exact IH.
Qed.

Lemma includes_startsWith (s p : jsstring) :
  startsWith s p = true -> includes s p = true.
Proof. destruct s; simpl; intros ->; reflexivity. Qed.

Lemma includes_app (p s : jsstring) : includes (p ++ s) p = true.
Proof. apply includes_startsWith, startsWith_app. Qed.

Section Unwrapping.
Context `{Host}.
Variable setting : option jsstring.
Import Comments.

(** The result of a call depends on the network through the payload of
    the answer only. *)
Lemma interpretLines_same_payload net1 net2 codeLines cache r1 r2 :
  net1 (batchRequest codeLines (getInterpretationLanguage setting)) = Responded r1 ->
  net2 (batchRequest codeLines (getInterpretationLanguage setting)) = Responded r2 ->
  responsePayload r1 = responsePayload r2 ->
  interpretLines setting net1 codeLines cache = interpretLines setting net2 codeLines cache.
Proof.
  intros Hnet1 Hnet2 Hpayload.
  unfold interpretLines, interpretLines_run, try_catch.
  rewrite !interpretLines_try_unfold. cbv zeta.
  rewrite Hnet1, Hnet2, Hpayload. reflexivity.
Qed.

(** The payload of a response whose [body] holds the text of an object. *)
Lemma responsePayload_unwrap r1 r2 outer error bodyText fields :
  ok r1 = true -> ok r2 = true ->
  JSON_parse (text r1) = Ret outer ->
  get_prop outer (str "error") = Ret error -> truthy error = false ->
  get_prop outer (str "body") = Ret (Some (JStr bodyText)) -> bodyText <> [] ->
  text r2 = bodyText ->
  JSON_parse bodyText = Ret (JObj fields) ->
  truthy (lookup_field (str "body") fields) = false ->
  (forall v, lookup_field (str "error") fields = Some v -> exists s, v = JStr s) ->
  responsePayload r1 = responsePayload r2.
Proof.
  intros Hok1 Hok2 Hparse1 Herror1 Hfalsy1 Hbody Hnonempty Htext Hparse2 Hnobody Herror2.
  unfold responsePayload. rewrite Hok1, Hok2, Htext, Hparse1, Hparse2.
  cbn [negb obind ocatch]. rewrite Herror1. cbn [obind]. rewrite Hfalsy1.
  cbn [obind]. unfold unwrapBody. rewrite Hbody. cbn [obind truthy].
  apply eqb_neq in Hnonempty. rewrite Hnonempty. cbn [negb].
  unfold JSON_parse_value. cbn [default from_option id ToString obind].
  rewrite Hparse2. cbn [obind get_prop]. rewrite Hnobody.
  destruct (lookup_field (str "error") fields) as [v|] eqn:Hv; [|reflexivity].
  destruct (Herror2 v eq_refl) as [s ->].
  destruct (truthy (Some (JStr s))) eqn:Htruthy; [|reflexivity].
  unfold throw_server_error. cbn [default from_option id ToString obind ocatch].
  change (str "Server error: " ++ s) with (str "Server error" ++ (str ": " ++ s)).
  rewrite includes_app.
  destruct (eqb (str "Server error" ++ str ": " ++ s) []) eqn:Hempty; [|reflexivity].
  apply eqb_eq in Hempty. discriminate.
Qed.

(** A truthy [error] inside the parsed [body] makes the payload throw. *)
Lemma responsePayload_nested_error r data bodyValue bodyData error :
  JSON_parse (text r) = Ret data ->
  get_prop data (str "body") = Ret bodyValue -> truthy bodyValue = true ->
  JSON_parse_value (default JNull bodyValue) = Ret bodyData ->
  get_prop bodyData (str "error") = Ret error -> truthy error = true ->
  exists m, responsePayload r = Throw m.
Proof.
  intros Hparse Hbody Htruthy Hparse2 Herror Htruthy2.
  destruct (ok r) eqn:Hok; [|apply responsePayload_http; exact Hok].
  destruct (get_prop data (str "error")) as [error0|m] eqn:Herror0.
  2: { destruct data; discriminate. }
  destruct (truthy error0) eqn:Htruthy0.
  { eapply responsePayload_error; eassumption. }
  unfold responsePayload. rewrite Hok, Hparse. cbn [negb obind ocatch].
  rewrite Herror0. cbn [obind]. rewrite Htruthy0. cbn [obind].
  unfold unwrapBody. rewrite Hbody. cbn [obind]. rewrite Htruthy, Hparse2.
  cbn [obind]. rewrite Herror. cbn [obind]. rewrite Htruthy2.
  destruct (@throw_server_error_throws _ unit error) as [m ->].
  cbn [obind ocatch].
  destruct (negb (eqb m []) && includes m (str "Server error")); eauto.
Qed.

End Unwrapping.

(** C1 (amended): for a response with a status from 200 to 299 whose
    top-level object has no truthy [error] and holds under [body] a
    non-empty string that parses to an object without a truthy [body] of
    its own and with a string for [error] if it has one, [interpretLines]
    gives what it gives for the response whose text is that string; and a
    truthy [error] at the top level or in the parsed [body] makes every
    unit of the batch hold the same error string. *)
Theorem body_unwrapped_one_level `{Host} setting net codeLines cache :
  let request :=
    Comments.batchRequest codeLines (Comments.getInterpretationLanguage setting) in
  (forall net' r r' outer error bodyText fields,
      net request = Responded r -> net' request = Responded r' ->
      ok r = true -> ok r' = true ->
      JSON_parse (text r) = Ret outer ->
      get_prop outer (str "error") = Ret error -> truthy error = false ->
      get_prop outer (str "body") = Ret (Some (JStr bodyText)) -> bodyText <> [] ->
      text r' = bodyText ->
      JSON_parse bodyText = Ret (JObj fields) ->
      truthy (lookup_field (str "body") fields) = false ->
      (forall v, lookup_field (str "error") fields = Some v -> exists s, v = JStr s) ->
      Comments.interpretLines setting net codeLines cache
      = Comments.interpretLines setting net' codeLines cache)
  /\ (forall r data error,
        (Comments.interpretLines setting net codeLines cache).2 <> [] ->
        net request = Responded r ->
        JSON_parse (text r) = Ret data ->
        get_prop data (str "error") = Ret error -> truthy error = true ->
        exists message,
          reportsError codeLines
            (Comments.interpretLines setting net codeLines cache).1.1 message)
  /\ (forall r data bodyValue bodyData error,
        (Comments.interpretLines setting net codeLines cache).2 <> [] ->
        net request = Responded r ->
        JSON_parse (text r) = Ret data ->
        get_prop data (str "body") = Ret bodyValue -> truthy bodyValue = true ->
        JSON_parse_value (default JNull bodyValue) = Ret bodyData ->
        get_prop bodyData (str "error") = Ret error -> truthy error = true ->
        exists message,
          reportsError codeLines
            (Comments.interpretLines setting net codeLines cache).1.1 message).
Proof.
  intros request. repeat split.
  - intros net' r r' outer error bodyText fields Hnet Hnet' Hok Hok' Hparse Herror
           Hfalsy Hbody Hnonempty Htext Hparse' Hnobody Herror'.
    eapply interpretLines_same_payload; [exact Hnet|exact Hnet'|].
    eapply responsePayload_unwrap; eassumption.
  - intros r data error Hsent Hnet Hparse Herror Htruthy.
    destruct (interpretLines_try_sent setting net codeLines cache Hsent)
      as (st1 & _ & _ & Htry).
    unfold askService in Htry. fold request in Htry. rewrite Hnet in Htry.
    destruct (responsePayload_error r data error Hparse Herror Htruthy) as [m Hm].
    rewrite Hm in Htry. eexists. eapply interpretLines_throw. exact Htry.
  - intros r data bodyValue bodyData error Hsent Hnet Hparse Hbody Htruthy Hparse'
           Herror Htruthy'.
    destruct (interpretLines_try_sent setting net codeLines cache Hsent)
      as (st1 & _ & _ & Htry).
    unfold askService in Htry. fold request in Htry. rewrite Hnet in Htry.
    destruct (responsePayload_nested_error r data bodyValue bodyData error
                Hparse Hbody Htruthy Hparse' Herror Htruthy') as [m Hm].
    rewrite Hm in Htry. eexists. eapply interpretLines_throw. exact Htry.
Qed.

Lemma body_unwrapped_one_level_witness :
  Comments.interpretLines (H := Node.host) None (net200 (wrap declaresX))
    [str "const x = 10;"] ∅
  = Comments.interpretLines (H := Node.host) None (net200 declaresX)
      [str "const x = 10;"] ∅.
Proof.
  eapply (proj1 (body_unwrapped_one_level (H := Node.host) None
                   (net200 (wrap declaresX)) [str "const x = 10;"] ∅)
            (net200 declaresX)).
  - reflexivity.
  - reflexivity.
  - reflexivity.
  - reflexivity.
  - vm_compute. reflexivity.
  - vm_compute. reflexivity.
  - reflexivity.
  - vm_compute. reflexivity.
  - vm_compute. discriminate.
  - reflexivity.
  - vm_compute. reflexivity.
  - reflexivity.
  - intros v Hv. vm_compute in Hv. discriminate.
Defined.

(** C1 as stated fails.  A [body] that holds a wrapped payload is
    unwrapped once and then lacks the explanations, while the same wrapped
    payload sent as the response is unwrapped and accepted; and an [error]
    field holding the empty string does not fail the batch. *)
Lemma body_in_body_and_empty_error :
  (Comments.interpretLines (H := Node.host) None (net200 (wrap (wrap declaresX)))
     [str "const x = 10;"] ∅).1.1 !! Some 0
  = Some (Some (JStr (str "Error: Invalid response format: explanations array not found")))
  /\ (Comments.interpretLines (H := Node.host) None (net200 (wrap declaresX))
       [str "const x = 10;"] ∅).1.1 !! Some 0
     = Some (Some (JStr (str "Declares a constant x with value 10")))
  /\ (Comments.interpretLines (H := Node.host) None
       (net200 (JObj [(str "error", JStr []);
                      (str "explanations",
                       JArr [JObj [(str "lineNumber", JNum 1);
                                   (str "explanation", JStr (str "Declares a constant x with value 10"))]])]))
       [str "const x = 10;"] ∅).1.1 !! Some 0
     = Some (Some (JStr (str "Declares a constant x with value 10"))).
Proof.
  vm_compute. auto.
Qed.

Section CacheReplay.
Context `{Host}.
Variable setting : option jsstring.
Import Comments.

Lemma forEach_enter (f : json -> M call_state unit) items :
  (forall item, item ∈ items ->
     forall st, f item st = (with_result st (enter item (result st)), Ret tt)) ->
  forall st,
    forEach f items st = (with_result st (foldl (flip enter) (result st) items), Ret tt).
Proof.
  induction items as [|item items IH]; intros Hf st; simpl.
  - destruct st; reflexivity.
  - unfold mbind. rewrite Hf by left.
    rewrite IH by (intros; apply Hf; right; assumption).
    reflexivity.
Qed.

Lemma inRange_explanation codeLines item :
  inRange codeLines item -> exists e, get_prop item (str "explanation") = Ret e.
Proof.
  intros (i & Hi & _). destruct item; simpl; eauto.
  unfold lineIndex in Hi. simpl in Hi. discriminate.
Qed.

(** On entries in range the loop of lines 410 to 416 and the loop of
    lines 347 to 349 do the same. *)
Lemma store_item_enter codeLines item st :
  inRange codeLines item ->
  (let* index := lift (lineIndex item) in
   match index with
   | Some i =>
       if (0 <=? i) && (i <? Z.of_nat (length codeLines)) then
         let* explanation := lift (get_prop item (str "explanation")) in
         result_set index explanation
       else mret tt
   | None => mret tt
   end) st
  = (with_result st (enter item (result st)), Ret tt).
Proof.
  intros Hin. destruct (inRange_explanation codeLines item Hin) as [e He].
  destruct Hin as (i & Hi & Hrange).
  unfold mbind, lift, enter. rewrite Hi, He.
  replace ((0 <=? i) && (i <? Z.of_nat (length codeLines))) with true
    by (symmetry; apply andb_true_intro; split; [apply Z.leb_le|apply Z.ltb_lt]; lia).
  reflexivity.
Qed.

Lemma replay_item_enter codeLines item st :
  inRange codeLines item ->
  (let* index := lift (lineIndex item) in
   let* explanation := lift (get_prop item (str "explanation")) in
   result_set index explanation) st
  = (with_result st (enter item (result st)), Ret tt).
Proof.
  intros Hin. destruct (inRange_explanation codeLines item Hin) as [e He].
  destruct Hin as (i & Hi & Hrange).
  unfold mbind, lift, enter. rewrite Hi, He. reflexivity.
Qed.

(** A first call that misses the cache and is answered with explanations
    in range, then a second call. *)
Lemma interpretLines_miss_then_hit net1 net2 codeLines cache r data items :
  let language := getInterpretationLanguage setting in
  let key := cacheKeyOf codeLines language in
  cache !! key = None ->
  net1 (batchRequest codeLines language) = Responded r ->
  responsePayload r = Ret data ->
  get_prop data (str "explanations") = Ret (Some (JArr items)) ->
  Forall (inRange codeLines) items ->
  JSON_stringify data <> [] ->
  JSON_parse (JSON_stringify data) = Ret data ->
  interpretLines setting net1 codeLines cache
  = (foldl (flip enter) ∅ items, <[key := JSON_stringify data]> cache,
     [batchRequest codeLines language])
  /\ interpretLines setting net2 codeLines (<[key := JSON_stringify data]> cache)
     = (foldl (flip enter) ∅ items, <[key := JSON_stringify data]> cache, []).
Proof.
  intros language key Hmiss Hnet Hpayload Hexpl Hrange Hnonempty Hround.
  rewrite Forall_forall in Hrange.
  assert (Hfirst :
            interpretLines_run setting net1 codeLines (initial cache)
            = ({| result := foldl (flip enter) ∅ items;
                  interpretationCache := <[key := JSON_stringify data]> cache;
                  requests := [batchRequest codeLines language] |}, Ret tt)).
  { unfold interpretLines_run, try_catch.
    rewrite interpretLines_try_unfold. cbv zeta. fold language. fold key.
    cbn [initial interpretationCache]. rewrite Hmiss, Hnet, Hpayload.
    unfold storeExplanations, mbind at 1, lift. rewrite Hexpl.
    cbn [truthy isArray andb forEach_value]. unfold mbind at 1.
    rewrite (forEach_enter _ items)
      by (intros item Hitem st; apply store_item_enter, Hrange, Hitem).
    reflexivity. }
  assert (Hsecond :
            interpretLines_run setting net2 codeLines
              (initial (<[key := JSON_stringify data]> cache))
            = ({| result := foldl (flip enter) ∅ items;
                  interpretationCache := <[key := JSON_stringify data]> cache;
                  requests := [] |}, Ret tt)).
  { unfold interpretLines_run, try_catch.
    rewrite interpretLines_try_unfold. cbv zeta. fold language. fold key.
    cbn [initial interpretationCache]. rewrite lookup_insert_eq.
    apply eqb_neq in Hnonempty. rewrite Hnonempty. cbn [negb].
    unfold replayCached, try_catch, mbind at 1, lift. rewrite Hround.
    unfold mbind at 1. rewrite Hexpl. cbn [truthy forEach_value].
    unfold mbind at 1.
    rewrite (forEach_enter _ items)
      by (intros item Hitem st; apply (replay_item_enter codeLines), Hrange, Hitem).
    reflexivity. }
  unfold interpretLines. rewrite Hfirst, Hsecond. split; reflexivity.
Qed.

Lemma frames_quiet {A} (m : M call_state A) : frames m -> quiet m.
Proof. intros Hm st. apply Hm. Qed.

Lemma quiet_mbind {A B} (m : M call_state A) (f : A -> M call_state B) :
  quiet m -> (forall a, quiet (f a)) -> quiet (mbind m f).
Proof.
  intros Hm Hf st. unfold mbind. specialize (Hm st).
  destruct (m st) as [st' [a|msg]]; simpl in *; auto.
  rewrite Hf. exact Hm.
Qed.

Lemma quiet_storeExplanations codeLines key data :
  quiet (storeExplanations codeLines key data).
Proof.
  unfold storeExplanations.
  apply quiet_mbind; [apply frames_quiet, frames_lift|intros explanations].
  destruct (truthy explanations && isArray explanations);
    [|apply frames_quiet, frames_mthrow].
  apply quiet_mbind; [|intros _ st; reflexivity].
  apply frames_quiet, frames_forEach_value. intros item.
  apply frames_mbind; [apply frames_lift|intros [i|]; [|apply frames_mret]].
  destruct ((0 <=? i) && (i <? Z.of_nat (length codeLines))); [|apply frames_mret].
  apply frames_mbind; [apply frames_lift|intros e; apply frames_result_set].
Qed.

(** A call that sends no request has replayed the cache, and so does
    every later call on the same cache. *)
Lemma interpretLines_served net1 net2 codeLines cache :
  (interpretLines setting net1 codeLines cache).2 = [] ->
  (interpretLines setting net1 codeLines cache).1.2 = cache
  /\ interpretLines setting net2 codeLines cache
     = interpretLines setting net1 codeLines cache.
Proof.
  unfold interpretLines, interpretLines_run, try_catch.
  rewrite !interpretLines_try_unfold. cbv zeta.
  set (language := getInterpretationLanguage setting).
  set (key := cacheKeyOf codeLines language).
  assert (Hreplay : exists st1 b,
            match interpretationCache (initial cache) !! key with
            | Some c => if negb (eqb c []) then replayCached c (initial cache)
                        else (initial cache, Ret false)
            | None => (initial cache, Ret false)
            end = (st1, Ret b)
            /\ interpretationCache st1 = cache /\ requests st1 = []).
  { destruct (interpretationCache (initial cache) !! key) as [c|]; [|eauto 6].
    destruct (negb (eqb c [])); [|eauto 6].
    destruct (replayCached_returns c (initial cache)) as (st1 & b & Heq).
    exists st1, b. split; [exact Heq|].
    pose proof (frames_replayCached c (initial cache)) as Hframe.
    rewrite Heq in Hframe. exact Hframe. }
  destruct Hreplay as (st1 & b & -> & Hcache & Hreq).
  destruct b; [intros _; simpl; auto|].
  intros Hquiet. exfalso.
  set (req := batchRequest codeLines language) in *.
  assert (Hsent : forall (o : call_state * outcome unit),
             requests o.1 = requests st1 ++ [req] ->
             requests (match o with
                       | (s', Ret a) => (s', Ret a)
                       | (s', Throw msg) => interpretLines_catch codeLines msg s'
                       end).1 <> []).
  { intros [s' [a|msg]] Ho; simpl in *.
    - rewrite Ho. destruct (requests st1); discriminate.
    - destruct (interpretLines_catch_spec codeLines msg s') as (r' & -> & _).
      simpl. rewrite Ho. destruct (requests st1); discriminate. }
  eapply Hsent; [|exact Hquiet].
  destruct (net1 req) as [msg|r]; [reflexivity|].
  destruct (responsePayload r) as [data|msg]; [|reflexivity].
  rewrite (quiet_storeExplanations codeLines key data). reflexivity.
Qed.

End CacheReplay.

(** C2 (amended): when the first call was itself served from the cache,
    or missed it and was answered with a payload whose explanations all
    carry a line number from 1 to the number of code lines (a payload
    that [JSON.stringify] and [JSON.parse] reproduce), a second call
    with the same lines and language on the cache that the first call
    left sends no request and returns the same map. *)
Theorem second_call_replays_cache `{Host} setting net1 net2 codeLines cache :
  let language := Comments.getInterpretationLanguage setting in
  let first := Comments.interpretLines setting net1 codeLines cache in
  (first.2 = []
   \/ (cache !! Comments.cacheKeyOf codeLines language = None
       /\ exists r data items,
            net1 (Comments.batchRequest codeLines language) = Responded r
            /\ Comments.responsePayload r = Ret data
            /\ get_prop data (str "explanations") = Ret (Some (JArr items))
            /\ Forall (inRange codeLines) items
            /\ JSON_stringify data <> []
            /\ JSON_parse (JSON_stringify data) = Ret data)) ->
  Comments.interpretLines setting net2 codeLines first.1.2 = (first.1.1, first.1.2, []).
Proof.
  intros language first [Hserved|(Hmiss & r & data & items & Hnet & Hpayload & Hexpl
                                   & Hrange & Hnonempty & Hround)].
  - destruct (interpretLines_served setting net1 net2 codeLines cache Hserved)
      as [Hcache Heq].
    fold first in Hcache, Heq. rewrite Hcache, Heq.
    destruct first as [[result1 cache1] requests1]. simpl in *. subst. reflexivity.
  - destruct (interpretLines_miss_then_hit setting net1 net2 codeLines cache r data
                items Hmiss Hnet Hpayload Hexpl Hrange Hnonempty Hround)
      as [Hfirst Hsecond].
    fold language in Hfirst, Hsecond. unfold first. rewrite Hfirst. exact Hsecond.
Qed.

Lemma second_call_replays_cache_witness :
  let first :=
    Comments.interpretLines (H := Node.host) None (net200 declaresX)
      [str "const x = 10;"] ∅ in
  Comments.interpretLines (H := Node.host) None net500 [str "const x = 10;"] first.1.2
  = (first.1.1, first.1.2, []).
Proof.
  apply (second_call_replays_cache (H := Node.host) None (net200 declaresX) net500
           [str "const x = 10;"] ∅).
  right. split; [reflexivity|].
  exists {| status := 200; statusText := str "OK"; text := Node.stringify declaresX |},
         declaresX,
         [JObj [(str "lineNumber", JNum 1);
                (str "explanation", JStr (str "Declares a constant x with value 10"))]].
  split; [reflexivity|].
  split; [vm_compute; reflexivity|].
  split; [reflexivity|].
  split.
  { constructor; [|constructor]. exists 0. split; [reflexivity|]. simpl. lia. }
  split; [vm_compute; discriminate|vm_compute; reflexivity].
Defined.

(** C2 as stated fails.  After a first call that failed, the second call
    sends a request again; and after a first call answered with a line
    number beyond the code lines, which the first call drops, the second
    call returns the entry that the cache replays without the check. *)
Lemma second_call_differs :
  (let first :=
     Comments.interpretLines (H := Node.host) None netDown [str "const x = 10;"] ∅ in
   length (Comments.interpretLines (H := Node.host) None netDown
             [str "const x = 10;"] first.1.2).2 = 1%nat)
  /\ (let first :=
        Comments.interpretLines (H := Node.host) None (net200 lineTwo)
          [str "const x = 10;"] ∅ in
      let second :=
        Comments.interpretLines (H := Node.host) None (net200 lineTwo)
          [str "const x = 10;"] first.1.2 in
      first.1.1 !! Some 1 = None
      /\ second.1.1 !! Some 1 = Some (Some (JStr (str "Returns x")))
      /\ second.2 = []).
Proof.
  vm_compute. auto.
Qed.

(** ** The insertions *)

Lemma insertionLines_app t1 t2 :
  insertionLines (t1 ++ t2) = insertionLines t1 ++ insertionLines t2.
Proof. apply flat_map_app. Qed.

Section Sorting.
Import Comments.

Lemma elem_of_insertDescending z x l :
  z ∈ insertDescending x l <-> z = x \/ z ∈ l.
Proof.
  induction l as [|y l IH]; simpl.
  - set_solver.
  - destruct (y <? x); rewrite !elem_of_cons; [tauto|].
    rewrite IH. tauto.
Qed.

Lemma insertDescending_sorted x l :
  StronglySorted Z.gt l -> x ∉ l -> StronglySorted Z.gt (insertDescending x l).
Proof.
  induction l as [|y l IH]; intros Hsorted Hx; simpl.
  - repeat constructor.
  - apply StronglySorted_inv in Hsorted as [Hl Hy].
    apply not_elem_of_cons in Hx as [Hxy Hxl].
    destruct (y <? x) eqn:Hlt.
    + apply Z.ltb_lt in Hlt. constructor; [constructor; assumption|].
      constructor; [lia|].
      eapply Forall_impl; [exact Hy|]. simpl. intros; lia.
    + apply Z.ltb_ge in Hlt. constructor; [auto|].
      apply Forall_forall. intros z Hz.
      apply elem_of_insertDescending in Hz as [->|Hz]; [lia|].
      rewrite Forall_forall in Hy. apply Hy, Hz.
Qed.

Lemma elem_of_sortDescending z l : z ∈ sortDescending l <-> z ∈ l.
Proof.
  unfold sortDescending. induction l as [|x l IH]; simpl; [tauto|].
  rewrite elem_of_insertDescending, elem_of_cons, IH. tauto.
Qed.

Lemma sortDescending_sorted l : NoDup l -> StronglySorted Z.gt (sortDescending l).
Proof.
  unfold sortDescending. induction 1 as [|x l Hx Hl IH]; simpl; [constructor|].
  apply insertDescending_sorted; [exact IH|].
  intros Hin. apply Hx. apply (elem_of_sortDescending x l). exact Hin.
Qed.

Lemma StronglySorted_gt_filter (P : Z -> bool) l :
  StronglySorted Z.gt l -> StronglySorted Z.gt (List.filter P l).
Proof.
  induction 1 as [|x l Hl IH Hx]; simpl; [constructor|].
  destruct (P x); [|exact IH]. constructor; [exact IH|].
  apply Forall_forall. intros z Hz. rewrite Forall_forall in Hx. apply Hx.
  apply list_elem_of_In. apply list_elem_of_In in Hz.
  apply filter_In in Hz. tauto.
Qed.

Lemma StronglySorted_gt_succ l :
  StronglySorted Z.gt l -> StronglySorted Z.gt (map (fun k => k + 1) l).
Proof.
  induction 1 as [|x l Hl IH Hx]; simpl; [constructor|].
  constructor; [exact IH|].
  apply Forall_map. eapply Forall_impl; [exact Hx|]. simpl. intros; lia.
Qed.

End Sorting.

Section InsertCommentsFacts.
Context `{Host}.
Import Comments.

Lemma deleteExplanationLines_spec deleteLine rest st :
  exists st',
    deleteExplanationLines deleteLine rest st = (st', Ret tt)
    /\ insertionLines (edits st') = insertionLines (edits st).
Proof.
  revert deleteLine st. induction rest as [|existingLine rest IH]; intros deleteLine st.
  - simpl. eauto.
  - simpl. destruct (isComment existingLine); [|eexists; split; reflexivity].
    unfold mbind, addEdit at 1, modify.
    destruct (IH (deleteLine + 1)
                {| insertedComments := insertedComments st;
                   edits := edits st ++ [Delete deleteLine] |}) as (st' & -> & Hst').
    exists st'. split; [reflexivity|]. rewrite Hst'. simpl.
    rewrite insertionLines_app. simpl. apply app_nil_r.
Qed.

Lemma deleteInserted_spec document lineNumber st :
  insertionLines (edits (deleteInserted document lineNumber st).1)
  = insertionLines (edits st).
Proof.
  unfold deleteInserted, mbind, insertedSet_has, gets.
  destruct (bool_decide _); [|reflexivity].
  destruct (lineNumber + 1 <? lineCount document); [|reflexivity].
  unfold lift. destruct (lineAt document (lineNumber + 1)); [|reflexivity].
  destruct (deleteExplanationLines_spec (lineNumber + 1)
              (drop (Z.to_nat (lineNumber + 1)) (lines document)) st)
    as (st' & -> & Hst').
  exact Hst'.
Qed.

(** One turn of the loop inserts at most one comment, below its line. *)
Lemma insertComment_spec document explanations lineNumber st st' :
  insertComment document explanations lineNumber st = (st', Ret tt) ->
  insertionLines (edits st')
  = insertionLines (edits st)
    ++ (if truthy (default undefined (explanations !! lineNumber))
        then [lineNumber + 1] else []).
Proof.
  unfold insertComment.
  destruct (truthy (default undefined (explanations !! lineNumber))) eqn:Htruthy.
  - cbn [negb]. unfold mbind at 1.
    pose proof (deleteInserted_spec document lineNumber st) as Hdelete.
    destruct (deleteInserted document lineNumber st) as [st1 [[]|msg]];
      [|discriminate].
    simpl in Hdelete. unfold mbind at 1, lift.
    destruct (lineAt document lineNumber) as [codeLineText|msg]; [|discriminate].
    unfold mbind at 1.
    destruct (default undefined (explanations !! lineNumber)) as [[| | |s| |]|];
      try discriminate.
    unfold mret, mbind, addEdit, insertedSet_add, modify.
    intros [= <-]. simpl. rewrite insertionLines_app, Hdelete. reflexivity.
  - cbn [negb]. unfold mret. intros [= <-]. symmetry. apply app_nil_r.
Qed.

Lemma forEach_insertComment_spec document explanations l st st' :
  forEach (insertComment document explanations) l st = (st', Ret tt) ->
  insertionLines (edits st')
  = insertionLines (edits st)
    ++ map (fun k => k + 1)
         (List.filter (fun k => truthy (default undefined (explanations !! k))) l).
Proof.
  revert st. induction l as [|k l IH]; intros st; simpl.
  - unfold mret. intros [= <-]. symmetry. apply app_nil_r.
  - unfold mbind.
    destruct (insertComment document explanations k st) as [st1 [[]|msg]] eqn:Hk;
      [|discriminate].
    intros Hl. apply IH in Hl. rewrite Hl.
    rewrite (insertComment_spec _ _ _ _ _ Hk), <- app_assoc.
    destruct (truthy (default undefined (explanations !! k))); reflexivity.
Qed.

End InsertCommentsFacts.

(** C5: the comment insertions of one call of
    [insertCommentsAsExplanations] are handed to [editor.edit] in one
    transaction, in strictly descending order of line, one below every
    line that has an explanation. *)
Theorem comments_inserted_in_descending_order `{Host}
    editor document explanations inserted inserted' transaction :
  Comments.insertCommentsAsExplanations (Some editor) document explanations inserted
  = (inserted', Ret (Some transaction)) ->
  StronglySorted Z.gt (insertionLines transaction)
  /\ (forall k, k + 1 ∈ insertionLines transaction
                <-> truthy (default undefined (explanations !! k)) = true).
Proof.
  unfold Comments.insertCommentsAsExplanations.
  destruct (negb (eqb (uri (Editor.document editor)) (uri document)));
    [discriminate|].
  match goal with
  | |- context [forEach ?f ?l ?st] => destruct (forEach f l st) as [st' [[]|msg]] eqn:Hloop
  end; [|discriminate].
  intros [= <- <-].
  apply forEach_insertComment_spec in Hloop. simpl in Hloop. rewrite Hloop.
  split.
  - apply StronglySorted_gt_succ, StronglySorted_gt_filter, sortDescending_sorted.
    apply (NoDup_fst_map_to_list explanations).
  - intros k. rewrite list_elem_of_In, in_map_iff. split.
    + intros (k' & Hk' & Hin). assert (k' = k) as -> by lia.
      apply filter_In in Hin. tauto.
    + intros Htruthy. exists k. split; [reflexivity|].
      apply filter_In. split; [|exact Htruthy].
      apply list_elem_of_In, elem_of_sortDescending.
      destruct (explanations !! k) as [v|] eqn:Hv; [|discriminate].
      apply (list_elem_of_fmap_2' fst _ (k, v)); [|reflexivity].
      apply elem_of_map_to_list. exact Hv.
Qed.

Lemma comments_inserted_in_descending_order_witness :
  let transaction :=
    [Insert {| line := 2; character := 0 |}
       (Comments.getCommentPrefix (str "javascript") ++ str "Returns x" ++ [10%N]);
     Insert {| line := 1; character := 0 |}
       (Comments.getCommentPrefix (str "javascript") ++ str "Declares x" ++ [10%N])] in
  StronglySorted Z.gt (insertionLines transaction)
  /\ (forall k, k + 1 ∈ insertionLines transaction
                <-> truthy (default undefined (twoExplanations !! k)) = true).
Proof.
  apply (comments_inserted_in_descending_order (H := Node.host)
           twoLinesEditor twoLines twoExplanations ∅
           (Comments.insertCommentsAsExplanations (H := Node.host)
              (Some twoLinesEditor) twoLines twoExplanations ∅).1).
  vm_compute. reflexivity.
Defined.

(** C10: without an active editor, or when the active editor shows
    another document, [insertCommentsAsExplanations] calls no edit and
    leaves [insertedComments] as it was. *)
Theorem insertComments_needs_active_document `{Host}
    activeTextEditor document explanations inserted :
  (activeTextEditor = None
   \/ exists editor,
        activeTextEditor = Some editor
        /\ uri (Editor.document editor) <> uri document) ->
  Comments.insertCommentsAsExplanations activeTextEditor document explanations inserted
  = (inserted, Ret None).
Proof.
  intros [->|(editor & -> & Huri)]; [reflexivity|].
  unfold Comments.insertCommentsAsExplanations.
  apply eqb_neq in Huri. rewrite Huri. reflexivity.
Qed.

Lemma insertComments_needs_active_document_witness :
  Comments.insertCommentsAsExplanations (H := Node.host) (Some twoLinesEditor)
    otherDocument {[ 0 := Some (JStr (str "Declares y")) ]} {[ str "file:///b.js" := {[ 0 ]} ]}
  = ({[ str "file:///b.js" := {[ 0 ]} ]}, Ret None).
Proof.
  apply (insertComments_needs_active_document (H := Node.host)).
  right. exists twoLinesEditor. split; [reflexivity|]. vm_compute. discriminate.
Defined.

(** ** Words *)






(** ** The text that [cleanExplanation] leaves *)


Lemma collapseWhiteSpace_from_spec inws s :
  single (collapseWhiteSpace_from inws s)
  /\ onlySpaces (collapseWhiteSpace_from inws s)
  /\ (inws = true -> forall c t, collapseWhiteSpace_from inws s = c :: t -> c <> 32%N).
Proof.
  revert inws. induction s as [|c s IH]; intros inws; simpl.
  - repeat split; [constructor|discriminate].
  - destruct (isWhiteSpace c) eqn:Hc.
    + destruct inws.
      * apply IH.
      * destruct (IH true) as (Hs & Ho & Hh). repeat split.
        -- destruct (collapseWhiteSpace_from true s) eqn:Ht; [exact I|].
           intros [_ ->]. eapply Hh; reflexivity.
        -- exact Hs.
        -- constructor; [reflexivity|exact Ho].
        -- discriminate.
    + destruct (IH false) as (Hs & Ho & _). repeat split.
      * destruct (collapseWhiteSpace_from false s); [exact I|].
        intros [-> _]. discriminate.
      * exact Hs.
      * constructor; [congruence|exact Ho].
      * intros _ c' t [= <- _]. intros ->. discriminate.
Qed.

Lemma trimStart_spec l :
  (exists ws, l = ws ++ trimStart l)
  /\ (forall c t, trimStart l = c :: t -> isWhiteSpace c = false).
Proof.
  induction l as [|a l [[ws Hws] Hhead]]; simpl.
  - split; [exists []; reflexivity|discriminate].
  - destruct (isWhiteSpace a) eqn:Ha.
    + split; [exists (a :: ws); simpl; congruence|exact Hhead].
    + split; [exists []; reflexivity|]. intros c t [= <- _]. exact Ha.
Qed.

Lemma trimEnd_spec l :
  (exists ws, l = trimEnd l ++ ws)
  /\ (forall c, last (trimEnd l) = Some c -> isWhiteSpace c = false).
Proof.
  unfold trimEnd. destruct (trimStart_spec (rev l)) as [[ws Hws] Hhead]. split.
  - exists (rev ws). rewrite <- rev_app_distr, <- Hws, rev_involutive. reflexivity.
  - intros c Hc. destruct (trimStart (rev l)) as [|d t] eqn:Ht; [discriminate|].
    simpl in Hc. rewrite last_snoc in Hc. injection Hc as <-.
    eapply Hhead. reflexivity.
Qed.

(** The trimmed text is a segment of the text, and neither begins nor
    ends with white space. *)
Lemma trim_spec l :
  (exists ws1 ws2, l = ws1 ++ trim l ++ ws2)
  /\ (forall c t, trim l = c :: t -> isWhiteSpace c = false)
  /\ (forall c, last (trim l) = Some c -> isWhiteSpace c = false).
Proof.
  unfold trim. destruct (trimStart_spec l) as [[ws1 H1] Hhead].
  destruct (trimEnd_spec (trimStart l)) as [[ws2 H2] Hlast].
  repeat split.
  - exists ws1, ws2. rewrite <- H2. exact H1.
  - intros c t Ht. rewrite Ht in H2. eapply Hhead. rewrite H2. reflexivity.
  - exact Hlast.
Qed.



(** ** Wrapping *)

Section WrapFacts.
Variables indent commentPrefix commentSuffix : jsstring.
Import Comments.




End WrapFacts.

(** ** What the replacements leave *)





Lemma elem_of_trim l c : c ∈ trim l -> c ∈ l.
Proof.
  destruct (trim_spec l) as ((ws1 & ws2 & Hseg) & _). intros Hc.
  rewrite Hseg, !elem_of_app. auto.
Qed.


(** ** The phrases and markers that the cleaning removes *)
























(** ** The selection *)

Lemma collectCodeLines_spec document selected units :
  Comments.collectCodeLines document selected = Ret units ->
  map Comments.lineNumber units = List.filter (isCodeLineAt document) selected
  /\ Forall (fun unit =>
               exists text,
                 lineAt document (Comments.lineNumber unit) = Ret text
                 /\ Comments.code unit = trim text
                 /\ Comments.isCodeLine (trim text) = true) units.
Proof.
  revert units. induction selected as [|i selected IH]; intros units; simpl.
  - intros [= <-]. split; [reflexivity|constructor].
  - unfold isCodeLineAt at 1.
    destruct (lineAt document i) as [text|msg] eqn:Hline; [|discriminate].
    cbn [obind].
    destruct (Comments.collectCodeLines document selected) as [rest|msg];
      [|discriminate].
    cbn [obind]. destruct (IH rest eq_refl) as [Hmap Hall].
    destruct (Comments.isCodeLine (trim text)) eqn:Hcode; intros [= <-].
    + simpl. rewrite Hmap. split; [reflexivity|].
      constructor; [|exact Hall]. exists text. auto.
    + auto.
Qed.

(** The units that [interpretSelectedLines] sends: the selected lines
    that are code lines, all of them. *)
Lemma interpretSelectedLines_lines_spec editor units :
  Comments.interpretSelectedLines_lines (Some editor) = Ret (Some units) ->
  map Comments.lineNumber units
  = List.filter (isCodeLineAt (Editor.document editor))
      (Comments.selectedLines (Editor.selections editor))
  /\ Forall (fun unit =>
               exists text,
                 lineAt (Editor.document editor) (Comments.lineNumber unit) = Ret text
                 /\ Comments.code unit = trim text
                 /\ Comments.isCodeLine (trim text) = true) units.
Proof.
  unfold Comments.interpretSelectedLines_lines.
  destruct (_ || _); [discriminate|].
  destruct (Comments.collectCodeLines _ _) as [lines|msg] eqn:Hcollect;
    [|discriminate].
  cbn [obind]. destruct (length lines =? 0)%nat; [discriminate|].
  intros [= <-]. apply collectCodeLines_spec. exact Hcollect.
Qed.

(** ** The hints *)

Section HintsFacts.
Context `{Host}.
Variable setting : option jsstring.
Variable net : network.
Import Hints.

Lemma interpretLine_returns codeLine lineNumber st :
  exists st' explanation,
    interpretLine setting net codeLine lineNumber st = (st', Ret explanation).
Proof.
  unfold interpretLine, try_catch.
  match goal with |- context [match ?m st with _ => _ end] =>
    destruct (m st) as [st' [e|msg]] end; eauto.
Qed.

(** A line that is not skipped always receives an explanation. *)
Lemma explanationFor_returns documentUri i lineText st :
  exists st' explanation,
    explanationFor setting net documentUri i lineText st = (st', Ret (Some explanation)).
Proof.
  unfold explanationFor, mbind at 1, cache_get, gets.
  destruct (interpretationCache st !! _) as [cached|] eqn:Hcached.
  - destruct (truthy (Some cached)) eqn:Htruthy; cbn [negb].
    + unfold mret. eauto.
    + unfold try_catch, mbind.
      destruct (interpretLine_returns lineText (i + 1) st) as (st' & e & ->).
      unfold cache_set, modify, mret. eauto.
  - cbn [truthy negb]. unfold try_catch, mbind.
    destruct (interpretLine_returns lineText (i + 1) st) as (st' & e & ->).
    unfold cache_set, modify, mret. eauto.
Qed.

(** The hints that the loop adds from line [i] on. *)
Lemma hintsFrom_spec documentUri rest :
  forall i hints st st' hints',
    0 <= i ->
    hintsFrom setting net documentUri i rest hints st = (st', Ret hints') ->
    exists new,
      hints' = hints ++ new
      /\ Forall (fun hint =>
                   i <= hintLine hint < 100
                   /\ exists text,
                        rest !! Z.to_nat (hintLine hint - i) = Some text
                        /\ isSkipped (trim text) = false) new
      /\ StronglySorted Z.lt (map hintLine new)
      /\ (forall (j : nat) text,
            rest !! j = Some text -> i + Z.of_nat j < 100 ->
            isSkipped (trim text) = false ->
            i + Z.of_nat j ∈ map hintLine new).
Proof.
  induction rest as [|lineText0 rest IH]; intros i hints st st' hints' Hi.
  - simpl. intros [= <- <-]. exists []. rewrite app_nil_r.
    split_and!; [reflexivity|constructor|constructor|].
    intros j text Hj. destruct j; discriminate.
  - cbn [hintsFrom].
    assert (Hshift : forall new,
              Forall (fun hint =>
                        i + 1 <= hintLine hint < 100
                        /\ exists text,
                             rest !! Z.to_nat (hintLine hint - (i + 1)) = Some text
                             /\ isSkipped (trim text) = false) new ->
              Forall (fun hint =>
                        i <= hintLine hint < 100
                        /\ exists text,
                             (lineText0 :: rest) !! Z.to_nat (hintLine hint - i) = Some text
                             /\ isSkipped (trim text) = false) new).
    { intros new Hnew. eapply Forall_impl; [exact Hnew|].
      intros hint [Hrange (text & Htext & Hskip)].
      split; [lia|]. exists text. split; [|exact Hskip].
      replace (Z.to_nat (hintLine hint - i)) with (S (Z.to_nat (hintLine hint - (i + 1))))
        by lia.
      exact Htext. }
    destruct (i <? 100) eqn:Hcap.
    2: { unfold mret. intros [= <- <-]. exists []. rewrite app_nil_r.
         apply Z.ltb_ge in Hcap.
         split_and!; [reflexivity|constructor|constructor|].
         intros j text _ Hj. lia. }
    apply Z.ltb_lt in Hcap.
    destruct (isSkipped (trim lineText0)) eqn:Hskip.
    + intros Hloop. apply IH in Hloop as (new & -> & Hall & Hsorted & Hcomplete); [|lia].
      exists new. split_and!; [reflexivity|apply Hshift, Hall|exact Hsorted|].
      intros [|j] text Hj Hlt Hnot.
      * simpl in Hj. injection Hj as <-. congruence.
      * simpl in Hj. replace (i + Z.of_nat (S j)) with (i + 1 + Z.of_nat j) by lia.
        apply (Hcomplete j text); [exact Hj|lia|exact Hnot].
    + unfold mbind at 1.
      destruct (explanationFor_returns documentUri i (trim lineText0) st)
        as (st1 & explanation & ->).
      unfold mbind at 1, lift.
      destruct (ToString explanation) as [text|msg]; [|discriminate].
      intros Hloop. apply IH in Hloop as (new & -> & Hall & Hsorted & Hcomplete); [|lia].
      rewrite <- app_assoc. eexists. split; [reflexivity|].
      cbn [app]. split_and!.
      * constructor; [|apply Hshift, Hall].
        unfold hintLine. cbn [position line]. split; [lia|].
        exists lineText0. rewrite Z.sub_diag. split; [reflexivity|exact Hskip].
      * cbn [map]. constructor; [exact Hsorted|].
        apply Forall_map. eapply Forall_impl; [exact Hall|].
        intros hint [Hrange _]. unfold hintLine at 1. cbn [position line]. lia.
      * intros [|j] text' Hj Hlt Hnot.
        -- cbn [map]. apply elem_of_cons. left.
           unfold hintLine. cbn [position line]. lia.
        -- cbn [map]. apply elem_of_cons. right. simpl in Hj.
           replace (i + Z.of_nat (S j)) with (i + 1 + Z.of_nat j) by lia.
           apply (Hcomplete j text'); [exact Hj|lia|exact Hnot].
Qed.

Lemma provideInlayHints_spec document st st' hints :
  provideInlayHints setting net document st = (st', Ret hints) ->
  Forall (fun hint =>
            0 <= hintLine hint < 100
            /\ exists text,
                 lines document !! Z.to_nat (hintLine hint) = Some text
                 /\ isSkipped (trim text) = false) hints
  /\ StronglySorted Z.lt (map hintLine hints).
Proof.
  unfold provideInlayHints, mbind, gets.
  destruct (isAutoInterpretEnabled st); cbn [negb].
  - intros Hloop. apply hintsFrom_spec in Hloop as (new & -> & Hall & Hsorted & _);
      [|lia].
    split; [|exact Hsorted].
    eapply Forall_impl; [exact Hall|]. intros hint [Hrange (text & Htext & Hskip)].
    split; [exact Hrange|]. exists text. rewrite Z.sub_0_r in Htext. auto.
  - unfold mret. intros [= <- <-]. split; constructor.
Qed.

End HintsFacts.

(** ** Membership in the selected lines *)

Lemma elem_of_foldl_addLine i l set :
  i ∈ foldl Comments.addLine set l <-> i ∈ set \/ i ∈ l.
Proof.
  revert set. induction l as [|k l IH]; intros set; simpl.
  - split; [auto|]. intros [Hi|Hi]; [exact Hi|inversion Hi].
  - rewrite IH. unfold Comments.addLine. rewrite elem_of_cons.
    destruct (bool_decide (k ∈ set)) eqn:Hk.
    + apply bool_decide_eq_true in Hk. intuition (subst; auto).
    + rewrite elem_of_app, list_elem_of_singleton. tauto.
Qed.

Lemma elem_of_selectedLines i selections :
  i ∈ Comments.selectedLines selections
  <-> exists selection,
        selection ∈ selections
        /\ line (start selection) <= i <= line (end_ selection).
Proof.
  unfold Comments.selectedLines.
  assert (Hgen : forall set,
             i ∈ foldl (fun set selection =>
                          foldl Comments.addLine set
                            (seqZ (line (start selection))
                               (line (end_ selection) - line (start selection) + 1)))
                       set selections
             <-> i ∈ set
                 \/ exists selection,
                      selection ∈ selections
                      /\ line (start selection) <= i <= line (end_ selection)).
  { induction selections as [|s selections IH]; intros set; simpl.
    - split; [auto|]. intros [Hi|(s & Hs & _)]; [exact Hi|inversion Hs].
    - rewrite IH, elem_of_foldl_addLine, elem_of_seqZ. split.
      + intros [[Hi|Hi]|(s' & Hs' & Hi)].
        * auto.
        * right. exists s. split; [left|lia].
        * right. exists s'. split; [right; exact Hs'|exact Hi].
      + intros [Hi|(s' & Hs' & Hi)]; [auto|].
        apply elem_of_cons in Hs' as [->|Hs'].
        * left. right. lia.
        * right. exists s'. auto. }
  rewrite Hgen. split; [intros [Hi|Hi]; [inversion Hi|exact Hi]|auto].
Qed.

Lemma isCodeLine_not_comment text :
  Comments.isCodeLine (trim text) = true -> ~ blankOrComment selectionMarkers text.
Proof.
  unfold Comments.isCodeLine. rewrite !andb_true_iff, !negb_true_iff.
  intros ((((((Hblank & H1) & H2) & H3) & H4) & H5) & H6) [Hempty|(marker & Hin & Hstart)].
  - apply eqb_neq in Hblank. contradiction.
  - unfold selectionMarkers in Hin. rewrite !elem_of_cons in Hin.
    destruct Hin as [->|[->|[->|[->|[->|[->|Hin]]]]]]; try congruence.
    inversion Hin.
Qed.

Lemma isSkipped_not_comment text :
  Hints.isSkipped (trim text) = false -> ~ blankOrComment hintMarkers text.
Proof.
  unfold Hints.isSkipped. rewrite !orb_false_iff.
  intros (((Hblank & H1) & H2) & H3) [Hempty|(marker & Hin & Hstart)].
  - apply eqb_neq in Hblank. contradiction.
  - unfold hintMarkers in Hin. rewrite !elem_of_cons in Hin.
    destruct Hin as [->|[->|[->|Hin]]]; try congruence.
    inversion Hin.
Qed.

(** C4 (amended): a line that is blank or whose trimmed text starts with
    one of the six markers is not among the units of
    [interpretSelectedLines]; a line that is blank or whose trimmed text
    starts with one of the three markers [//], [/*] and [*] receives no
    hint from [provideInlayHints]. *)
Theorem comment_lines_are_not_units `{Host} setting net :
  (forall editor units i text,
      Comments.interpretSelectedLines_lines (Some editor) = Ret (Some units) ->
      lineAt (Editor.document editor) i = Ret text ->
      blankOrComment selectionMarkers text ->
      i ∉ map Comments.lineNumber units)
  /\ (forall document st st' hints i text,
        Hints.provideInlayHints setting net document st = (st', Ret hints) ->
        0 <= i ->
        lines document !! Z.to_nat i = Some text ->
        blankOrComment hintMarkers text ->
        i ∉ map hintLine hints).
Proof.
  split.
  - intros editor units i text Hunits Hline Hcomment Hin.
    apply interpretSelectedLines_lines_spec in Hunits as [_ Hall].
    apply list_elem_of_In, in_map_iff in Hin as (unit & <- & Hin).
    rewrite Forall_forall in Hall.
    destruct (Hall unit) as (text' & Hline' & _ & Hcode);
      [apply list_elem_of_In; exact Hin|].
    rewrite Hline in Hline'. injection Hline' as <-.
    exact (isCodeLine_not_comment text Hcode Hcomment).
  - intros document st st' hints i text Hhints Hi Hline Hcomment Hin.
    apply provideInlayHints_spec in Hhints as [Hall _].
    apply list_elem_of_In, in_map_iff in Hin as (hint & <- & Hin).
    rewrite Forall_forall in Hall.
    destruct (Hall hint) as (_ & text' & Hline' & Hskip);
      [apply list_elem_of_In; exact Hin|].
    rewrite Hline in Hline'. injection Hline' as <-.
    exact (isSkipped_not_comment text Hskip Hcomment).
Qed.

(** C7: [provideInlayHints] gives hints for lines among the first 100
    only, in ascending order of line; [interpretSelectedLines] takes
    every code line that a selection covers, whatever its number. *)
Theorem auto_interpret_stops_at_100_lines `{Host} setting net :
  (forall document st st' hints,
      Hints.provideInlayHints setting net document st = (st', Ret hints) ->
      Forall (fun hint => 0 <= hintLine hint < 100) hints
      /\ StronglySorted Z.lt (map hintLine hints))
  /\ (forall editor units,
        Comments.interpretSelectedLines_lines (Some editor) = Ret (Some units) ->
        forall i,
          i ∈ map Comments.lineNumber units
          <-> (exists selection,
                 selection ∈ Editor.selections editor
                 /\ line (start selection) <= i <= line (end_ selection))
              /\ isCodeLineAt (Editor.document editor) i = true).
Proof.
  split.
  - intros document st st' hints Hhints.
    apply provideInlayHints_spec in Hhints as [Hall Hsorted].
    split; [|exact Hsorted].
    eapply Forall_impl; [exact Hall|]. intros hint [Hrange _]. exact Hrange.
  - intros editor units Hunits i.
    apply interpretSelectedLines_lines_spec in Hunits as [-> _].
    rewrite list_elem_of_In, filter_In, <- list_elem_of_In, elem_of_selectedLines.
    reflexivity.
Qed.

Lemma hintsOf_ret (r : Hints.hint_state * outcome (list Hints.InlayHint)) hints :
  r.2 = Ret hints -> r = (r.1, Ret hints).
Proof. destruct r; simpl; intros ->; reflexivity. Qed.

Lemma comment_lines_are_not_units_witness :
  (1 ∉ map Comments.lineNumber
         [{| Comments.lineNumber := 0; Comments.code := str "x = 10" |};
          {| Comments.lineNumber := 4; Comments.code := str "print(x)" |}])
  /\ (3 ∉ map hintLine
            (hintsOf (Hints.provideInlayHints (H := Node.host) None netExplains
                        pythonLines autoInterpreting))).
Proof.
  split.
  - apply (proj1 (comment_lines_are_not_units (H := Node.host) None netExplains)
             pythonEditor _ 1 (str "  # the answer")).
    + vm_compute. reflexivity.
    + reflexivity.
    + right. exists (str "#"). split; [|reflexivity].
      unfold selectionMarkers. rewrite !elem_of_cons. auto.
  - apply (proj2 (comment_lines_are_not_units (H := Node.host) None netExplains)
             pythonLines autoInterpreting
             (Hints.provideInlayHints (H := Node.host) None netExplains
                pythonLines autoInterpreting).1 _ 3 (str "// c")).
    + apply hintsOf_ret. vm_compute. reflexivity.
    + lia.
    + reflexivity.
    + right. exists (str "//"). split; [|reflexivity].
      unfold hintMarkers. rewrite !elem_of_cons. auto.
Defined.

(** C4 as stated fails: [provideInlayHints] gives a hint to line 1,
    whose trimmed text starts with a number sign. *)
Lemma hint_on_hash_comment :
  map hintLine
    (hintsOf (Hints.provideInlayHints (H := Node.host) None netExplains
                pythonLines autoInterpreting))
  = [0; 1; 4]
  /\ lines pythonLines !! 1%nat = Some (str "  # the answer")
  /\ startsWith (trim (str "  # the answer")) (str "#") = true.
Proof.
  vm_compute. auto.
Qed.

Lemma auto_interpret_stops_at_100_lines_witness :
  (Forall (fun hint => 0 <= hintLine hint < 100)
     (hintsOf (Hints.provideInlayHints (H := Node.host) None netExplains
                 manyLines autoInterpreting))
   /\ StronglySorted Z.lt
        (map hintLine
           (hintsOf (Hints.provideInlayHints (H := Node.host) None netExplains
                       manyLines autoInterpreting))))
  /\ (101 ∈ map Comments.lineNumber
              (unitsOf (Comments.interpretSelectedLines_lines (Some manyLinesEditor)))).
Proof.
  split.
  - apply (proj1 (auto_interpret_stops_at_100_lines (H := Node.host) None netExplains)
             manyLines autoInterpreting
             (Hints.provideInlayHints (H := Node.host) None netExplains
                manyLines autoInterpreting).1).
    apply hintsOf_ret. vm_compute. reflexivity.
  - apply (proj2 (auto_interpret_stops_at_100_lines (H := Node.host) None netExplains)
             manyLinesEditor).
    + vm_compute. reflexivity.
    + split; [|reflexivity].
      eexists. split; [left|]. simpl. lia.
Defined.

(** ** Braces *)

Lemma inside_app d u1 u2 :
  inside d (u1 ++ u2) <-> inside d u1 /\ inside (depthAfter d u1) u2.
Proof.
  revert d. induction u1 as [|c u1 IH]; intros d; simpl; [tauto|].
  destruct (c =? Blocks.openBrace)%N; [rewrite IH; tauto|].
  destruct (c =? Blocks.closeBrace)%N; [rewrite IH; tauto|apply IH].
Qed.

Lemma depthAfter_app d u1 u2 :
  depthAfter d (u1 ++ u2) = depthAfter (depthAfter d u1) u2.
Proof.
  revert d. induction u1 as [|c u1 IH]; intros d; simpl; [reflexivity|].
  destruct (c =? Blocks.openBrace)%N; [apply IH|].
  destruct (c =? Blocks.closeBrace)%N; apply IH.
Qed.

Lemma balanced_inside w :
  balanced w -> forall d, 1 <= d -> inside d w /\ depthAfter d w = d.
Proof.
  induction 1 as [|w1 w2 _ IH1 _ IH2]; intros d Hd; [simpl; auto|].
  cbn [inside depthAfter]. rewrite N.eqb_refl.
  destruct (IH1 (d + 1)) as [Hin1 Hd1]; [lia|].
  destruct (IH2 d Hd) as [Hin2 Hd2].
  rewrite inside_app, depthAfter_app, Hd1. cbn [inside depthAfter].
  change (Blocks.closeBrace =? Blocks.openBrace)%N with false.
  rewrite N.eqb_refl. replace (d + 1 - 1) with d by lia.
  split; [|exact Hd2]. split; [lia|]. split; [exact Hin1|]. split; [lia|exact Hin2].
Qed.

(** ** The scan *)

Section ScanFacts.
Variable lines : list jsstring.
Import Blocks.

Lemma scanChar_other i flag st c : isBrace c = false -> scanChar lines i flag st c = st.
Proof.
  unfold isBrace, scanChar. intros Hc. apply orb_false_iff in Hc as [-> ->].
  reflexivity.
Qed.

(** Only the braces of a line change the state. *)
Lemma foldl_scanChar_filter i flag cs st :
  foldl (scanChar lines i flag) st cs
  = foldl (scanChar lines i flag) st (List.filter isBrace cs).
Proof.
  revert st. induction cs as [|c cs IH]; intros st; simpl; [reflexivity|].
  destruct (isBrace c) eqn:Hc; simpl; [apply IH|].
  rewrite scanChar_other by exact Hc. apply IH.
Qed.

(** Braces read inside a block change the depth only. *)
Lemma foldl_scanChar_inside i flag u st :
  inside (braceDepth st) u ->
  foldl (scanChar lines i flag) st u
  = {| braceDepth := depthAfter (braceDepth st) u;
       blockStart := blockStart st; blocks := blocks st |}.
Proof.
  revert st. induction u as [|c u IH]; intros st; simpl.
  - intros _. destruct st; reflexivity.
  - unfold scanChar at 2.
    destruct (c =? openBrace)%N.
    + intros [Hd Hin]. rewrite IH by exact Hin. simpl.
      replace (braceDepth st =? 0) with false by (symmetry; apply Z.eqb_neq; lia).
      reflexivity.
    + destruct (c =? closeBrace)%N.
      * intros [Hd Hin].
        replace (braceDepth st - 1 =? 0) with false by (symmetry; apply Z.eqb_neq; lia).
        cbn [andb]. rewrite IH by exact Hin. reflexivity.
      * intros Hin. apply IH. exact Hin.
Qed.

Lemma scanLine_inside i line st :
  inside (braceDepth st) (braces [line]) ->
  scanLine lines i line st
  = {| braceDepth := depthAfter (braceDepth st) (braces [line]);
       blockStart := blockStart st; blocks := blocks st |}.
Proof.
  unfold braces, scanLine. cbn [flat_map]. rewrite app_nil_r.
  destruct (isSkipped (trim line)).
  - intros _. destruct st; reflexivity.
  - intros Hin. rewrite foldl_scanChar_filter. apply foldl_scanChar_inside. exact Hin.
Qed.

Lemma braces_cons line ls : braces (line :: ls) = braces [line] ++ braces ls.
Proof. unfold braces. cbn [flat_map]. rewrite app_nil_r. reflexivity. Qed.

Lemma braces_app ls1 ls2 : braces (ls1 ++ ls2) = braces ls1 ++ braces ls2.
Proof. unfold braces. apply flat_map_app. Qed.

Lemma scanLines_inside ls i st :
  inside (braceDepth st) (braces ls) ->
  scanLines lines i ls st
  = {| braceDepth := depthAfter (braceDepth st) (braces ls);
       blockStart := blockStart st; blocks := blocks st |}.
Proof.
  revert i st. induction ls as [|line ls IH]; intros i st.
  - intros _. destruct st; reflexivity.
  - rewrite braces_cons, inside_app, depthAfter_app. intros [Hline Hrest].
    cbn [scanLines]. rewrite scanLine_inside by exact Hline.
    rewrite IH by exact Hrest. reflexivity.
Qed.

Lemma scanLines_app ls1 ls2 i st :
  scanLines lines i (ls1 ++ ls2) st
  = scanLines lines (i + Z.of_nat (length ls1)) ls2 (scanLines lines i ls1 st).
Proof.
  revert i st. induction ls1 as [|line ls1 IH]; intros i st.
  - simpl. rewrite Z.add_0_r. reflexivity.
  - cbn [app scanLines length]. rewrite IH. f_equal. lia.
Qed.

(** The line that opens a block at depth 0. *)
Lemma scanLine_open i line u st :
  isSkipped (trim line) = false ->
  isBlockStart (trim line) = true ->
  List.filter isBrace line = openBrace :: u ->
  braceDepth st = 0 ->
  inside 1 u ->
  scanLine lines i line st
  = {| braceDepth := depthAfter 1 u; blockStart := i; blocks := blocks st |}.
Proof.
  intros Hskip Hstart Hbraces Hdepth Hin. unfold scanLine.
  rewrite Hskip, Hstart, foldl_scanChar_filter, Hbraces. cbn [foldl].
  unfold scanChar at 2. rewrite N.eqb_refl, Hdepth. cbn [Z.eqb andb].
  rewrite foldl_scanChar_inside by exact Hin. reflexivity.
Qed.

(** The line whose last brace closes the block. *)
Lemma scanLine_close i line u st :
  isSkipped (trim line) = false ->
  List.filter isBrace line = u ++ [closeBrace] ->
  inside (braceDepth st) u ->
  depthAfter (braceDepth st) u = 1 ->
  blockStart st <> -1 ->
  scanLine lines i line st
  = {| braceDepth := 0; blockStart := -1;
       blocks := blocks st ++ [{| startLine := blockStart st; endLine := i;
                                  code := sliceJoin lines (blockStart st) (i + 1) |}] |}.
Proof.
  intros Hskip Hbraces Hin Hdepth Hstart. unfold scanLine.
  rewrite Hskip, foldl_scanChar_filter, Hbraces, foldl_app.
  rewrite (foldl_scanChar_inside i _ u st Hin). cbn [foldl].
  unfold scanChar. change (closeBrace =? openBrace)%N with false.
  rewrite N.eqb_refl. cbn [braceDepth blockStart blocks]. rewrite Hdepth.
  cbn [Z.sub Z.eqb andb Z.add Z.opp Z.pos_sub].
  replace (negb (blockStart st =? -1)) with true
    by (symmetry; apply negb_true_iff, Z.eqb_neq; exact Hstart).
  reflexivity.
Qed.

End ScanFacts.

Section FunctionBlock.
Import Blocks.

Lemma function_line_scanned t :
  startsWith t (str "function") = true ->
  isSkipped t = false /\ isBlockStart t = true.
Proof.
  intros Hstart. destruct t as [|c t]; [discriminate|].
  assert (c = 102%N) as ->.
  { change (startsWith (c :: t) (str "function"))
      with ((102 =? c)%N && startsWith t (str "unction")) in Hstart.
    apply andb_true_iff in Hstart as [Hc _].
    apply N.eqb_eq in Hc. congruence. }
  split; [reflexivity|].
  unfold isBlockStart, startsWithKeyword. cbn [trimStart]. 
  change (isWhiteSpace 102) with false. cbv iota.
  unfold blockKeywords. cbn [existsb]. rewrite Hstart. reflexivity.
Qed.

Lemma braces_singleton line :
  braces [line] <> [] ->
  isSkipped (trim line) = false /\ braces [line] = List.filter isBrace line.
Proof.
  unfold braces. cbn [flat_map]. rewrite app_nil_r.
  destruct (isSkipped (trim line)); [congruence|auto].
Qed.

(** The scan of the lines [fn] of a function, from line [s] on. *)
Lemma scanLines_function lines s fn header rest init closing w st :
  0 <= s ->
  fn = header :: rest ->
  fn = init ++ [closing] ->
  startsWith (trim header) (str "function") = true ->
  braces [header] <> [] ->
  braces [closing] <> [] ->
  braces fn = openBrace :: w ++ [closeBrace] ->
  balanced w ->
  braceDepth st = 0 ->
  scanLines lines s fn st
  = {| braceDepth := 0; blockStart := -1;
       blocks := blocks st
                 ++ [{| startLine := s;
                        endLine := s + Z.of_nat (length fn) - 1;
                        code := sliceJoin lines s (s + Z.of_nat (length fn) - 1 + 1) |}] |}.
Proof.
  intros Hs Hfn Hfn' Hfunction Hheader Hclosing Hbraces Hbalanced Hdepth.
  destruct (function_line_scanned _ Hfunction) as [Hskip Hstart].
  destruct (balanced_inside w Hbalanced 1) as [Hin Hafter]; [lia|].
  destruct (braces_singleton header Hheader) as [_ Hbh].
  destruct (braces_singleton closing Hclosing) as [Hskipc Hbc].
  destruct rest as [|line rest].
  - (* the function is one line *)
    subst fn. destruct init as [|x init]; [|destruct init; discriminate].
    injection Hfn' as <-. rewrite Hbh in Hbraces.
    cbn [scanLines length]. unfold scanLine.
    rewrite Hskip, Hstart, foldl_scanChar_filter, Hbraces.
    assert (Hopen : scanChar lines s true st openBrace
                    = {| braceDepth := 1; blockStart := s; blocks := blocks st |}).
    { unfold scanChar. rewrite N.eqb_refl, Hdepth. reflexivity. }
    cbn [foldl]. rewrite Hopen, foldl_app.
    rewrite (foldl_scanChar_inside lines s true w
               {| braceDepth := 1; blockStart := s; blocks := blocks st |} Hin).
    cbn [foldl braceDepth blockStart blocks]. rewrite Hafter.
    unfold scanChar. change (closeBrace =? openBrace)%N with false.
    rewrite N.eqb_refl.
    cbn [braceDepth blockStart blocks Z.sub Z.add Z.opp Z.pos_sub Z.eqb andb].
    replace (negb (s =? -1)) with true
      by (symmetry; apply negb_true_iff, Z.eqb_neq; lia).
    replace (s + Z.of_nat 1 - 1) with s by lia. reflexivity.
  - (* the closing brace is on a later line *)
    assert (Hmid : exists mid, line :: rest = mid ++ [closing] /\ init = header :: mid).
    { subst fn. destruct init as [|x init]; [discriminate|].
      injection Hfn' as <- Hrest. eauto. }
    destruct Hmid as (mid & Hrest & ->). rewrite Hfn, Hrest in *. clear Hfn Hrest.
    rewrite braces_cons, braces_app in Hbraces.
    destruct (exists_last Hclosing) as (bc & x & Hbc').
    rewrite Hbc' in Hbraces.
    destruct (braces [header]) as [|c bh] eqn:Hbh'; [congruence|].
    injection Hbraces as -> Hbraces.
    rewrite !app_assoc in Hbraces.
    apply app_inj_tail in Hbraces as [Hw ->]. rewrite <- app_assoc in Hw. subst w.
    apply inside_app in Hin as [Hin1 Hin].
    apply inside_app in Hin as [Hin2 Hin3].
    rewrite !depthAfter_app in Hafter.
    cbn [scanLines].
    rewrite (scanLine_open lines s header bh st Hskip Hstart (eq_sym Hbh) Hdepth Hin1).
    rewrite scanLines_app.
    rewrite (scanLines_inside lines mid (s + 1)
               {| braceDepth := depthAfter 1 bh; blockStart := s;
                  blocks := blocks st |} Hin2).
    cbn [scanLines braceDepth blockStart blocks].
    rewrite (scanLine_close lines _ closing bc);
      cbn [braceDepth blockStart blocks]; try assumption.
    + cbn [length]. rewrite length_app. cbn [length].
      replace (s + 1 + Z.of_nat (length mid))
        with (s + Z.of_nat (S (length mid + 1)) - 1) by lia.
      reflexivity.
    + rewrite <- Hbc. exact Hbc'.
    + lia.
Qed.

End FunctionBlock.

Section BlockFacts.
Import Blocks.

Lemma lineBlocks_spec k ls :
  lineBlocks (Z.of_nat k) ls = omap id (imap (fun j => lineUnit (k + j)) ls).
Proof.
  revert k. induction ls as [|l ls IH]; intros k; [reflexivity|].
  cbn [lineBlocks imap omap]. unfold lineUnit at 1.
  replace (Z.of_nat k + 1) with (Z.of_nat (S k)) by lia.
  rewrite IH, Nat.add_0_r.
  assert (Himap : imap (fun j => lineUnit (S k + j)) ls
                  = imap ((fun j => lineUnit (k + j)) ∘ S) ls).
  { apply imap_ext. intros j l' _. cbn. f_equal. lia. }
  rewrite Himap.
  destruct (isSkipped (trim l)); reflexivity.
Qed.

Lemma filter_isBrace_noBrace l : noBrace l -> List.filter isBrace l = [].
Proof.
  intros [Hopen Hclose]. induction l as [|c l IH]; [reflexivity|].
  cbn [List.filter]. unfold isBrace at 1.
  apply not_elem_of_cons in Hopen as [Hopen Hopen'].
  apply not_elem_of_cons in Hclose as [Hclose Hclose'].
  replace (c =? openBrace)%N with false by (symmetry; apply N.eqb_neq; congruence).
  replace (c =? closeBrace)%N with false by (symmetry; apply N.eqb_neq; congruence).
  cbn [orb]. auto.
Qed.

Lemma braces_noBrace ls : Forall noBrace ls -> braces ls = [].
Proof.
  induction 1 as [|l ls Hl _ IH]; [reflexivity|].
  rewrite braces_cons, IH, app_nil_r. unfold braces. cbn [flat_map].
  rewrite filter_isBrace_noBrace by exact Hl.
  destruct (isSkipped (trim l)); reflexivity.
Qed.

Lemma scanLines_no_braces lines i ls st :
  braces ls = [] -> scanLines lines i ls st = st.
Proof.
  intros Hbraces. rewrite scanLines_inside by (rewrite Hbraces; exact I).
  rewrite Hbraces. destruct st; reflexivity.
Qed.

Lemma sliceJoin_middle (before fn after : list jsstring) :
  sliceJoin (before ++ fn ++ after) (Z.of_nat (length before))
    (Z.of_nat (length before) + Z.of_nat (length fn) - 1 + 1)
  = join [10%N] fn.
Proof.
  unfold sliceJoin. rewrite Nat2Z.id.
  replace (Z.to_nat (Z.of_nat (length before) + Z.of_nat (length fn) - 1 + 1)
           - length before)%nat with (length fn) by lia.
  rewrite drop_app_length, take_app_length. reflexivity.
Qed.

Lemma parseCodeBlocks_function path language before fn after header rest init closing w :
  fn = header :: rest ->
  fn = init ++ [closing] ->
  startsWith (trim header) (str "function") = true ->
  braces [header] <> [] ->
  braces [closing] <> [] ->
  braces fn = openBrace :: w ++ [closeBrace] ->
  balanced w ->
  braces before = [] ->
  braces after = [] ->
  parseCodeBlocks {| uri := path; languageId := language;
                     lines := before ++ fn ++ after |}
  = [{| startLine := Z.of_nat (length before);
        endLine := Z.of_nat (length before) + Z.of_nat (length fn) - 1;
        code := join [10%N] fn |}].
Proof.
  intros Hfn Hfn' Hfunction Hheader Hclosing Hbraces Hbalanced Hbefore Hafter.
  unfold parseCodeBlocks. cbn [lines].
  rewrite !scanLines_app, (scanLines_no_braces _ _ before) by exact Hbefore.
  rewrite (scanLines_function _ _ fn header rest init closing w)
    by (cbn [braceDepth]; first [assumption | lia]).
  rewrite scanLines_no_braces by exact Hafter.
  cbn [blocks app Z.add]. rewrite sliceJoin_middle. reflexivity.
Qed.

Lemma parseCodeBlocks_no_braces document :
  Forall noBrace (lines document) ->
  parseCodeBlocks document = omap id (imap lineUnit (lines document)).
Proof.
  intros Hno. unfold parseCodeBlocks. cbv zeta.
  rewrite scanLines_no_braces by (apply braces_noBrace; exact Hno).
  cbn [blocks]. apply (lineBlocks_spec 0).
Qed.

End BlockFacts.

(** C8 (amended): in a document whose only braces, outside skipped lines,
    are those of one function, the first of them on the [function] line
    and the last its matching closing brace, [parseCodeBlocks] gives one
    block, from the [function] line to the line of the closing brace,
    with the text of these lines; in a document without braces it gives
    one block for every line that, trimmed, is neither empty nor starts
    with [//], [/*] or [*]. *)
Theorem one_block_per_function path language :
  (forall before fn after header rest init closing w,
      fn = header :: rest ->
      fn = init ++ [closing] ->
      startsWith (trim header) (str "function") = true ->
      braces [header] <> [] ->
      braces [closing] <> [] ->
      braces fn = Blocks.openBrace :: w ++ [Blocks.closeBrace] ->
      balanced w ->
      braces before = [] ->
      braces after = [] ->
      Blocks.parseCodeBlocks {| uri := path; languageId := language;
                                lines := before ++ fn ++ after |}
      = [{| Blocks.startLine := Z.of_nat (length before);
            Blocks.endLine := Z.of_nat (length before) + Z.of_nat (length fn) - 1;
            Blocks.code := join [10%N] fn |}])
  /\ (forall ls,
        Forall noBrace ls ->
        Blocks.parseCodeBlocks {| uri := path; languageId := language; lines := ls |}
        = omap id (imap lineUnit ls)).
Proof.
  split.
  - intros. eapply parseCodeBlocks_function; eassumption.
  - intros ls Hno. apply parseCodeBlocks_no_braces. exact Hno.
Qed.

Lemma noBrace_dec l :
  forallb (fun c => negb (isBrace c)) l = true -> noBrace l.
Proof.
  intros Hall. rewrite forallb_forall in Hall.
  split; intros Hin; apply list_elem_of_In, Hall in Hin; discriminate.
Qed.

Lemma one_block_per_function_witness :
  Blocks.parseCodeBlocks
    {| uri := str "file:///c.js"; languageId := str "javascript";
       lines := [str "const x = 1;"] ++ functionLines ++ [str "f(x);"] |}
  = [{| Blocks.startLine := 1; Blocks.endLine := 5;
        Blocks.code := join [10%N] functionLines |}]
  /\ Blocks.parseCodeBlocks
       {| uri := str "file:///c.js"; languageId := str "javascript";
          lines := statements |}
     = [{| Blocks.startLine := 0; Blocks.endLine := 0;
           Blocks.code := str "const x = 1;" |};
        {| Blocks.startLine := 3; Blocks.endLine := 3;
           Blocks.code := str "f(x) + 1" |}].
Proof.
  destruct (one_block_per_function (str "file:///c.js") (str "javascript"))
    as [Hfunction Hlines].
  split.
  - apply (Hfunction [str "const x = 1;"] functionLines [str "f(x);"]
             (str "function f(a) {")
             (tail functionLines)
             (removelast functionLines)
             (str "}")
             [Blocks.openBrace; Blocks.closeBrace]);
      try reflexivity; try (vm_compute; discriminate).
    change [Blocks.openBrace; Blocks.closeBrace]
      with (Blocks.openBrace :: [] ++ Blocks.closeBrace :: []).
    apply balanced_pair; apply balanced_nil.
  - apply (Hlines statements).
    repeat constructor; apply noBrace_dec; reflexivity.
Defined.

(** C8 as stated fails: in a document without braces, [parseCodeBlocks]
    gives a block for line 0, whose trimmed text starts with a number
    sign and which [interpretSelectedLines] does not take as a code
    line. *)
Lemma block_for_hash_comment :
  Blocks.parseCodeBlocks
    {| uri := str "file:///d.py"; languageId := str "python";
       lines := [str "# the answer"; str "x = 42"] |}
  = [{| Blocks.startLine := 0; Blocks.endLine := 0;
        Blocks.code := str "# the answer" |};
     {| Blocks.startLine := 1; Blocks.endLine := 1;
        Blocks.code := str "x = 42" |}]
  /\ Comments.isCodeLine (trim (str "# the answer")) = false
  /\ braces [str "# the answer"; str "x = 42"] = [].
Proof.
  vm_compute. auto.
Qed.

(** ** The cache and the keys of the map *)

Section CallFacts.
Context `{Host}.
Variable setting : option jsstring.
Variable net : network.
Import Comments.

(** A computation that leaves the cache alone, followed by a write. *)
Lemma frames_then_cache_set {A} (m : M call_state A) key value st :
  frames m -> writesOnReturn key value st ((m ;;; cache_set key value) st).
Proof.
  intros Hm. destruct (Hm st) as [Hcache Hrequests]. unfold writesOnReturn, mbind.
  destruct (m st) as [st1 [a|msg]]; simpl in *; rewrite Hcache; auto.
Qed.

Lemma frames_storeItem (codeLines : list jsstring) (item : json) :
  frames (let* index := lift (lineIndex item) in
          match index with
          | Some i =>
              if (0 <=? i) && (i <? Z.of_nat (length codeLines)) then
                let* explanation := lift (get_prop item (str "explanation")) in
                result_set index explanation
              else mret tt
          | None => mret tt
          end).
Proof.
  apply frames_mbind; [apply frames_lift|intros [i|]; [|apply frames_mret]].
  destruct ((0 <=? i) && (i <? Z.of_nat (length codeLines))); [|apply frames_mret].
  apply frames_mbind; [apply frames_lift|intros e; apply frames_result_set].
Qed.

(** Where [storeExplanations] throws it has not written the cache, and
    where it returns it has written the payload under the key. *)
Lemma storeExplanations_cache codeLines key data st :
  writesOnReturn key (JSON_stringify data) st (storeExplanations codeLines key data st).
Proof.
  unfold storeExplanations. unfold mbind at 1. unfold lift at 1.
  destruct (get_prop data (str "explanations")) as [explanations|msg];
    [|split; reflexivity].
  destruct (truthy explanations && isArray explanations); [|split; reflexivity].
  apply frames_then_cache_set, frames_forEach_value. intros item.
  apply frames_storeItem.
Qed.

(** The cache after the [try] block. *)
Lemma interpretLines_try_cache codeLines st :
  let key := cacheKeyOf codeLines (getInterpretationLanguage setting) in
  let run := interpretLines_try setting net codeLines st in
  (forall k, k <> key ->
     interpretationCache run.1 !! k = interpretationCache st !! k)
  /\ (forall msg, run.2 = Throw msg ->
        interpretationCache run.1 = interpretationCache st).
Proof.
  intros key run. unfold run. rewrite interpretLines_try_unfold. fold key.
  assert (Hreplay :
            forall c, interpretationCache (replayCached c st).1 = interpretationCache st).
  { intros c. apply frames_replayCached. }
  set (replayed := match interpretationCache st !! key with
                   | Some c => if negb (eqb c []) then replayCached c st
                               else (st, Ret false)
                   | None => (st, Ret false)
                   end).
  assert (Hst1 : interpretationCache replayed.1 = interpretationCache st).
  { unfold replayed. destruct (interpretationCache st !! key) as [c|]; [|reflexivity].
    destruct (negb (eqb c [])); [apply Hreplay|reflexivity]. }
  destruct replayed as [st1 [[|]|msg]]; simpl in Hst1.
  - simpl. split; [intros; congruence|intros; congruence].
  - cbv zeta.
    destruct (net (batchRequest codeLines (getInterpretationLanguage setting)))
      as [msg|r].
    { simpl. split; intros; congruence. }
    destruct (responsePayload r) as [data|msg].
    2:{ simpl. split; intros; congruence. }
    pose proof (storeExplanations_cache codeLines key data
                  (sent (batchRequest codeLines (getInterpretationLanguage setting)) st1))
      as [_ Hstore].
    destruct (storeExplanations codeLines key data _) as [st3 [[]|msg]];
      simpl in Hstore |- *.
    + split; [|discriminate].
      intros k Hk. rewrite Hstore, lookup_insert_ne by congruence. congruence.
    + split; intros; congruence.
  - simpl. split; intros; congruence.
Qed.

(** The [catch] block leaves the cache and the requests alone. *)
Lemma frames_interpretLines_catch codeLines msg :
  frames (interpretLines_catch codeLines msg).
Proof.
  unfold interpretLines_catch. apply frames_forEach. intros index.
  apply frames_result_set.
Qed.

Lemma interpretLines_cache codeLines cache :
  (interpretLines setting net codeLines cache).1.2
  = interpretationCache (interpretLines_try setting net codeLines (initial cache)).1.
Proof.
  unfold interpretLines, interpretLines_run, try_catch. cbn [fst snd].
  destruct (interpretLines_try setting net codeLines (initial cache))
    as [st1 [[]|msg]]; [reflexivity|].
  apply frames_interpretLines_catch.
Qed.

(** *** The keys of the map *)

Lemma keeps_frame {A} n (m : M call_state A) :
  (forall st, result (m st).1 = result st) -> keeps n m.
Proof. intros Hm st Hst. rewrite Hm. exact Hst. Qed.

Lemma keeps_mbind {A B} n (m : M call_state A) (f : A -> M call_state B) :
  keeps n m -> (forall a, keeps n (f a)) -> keeps n (mbind m f).
Proof.
  intros Hm Hf st Hst. specialize (Hm st Hst). unfold mbind.
  destruct (m st) as [st1 [a|msg]]; [apply Hf|]; exact Hm.
Qed.

Lemma keeps_try_catch {A} n (m : M call_state A) h :
  keeps n m -> (forall msg, keeps n (h msg)) -> keeps n (try_catch m h).
Proof.
  intros Hm Hh st Hst. specialize (Hm st Hst). unfold try_catch.
  destruct (m st) as [st1 [a|msg]]; [|apply Hh]; exact Hm.
Qed.

Lemma keeps_forEach {A} n (f : A -> M call_state unit) items :
  (forall a, a ∈ items -> keeps n (f a)) -> keeps n (forEach f items).
Proof.
  induction items as [|a items IH]; intros Hf.
  - apply keeps_frame. reflexivity.
  - cbn [forEach]. apply keeps_mbind.
    + apply Hf. apply elem_of_cons. left. reflexivity.
    + intros _. apply IH. intros b Hb. apply Hf. apply elem_of_cons. right. exact Hb.
Qed.

Lemma keeps_result_set n (i : Z) v :
  0 <= i < Z.of_nat n -> keeps n (result_set (Some i) v).
Proof.
  intros Hi st Hst k w. cbn. intros Hk.
  destruct (decide (k = Some i)) as [->|Hne]; [eauto|].
  rewrite lookup_insert_ne in Hk by congruence. eapply Hst. exact Hk.
Qed.

Lemma keeps_storeExplanations codeLines key data :
  keeps (length codeLines) (storeExplanations codeLines key data).
Proof.
  unfold storeExplanations.
  apply keeps_mbind; [apply keeps_frame; reflexivity|intros explanations].
  destruct (truthy explanations && isArray explanations);
    [|apply keeps_frame; reflexivity].
  apply keeps_mbind; [|intros _; apply keeps_frame; reflexivity].
  destruct explanations as [[| | | |items|]|]; try (apply keeps_frame; reflexivity).
  cbn [forEach_value]. apply keeps_forEach. intros item _.
  apply keeps_mbind; [apply keeps_frame; reflexivity|intros [i|]];
    [|apply keeps_frame; reflexivity].
  destruct ((0 <=? i) && (i <? Z.of_nat (length codeLines))) eqn:Hi;
    [|apply keeps_frame; reflexivity].
  apply keeps_mbind; [apply keeps_frame; reflexivity|intros e].
  apply keeps_result_set. lia.
Qed.

Lemma keeps_interpretLines_catch codeLines msg :
  keeps (length codeLines) (interpretLines_catch codeLines msg).
Proof.
  unfold interpretLines_catch. apply keeps_forEach. intros index Hindex.
  apply keeps_result_set. apply elem_of_seq in Hindex. lia.
Qed.

Lemma interpretLines_keys codeLines cache :
  cache !! cacheKeyOf codeLines (getInterpretationLanguage setting) = None ->
  keysBelow (length codeLines) (interpretLines setting net codeLines cache).1.1.
Proof.
  intros Hmiss. unfold interpretLines, interpretLines_run. cbn [fst snd].
  assert (Hinitial : keysBelow (length codeLines) (result (initial cache))).
  { intros k v Hk. cbn in Hk. rewrite lookup_empty in Hk. discriminate. }
  assert (Htry : keysBelow (length codeLines)
                   (result (interpretLines_try setting net codeLines (initial cache)).1)).
  { rewrite interpretLines_try_unfold. cbv zeta.
    cbn [interpretationCache initial]. rewrite Hmiss.
    destruct (net (batchRequest codeLines (getInterpretationLanguage setting)))
      as [msg|r]; [exact Hinitial|].
    destruct (responsePayload r) as [data|msg]; [|exact Hinitial].
    apply keeps_storeExplanations. exact Hinitial. }
  unfold try_catch.
  destruct (interpretLines_try setting net codeLines (initial cache))
    as [st1 [[]|msg]]; [exact Htry|].
  apply keeps_interpretLines_catch. exact Htry.
Qed.

End CallFacts.

(** A call of [interpretLines] writes the cache under its own key only,
    and a call whose [try] block throws does not write it: a failure is
    not cached. *)
Theorem call_writes_its_own_key `{Host} setting net codeLines cache :
  let key :=
    Comments.cacheKeyOf codeLines (Comments.getInterpretationLanguage setting) in
  let run := Comments.interpretLines setting net codeLines cache in
  (forall k, k <> key -> run.1.2 !! k = cache !! k)
  /\ (forall st1 msg,
        Comments.interpretLines_try setting net codeLines (Comments.initial cache)
        = (st1, Throw msg) ->
        run.1.2 = cache).
Proof.
  intros key run. unfold run. rewrite interpretLines_cache.
  pose proof (interpretLines_try_cache setting net codeLines (Comments.initial cache))
    as [Hother Hthrow].
  split.
  - intros k Hk. apply Hother. exact Hk.
  - intros st1 msg Htry. apply (Hthrow msg). rewrite Htry. reflexivity.
Qed.

Lemma call_writes_its_own_key_witness :
  (Comments.interpretLines (H := Node.host) None net500
     [str "const x = 10;"] {[ str "return x;:English" := str "{}" ]}).1.2
  = {[ str "return x;:English" := str "{}" ]}.
Proof.
  eapply (proj2 (call_writes_its_own_key (H := Node.host) None net500
                   [str "const x = 10;"] {[ str "return x;:English" := str "{}" ]})).
  vm_compute. reflexivity.
Defined.

(** After a call of [interpretLines] that finds nothing in the cache
    under its key, every key of the returned map lies from 0 up to the
    number of code lines, not included: an explanation whose line number
    less one is [NaN], negative or too large is dropped, and the [catch]
    block writes under the indices.  The numbers of the model being
    integers, this is shown for payloads whose line numbers are
    integers, and the keys are then indices of [codeLines]. *)
Theorem result_keys_are_indices `{Host} setting net codeLines cache :
  cache !! Comments.cacheKeyOf codeLines (Comments.getInterpretationLanguage setting)
  = None ->
  keysBelow (length codeLines) (Comments.interpretLines setting net codeLines cache).1.1.
Proof. apply interpretLines_keys. Qed.

Lemma result_keys_are_indices_witness :
  keysBelow 1 (Comments.interpretLines (H := Node.host) None (net200 lineTwo)
                 [str "const x = 10;"] ∅).1.1.
Proof.
  apply (result_keys_are_indices (H := Node.host) None (net200 lineTwo)
           [str "const x = 10;"] ∅).
  reflexivity.
Defined.

(** ** The comments that are written and those that are recognised *)

Lemma eqb_refl (a : jsstring) : eqb a a = true.
Proof. apply bool_decide_eq_true. reflexivity. Qed.

Lemma eqb_app_nil (p x : jsstring) : eqb (p ++ x) p = bool_decide (x = []).
Proof.
  unfold eqb. apply bool_decide_ext. split.
  - intros Hp. apply (app_inv_head p). rewrite app_nil_r. exact Hp.
  - intros ->. apply app_nil_r.
Qed.

Lemma elem_of_split sep s w c : w ∈ split sep s -> c ∈ w -> c ∈ s.
Proof.
  revert w. induction s as [|d s IH]; intros w; cbn [split].
  - intros Hw%list_elem_of_singleton Hc. subst w. exact Hc.
  - destruct (d =? sep)%N.
    + intros [->|Hw]%elem_of_cons Hc.
      * apply elem_of_nil in Hc. destruct Hc.
      * apply elem_of_cons. right. eapply IH; eassumption.
    + destruct (split sep s) as [|w0 ws] eqn:Hsplit.
      * intros Hw%list_elem_of_singleton Hc. subst w.
        apply list_elem_of_singleton in Hc as ->. apply elem_of_cons. left. reflexivity.
      * intros [->|Hw]%elem_of_cons Hc.
        -- apply elem_of_cons in Hc as [->|Hc]; apply elem_of_cons; [left; reflexivity|].
           right. apply (IH w0); [apply elem_of_cons; left; reflexivity|exact Hc].
        -- apply elem_of_cons. right. apply (IH w); [|exact Hc].
           apply elem_of_cons. right. exact Hw.
Qed.

Section WrappedLines.
Variables indent commentPrefix commentSuffix : jsstring.
Import Comments.

(** The loop over the words writes whole lines, each made of the
    indentation, the prefix, words and spaces, and the suffix. *)
Lemma wrapWords_lines words :
  forall text x,
    exists bodies y,
      wrapWords indent commentPrefix commentSuffix words text (commentPrefix ++ x)
      = (text ++ concat (map (fun b => indent ++ commentPrefix ++ b ++ commentSuffix
                                       ++ [10%N]) bodies),
         commentPrefix ++ y)
      /\ (forall c, c ∈ concat bodies ++ y ->
            c ∈ x \/ c = 32%N \/ exists w, w ∈ words /\ c ∈ w).
Proof.
  induction words as [|word words IH]; intros text x.
  - exists [], x. cbn [wrapWords map concat]. rewrite app_nil_r.
    split; [reflexivity|]. intros c Hc. left. exact Hc.
  - cbn [wrapWords]. rewrite !eqb_app_nil.
    destruct ((maxLength <? _)%nat && negb (bool_decide (x = []))) eqn:Hwrap.
    + destruct (IH (text ++ indent ++ (commentPrefix ++ x) ++ commentSuffix ++ [10%N])
                  word) as (bodies & y & -> & Hchars).
      exists (x :: bodies), y. split.
      * cbn [map concat]. rewrite <- !app_assoc. reflexivity.
      * intros c Hc. cbn [concat] in Hc. rewrite <- app_assoc in Hc.
        apply elem_of_app in Hc as [Hc|Hc]; [left; exact Hc|].
        destruct (Hchars c Hc) as [Hw|[->|(w & Hw & Hcw)]]; [|auto|].
        -- right. right. exists word. split; [apply elem_of_cons; left; reflexivity|exact Hw].
        -- right. right. exists w. split; [apply elem_of_cons; right; exact Hw|exact Hcw].
    + assert (Hnext : (if negb (bool_decide (x = []))
                       then (commentPrefix ++ x) ++ str " " else commentPrefix ++ x) ++ word
                      = commentPrefix
                        ++ (if negb (bool_decide (x = [])) then x ++ str " " ++ word
                            else x ++ word)).
      { destruct (negb (bool_decide (x = []))); rewrite <- !app_assoc; reflexivity. }
      rewrite Hnext.
      destruct (IH text (if negb (bool_decide (x = [])) then x ++ str " " ++ word
                         else x ++ word)) as (bodies & y & -> & Hchars).
      exists bodies, y. split; [reflexivity|].
      intros c Hc. destruct (Hchars c Hc) as [Hx|[->|(w & Hw & Hcw)]]; [|auto|].
      * assert (Hcases : c ∈ x \/ c = 32%N \/ c ∈ word).
        { destruct (negb (bool_decide (x = []))).
          - apply elem_of_app in Hx as [Hx|Hx]; [auto|].
            apply elem_of_app in Hx as [Hx|Hx]; [|auto].
            apply list_elem_of_singleton in Hx. auto.
          - apply elem_of_app in Hx as [Hx|Hx]; auto. }
        destruct Hcases as [Hx'|[->|Hw]]; [auto|auto|].
        right. right. exists word. split; [apply elem_of_cons; left; reflexivity|exact Hw].
      * right. right. exists w. split; [apply elem_of_cons; right; exact Hw|exact Hcw].
Qed.

(** The text inserted for a cleaned explanation is made of whole lines. *)
Lemma commentText_lines cleaned :
  exists bodies,
    bodies <> []
    /\ commentText indent commentPrefix commentSuffix cleaned
       = concat (map (fun b => indent ++ commentPrefix ++ b ++ commentSuffix ++ [10%N])
                   bodies)
    /\ (forall c, c ∈ concat bodies -> c ∈ cleaned \/ c = 32%N).
Proof.
  unfold commentText. destruct (length cleaned <=? maxLength)%nat.
  - exists [cleaned]. split; [discriminate|]. cbn [map concat].
    rewrite !app_nil_r. split; [reflexivity|]. intros c Hc. left. exact Hc.
  - destruct (wrapWords_lines (split 32%N cleaned) [] []) as (bodies & y & Hwrap & Hchars).
    rewrite app_nil_r in Hwrap. rewrite Hwrap.
    exists (bodies ++ [y]). split; [destruct bodies; discriminate|].
    split.
    + rewrite map_app, concat_app. cbn [map concat app].
      rewrite !app_nil_r, <- !app_assoc. reflexivity.
    + intros c Hc. rewrite concat_app in Hc. cbn [concat] in Hc.
      rewrite app_nil_r in Hc.
      destruct (Hchars c Hc) as [Hnil|[->|(w & Hw & Hcw)]]; [|auto|].
      * apply elem_of_nil in Hnil. destruct Hnil.
      * left. eapply elem_of_split; eassumption.
Qed.

End WrappedLines.

Lemma leadingWhiteSpace_spec s :
  Forall (fun c => isWhiteSpace c = true) (leadingWhiteSpace s)
  /\ (forall c, c ∈ leadingWhiteSpace s -> c ∈ s).
Proof.
  induction s as [|d s [IHws IHin]]; cbn [leadingWhiteSpace].
  - split; [constructor|auto].
  - destruct (isWhiteSpace d) eqn:Hd.
    + split; [constructor; assumption|].
      intros c [->|Hc]%elem_of_cons; apply elem_of_cons; auto.
    + split; [constructor|]. intros c Hc. apply elem_of_nil in Hc. destruct Hc.
Qed.

Lemma trimStart_app_nonws x c y :
  isWhiteSpace c = false -> trimStart (x ++ c :: y) = trimStart x ++ c :: y.
Proof.
  intros Hc. induction x as [|d x IH]; cbn [trimStart app].
  - rewrite Hc. reflexivity.
  - destruct (isWhiteSpace d); [exact IH|reflexivity].
Qed.

Lemma trimStart_white ws :
  Forall (fun c => isWhiteSpace c = true) ws -> trimStart ws = [].
Proof.
  induction 1 as [|c ws Hc _ IH]; cbn [trimStart]; [reflexivity|].
  rewrite Hc. exact IH.
Qed.

Lemma trimEnd_app_nonws a c b :
  isWhiteSpace c = false -> trimEnd (a ++ c :: b) = a ++ c :: trimEnd b.
Proof.
  intros Hc. unfold trimEnd.
  rewrite rev_app_distr. cbn [rev]. rewrite <- app_assoc. cbn [app].
  rewrite trimStart_app_nonws by exact Hc.
  rewrite rev_app_distr. cbn [rev]. rewrite rev_involutive, <- app_assoc.
  reflexivity.
Qed.

Lemma includes_skip a s p : includes s p = true -> includes (a ++ s) p = true.
Proof.
  intros Hs. induction a as [|c a IH]; [exact Hs|].
  cbn [app includes]. rewrite IH. apply orb_true_r.
Qed.

Lemma getCommentPrefix_cases languageId :
  exists opening,
    opening ∈ commentOpenings
    /\ Comments.getCommentPrefix languageId = opening ++ Comments.brain ++ str " ".
Proof.
  unfold Comments.getCommentPrefix, commentOpenings.
  repeat match goal with
         | |- context [if ?b then _ else _] => destruct b
         end;
    eexists; (split; [|reflexivity]); rewrite !elem_of_cons; auto 10.
Qed.

Lemma getCommentSuffix_cases languageId :
  Comments.getCommentSuffix languageId ∈ [str " -->"; str " */"; []].
Proof.
  unfold Comments.getCommentSuffix.
  repeat match goal with
         | |- context [if ?b then _ else _] => destruct b
         end; rewrite !elem_of_cons; auto.
Qed.

(** A line that begins, behind white space, with one of the prefixes is
    taken for an explanation comment. *)
Lemma isComment_prefixed ws opening rest :
  Forall (fun c => isWhiteSpace c = true) ws ->
  opening ∈ commentOpenings ->
  Comments.isComment (ws ++ (opening ++ Comments.brain ++ str " ") ++ rest) = true.
Proof.
  intros Hws Hopening. unfold Comments.isComment.
  assert (Htrim : trim (ws ++ (opening ++ Comments.brain ++ str " ") ++ rest)
                  = (opening ++ [55358%N]) ++ 56800%N :: trimEnd (str " " ++ rest)).
  { unfold trim.
    assert (Hstart : trimStart (ws ++ (opening ++ Comments.brain ++ str " ") ++ rest)
                     = (opening ++ Comments.brain ++ str " ") ++ rest).
    { unfold commentOpenings in Hopening. rewrite !elem_of_cons in Hopening.
      destruct Hopening as [->|[->|[->|[->|[->|Hnil]]]]];
        [..|apply elem_of_nil in Hnil; destruct Hnil];
        match goal with
        | |- context [ws ++ ?o ++ rest] =>
            let o' := eval vm_compute in o in change o with o'
        end;
        cbn [app]; rewrite trimStart_app_nonws by reflexivity;
        rewrite trimStart_white by exact Hws; reflexivity. }
    rewrite Hstart.
    replace ((opening ++ Comments.brain ++ str " ") ++ rest)
      with ((opening ++ [55358%N]) ++ 56800%N :: (str " " ++ rest))
      by (unfold Comments.brain; rewrite <- !app_assoc; reflexivity).
    apply trimEnd_app_nonws. reflexivity. }
  rewrite Htrim. apply andb_true_iff. split.
  - unfold commentOpenings in Hopening. rewrite !elem_of_cons in Hopening.
    destruct Hopening as [->|[->|[->|[->|[->|Hnil]]]]]; try reflexivity.
    apply elem_of_nil in Hnil. destruct Hnil.
  - rewrite <- app_assoc. apply includes_skip.
    apply (includes_app Comments.brain).
Qed.

Lemma not_elem_of_forallb (c : N) (l : jsstring) :
  forallb (fun d => negb (d =? c)%N) l = true -> c ∉ l.
Proof.
  intros Hall Hin. rewrite forallb_forall in Hall.
  apply list_elem_of_In, Hall in Hin. rewrite N.eqb_refl in Hin. discriminate.
Qed.

Lemma cleanExplanation_onlySpaces explanation :
  onlySpaces (Comments.cleanExplanation explanation).
Proof.
  unfold Comments.cleanExplanation, onlySpaces.
  apply Forall_forall. intros c Hc%elem_of_trim.
  destruct (collapseWhiteSpace_from_spec false
              (replaceAll [10%N] (str " ")
                 (replaceAll (str "*/") []
                    (replaceAll (str "/*") []
                       (replaceAll (str "<!--") []
                          (replaceAll (str "--") []
                             (replaceAll (str "#") []
                                (replaceAll (str "//") []
                                   (replaceAll [54633; 45768; 45796; 46]%N []
                                      (replaceAll [54633; 45768; 45796]%N []
                                         (replaceAll [53076; 46300; 45716]%N []
                                            (replaceAll [51060; 32; 53076; 46300; 45716]%N []
                                               (replaceAll [49444; 47749]%N []
                                                  explanation)))))))))))))
    as (_ & Hspaces & _).
  unfold onlySpaces in Hspaces. rewrite Forall_forall in Hspaces.
  apply Hspaces. exact Hc.
Qed.

Lemma cleanExplanation_noLineBreak explanation :
  noLineBreak (Comments.cleanExplanation explanation).
Proof.
  pose proof (cleanExplanation_onlySpaces explanation) as Hspaces.
  unfold onlySpaces in Hspaces. rewrite Forall_forall in Hspaces.
  split; intros Hc; pose proof (Hspaces _ Hc eq_refl) as Heq; discriminate.
Qed.

(** Every line that [insertCommentsAsExplanations] writes for an
    explanation is one that it takes for an explanation comment when it
    looks for the comments to delete; and the lines hold no line break
    of their own when the code line holds none. *)
Theorem written_comments_are_recognised languageId codeLineText explanation :
  let indent := leadingWhiteSpace codeLineText in
  let text :=
    Comments.commentText indent (Comments.getCommentPrefix languageId)
      (Comments.getCommentSuffix languageId) (Comments.cleanExplanation explanation) in
  exists commentLines,
    commentLines <> []
    /\ text = concat (map (fun l => l ++ [10%N]) commentLines)
    /\ Forall (fun l => Comments.isComment l = true) commentLines
    /\ (noLineBreak codeLineText -> Forall noLineBreak commentLines).
Proof.
  intros indent text.
  destruct (commentText_lines indent (Comments.getCommentPrefix languageId)
              (Comments.getCommentSuffix languageId)
              (Comments.cleanExplanation explanation))
    as (bodies & Hne & Htext & Hchars).
  destruct (getCommentPrefix_cases languageId) as (opening & Hopening & Hprefix).
  destruct (leadingWhiteSpace_spec codeLineText) as [Hws Hin].
  exists (map (fun b => indent ++ Comments.getCommentPrefix languageId ++ b
                        ++ Comments.getCommentSuffix languageId) bodies).
  split; [destruct bodies; [congruence|discriminate]|].
  split.
  { unfold text. rewrite Htext, map_map. f_equal. apply map_ext. intros b.
    rewrite <- !app_assoc. reflexivity. }
  split.
  { apply Forall_forall. intros l (b & <- & _)%list_elem_of_In%in_map_iff.
    rewrite Hprefix.
    replace ((opening ++ Comments.brain ++ str " ") ++ b
             ++ Comments.getCommentSuffix languageId)
      with ((opening ++ Comments.brain ++ str " ")
            ++ (b ++ Comments.getCommentSuffix languageId)) by reflexivity.
    apply isComment_prefixed; assumption. }
  intros [Hlf Hcr].
  destruct (cleanExplanation_noLineBreak explanation) as [Hlf' Hcr'].
  apply Forall_forall. intros l (b & <- & Hb%list_elem_of_In)%list_elem_of_In%in_map_iff.
  assert (Hbody : forall c, c ∈ b -> c ∈ Comments.cleanExplanation explanation \/ c = 32%N).
  { intros c Hc. apply Hchars. apply list_elem_of_In, in_concat.
    exists b. split; apply list_elem_of_In; assumption. }
  assert (Hparts : forall c, (c = 10 \/ c = 13)%N ->
                     (c ∉ Comments.getCommentPrefix languageId)
                     /\ (c ∉ Comments.getCommentSuffix languageId)).
  { intros c Hc. rewrite Hprefix.
    pose proof (getCommentSuffix_cases languageId) as Hsuffix.
    unfold commentOpenings in Hopening.
    rewrite !elem_of_cons in Hopening. rewrite !elem_of_cons in Hsuffix.
    split.
    - destruct Hopening as [->|[->|[->|[->|[->|Hnil]]]]];
        [..|apply elem_of_nil in Hnil; destruct Hnil];
        apply not_elem_of_forallb; destruct Hc as [->| ->]; reflexivity.
    - destruct Hsuffix as [->|[->|[->|Hnil]]];
        [..|apply elem_of_nil in Hnil; destruct Hnil];
        apply not_elem_of_forallb; destruct Hc as [->| ->]; reflexivity. }
  split; intros Hc; rewrite !elem_of_app in Hc.
  - destruct (Hparts 10%N) as [Hp Hs]; [auto|].
    destruct Hc as [Hc|[Hc|[Hc|Hc]]]; [apply Hlf, Hin, Hc|exact (Hp Hc)| |exact (Hs Hc)].
    destruct (Hbody _ Hc) as [Hclean|Heq]; [exact (Hlf' Hclean)|discriminate].
  - destruct (Hparts 13%N) as [Hp Hs]; [auto|].
    destruct Hc as [Hc|[Hc|[Hc|Hc]]]; [apply Hcr, Hin, Hc|exact (Hp Hc)| |exact (Hs Hc)].
    destruct (Hbody _ Hc) as [Hclean|Heq]; [exact (Hcr' Hclean)|discriminate].
Qed.

(** ** The transaction of an insertion *)

Lemma flat_map_ext_elem {A B} (f g : A -> list B) l :
  (forall a, a ∈ l -> f a = g a) -> flat_map f l = flat_map g l.
Proof.
  induction l as [|a l IH]; intros Hfg; [reflexivity|]. cbn [flat_map].
  rewrite (Hfg a) by (apply elem_of_cons; left; reflexivity).
  rewrite IH; [reflexivity|]. intros b Hb. apply Hfg. apply elem_of_cons. right. exact Hb.
Qed.

Lemma StronglySorted_gt_NoDup l : StronglySorted Z.gt l -> NoDup l.
Proof.
  induction 1 as [|x l _ IH Hall]; constructor; [|exact IH].
  intros Hx. rewrite Forall_forall in Hall. specialize (Hall x Hx). lia.
Qed.

Section TransactionFacts.
Context `{Host}.
Import Comments.

Lemma deleteExplanationLines_run deleteLine rest st :
  deleteExplanationLines deleteLine rest st
  = ({| insertedComments := insertedComments st;
        edits := edits st
                 ++ map Delete (seqZ deleteLine (Z.of_nat (commentRun rest))) |},
     Ret tt).
Proof.
  revert deleteLine st. induction rest as [|existingLine rest IH]; intros deleteLine st;
    cbn [deleteExplanationLines commentRun].
  - cbn. rewrite app_nil_r. destruct st; reflexivity.
  - destruct (isComment existingLine).
    + unfold mbind, addEdit at 1, modify. rewrite IH. cbn [insertedComments edits].
      rewrite (seqZ_cons deleteLine) by lia. cbn [map]. rewrite <- app_assoc.
      replace (Z.pred (Z.of_nat (S (commentRun rest)))) with (Z.of_nat (commentRun rest))
        by lia.
      reflexivity.
    + cbn. rewrite app_nil_r. destruct st; reflexivity.
Qed.

Lemma deleteInserted_run document n st st' :
  deleteInserted document n st = (st', Ret tt) ->
  st' = {| insertedComments := insertedComments st;
           edits := edits st
                    ++ (if bool_decide (n ∈ tracked (insertedComments st) document)
                        then deletionsBelow document n else []) |}.
Proof.
  unfold deleteInserted, mbind at 1, insertedSet_has, gets, tracked.
  destruct (bool_decide (n ∈ default ∅ (insertedComments st !! uri document))).
  - destruct (n + 1 <? lineCount document) eqn:Hnext.
    + unfold mbind, lift. destruct (lineAt document (n + 1)); [|discriminate].
      rewrite deleteExplanationLines_run. intros [= <-]. reflexivity.
    + intros [= <-]. unfold deletionsBelow.
      rewrite drop_ge.
      * cbn. rewrite app_nil_r. destruct st; reflexivity.
      * apply Z.ltb_ge in Hnext. unfold lineCount in Hnext. lia.
  - intros [= <-]. rewrite app_nil_r. destruct st; reflexivity.
Qed.

(** One turn of the loop. *)
Lemma insertComment_run document explanations n st st' :
  insertComment document explanations n st = (st', Ret tt) ->
  edits st' = edits st
              ++ editsFor document explanations (tracked (insertedComments st) document) n
  /\ insertedComments st'
     = (if truthy (default undefined (explanations !! n))
        then <[uri document := {[n]} ∪ tracked (insertedComments st) document]>
               (insertedComments st)
        else insertedComments st)
  /\ (truthy (default undefined (explanations !! n)) = true ->
      exists explanation codeLineText,
        explanations !! n = Some (Some (JStr explanation))
        /\ lineAt document n = Ret codeLineText).
Proof.
  unfold insertComment, editsFor.
  destruct (default undefined (explanations !! n)) as [explanation|] eqn:Hexplanation.
  2:{ cbn [truthy negb]. cbv beta delta [mret]. intros [= <-].
      rewrite app_nil_r. split_and!; [reflexivity..|discriminate]. }
  destruct (truthy (Some explanation)) eqn:Htruthy; cbn [negb].
  2:{ cbv beta delta [mret]. intros [= <-].
      destruct explanation as [| | |s| |]; rewrite ?app_nil_r;
        try (split_and!; [reflexivity..|discriminate]).
      cbn in Htruthy. apply negb_false_iff in Htruthy. rewrite Htruthy.
      destruct (lineAt document n); rewrite app_nil_r;
        (split_and!; [reflexivity..|discriminate]). }
  unfold mbind at 1.
  destruct (deleteInserted document n st) as [st1 [[]|msg]] eqn:Hdelete; [|discriminate].
  apply deleteInserted_run in Hdelete. subst st1.
  unfold mbind at 1, lift.
  destruct (lineAt document n) as [codeLineText|msg]; [|discriminate].
  unfold mbind at 1.
  destruct explanation as [| | |s| |]; try discriminate.
  cbn in Htruthy. apply negb_true_iff in Htruthy. rewrite Htruthy.
  unfold mret, mbind, addEdit, insertedSet_add, modify. intros [= <-].
  cbn [edits insertedComments]. rewrite <- app_assoc.
  split_and!; [reflexivity..|]. intros _. exists s, codeLineText.
  split; [|reflexivity].
  destruct (explanations !! n) as [v|]; [|discriminate].
  cbn in Hexplanation. congruence.
Qed.

(** The loop over distinct lines: the marks that the loop adds are not
    looked up by it. *)
Lemma forEach_insertComment_run document explanations l :
  NoDup l ->
  forall st st',
    forEach (insertComment document explanations) l st = (st', Ret tt) ->
    edits st'
    = edits st
      ++ flat_map (editsFor document explanations
                     (tracked (insertedComments st) document)) l
    /\ (forall n, n ∈ tracked (insertedComments st') document
                  <-> n ∈ tracked (insertedComments st) document
                      \/ (n ∈ l /\ truthy (default undefined (explanations !! n)) = true))
    /\ (forall u, u <> uri document ->
                  insertedComments st' !! u = insertedComments st !! u)
    /\ (forall n, n ∈ l -> truthy (default undefined (explanations !! n)) = true ->
          exists explanation codeLineText,
            explanations !! n = Some (Some (JStr explanation))
            /\ lineAt document n = Ret codeLineText).
Proof.
  induction 1 as [|k l Hk Hl IH]; intros st st'.
  - intros [= <-]. rewrite app_nil_r. split; [reflexivity|].
    split; [|split; [reflexivity|]].
    + intros n. rewrite elem_of_nil. tauto.
    + intros n Hn. apply elem_of_nil in Hn. destruct Hn.
  - cbn [forEach]. unfold mbind.
    destruct (insertComment document explanations k st) as [st1 [[]|msg]] eqn:Hturn;
      [|discriminate].
    intros Hloop. apply insertComment_run in Hturn as (Hedits & Hmarks & Hvalid).
    apply IH in Hloop as (Hedits' & Hmarks' & Hframe & Hvalid').
    assert (Htracked : forall n,
               n ∈ tracked (insertedComments st1) document
               <-> n ∈ tracked (insertedComments st) document
                   \/ (n = k /\ truthy (default undefined (explanations !! k)) = true)).
    { intros n. rewrite Hmarks.
      destruct (truthy (default undefined (explanations !! k))).
      - unfold tracked at 1. rewrite lookup_insert_eq. cbn [default from_option id].
        rewrite elem_of_union, elem_of_singleton. tauto.
      - split; [auto|]. intros [Hn|[_ Hfalse]]; [exact Hn|discriminate]. }
    split; [|split; [|split]].
    + rewrite Hedits', Hedits, <- app_assoc. cbn [flat_map]. do 2 f_equal.
      apply flat_map_ext_elem. intros n Hn. unfold editsFor.
      destruct (default undefined (explanations !! n)) as [[| | |s| |]|]; try reflexivity.
      destruct (lineAt document n); [|reflexivity].
      destruct (eqb s []); [reflexivity|].
      f_equal.
      assert (Hne : n <> k) by (intros ->; exact (Hk Hn)).
      rewrite (bool_decide_ext _ (n ∈ tracked (insertedComments st) document));
        [reflexivity|].
      rewrite Htracked. tauto.
    + intros n. rewrite Hmarks', Htracked, elem_of_cons.
      split.
      * intros [[Hn|[-> Hn]]|[Hn Ht]]; auto.
      * intros [Hn|[[->|Hn] Ht]]; auto.
    + intros u Hu. rewrite (Hframe u Hu), Hmarks.
      destruct (truthy (default undefined (explanations !! k))); [|reflexivity].
      apply lookup_insert_ne. congruence.
    + intros n [->|Hn]%elem_of_cons; [exact Hvalid|apply Hvalid'; exact Hn].
Qed.

(** The transaction of a call, read off the marks at its start. *)
Lemma insertComments_run editor document explanations inserted inserted' transaction :
  insertCommentsAsExplanations (Some editor) document explanations inserted
  = (inserted', Ret (Some transaction)) ->
  transaction
  = flat_map (editsFor document explanations (tracked inserted document))
      (sortDescending (map fst (map_to_list explanations)))
  /\ (forall n, n ∈ tracked inserted' document
                <-> n ∈ tracked inserted document
                    \/ truthy (default undefined (explanations !! n)) = true)
  /\ (forall u, u <> uri document -> inserted' !! u = inserted !! u)
  /\ (forall n, truthy (default undefined (explanations !! n)) = true ->
        exists explanation codeLineText,
          explanations !! n = Some (Some (JStr explanation))
          /\ lineAt document n = Ret codeLineText).
Proof.
  unfold insertCommentsAsExplanations.
  destruct (negb (eqb (uri (Editor.document editor)) (uri document))); [discriminate|].
  set (inserted0 := match inserted !! uri document with
                    | Some _ => inserted
                    | None => <[uri document := ∅]> inserted
                    end).
  assert (Htracked0 : tracked inserted0 document = tracked inserted document).
  { unfold inserted0, tracked.
    destruct (inserted !! uri document) eqn:Hlookup;
      rewrite ?lookup_insert_eq, ?Hlookup; reflexivity. }
  assert (Hframe0 : forall u, u <> uri document -> inserted0 !! u = inserted !! u).
  { intros u Hu. unfold inserted0.
    destruct (inserted !! uri document); [reflexivity|].
    apply lookup_insert_ne. congruence. }
  assert (Hkeys : forall n, truthy (default undefined (explanations !! n)) = true ->
                    n ∈ sortDescending (map fst (map_to_list explanations))).
  { intros n Hn. apply elem_of_sortDescending.
    destruct (explanations !! n) as [v|] eqn:Hv; [|discriminate].
    apply (list_elem_of_fmap_2' fst _ (n, v)); [|reflexivity].
    apply elem_of_map_to_list. exact Hv. }
  match goal with
  | |- context [forEach ?f ?l ?st] =>
      destruct (forEach f l st) as [st' [[]|msg]] eqn:Hloop
  end; [|discriminate].
  intros [= <- <-].
  apply forEach_insertComment_run in Hloop as (Hedits & Hmarks & Hframe & Hvalid).
  2:{ eapply StronglySorted_gt_NoDup, sortDescending_sorted.
      apply (NoDup_fst_map_to_list explanations). }
  cbn [edits insertedComments] in *. rewrite Htracked0 in *.
  split; [exact Hedits|]. split; [|split].
  - intros n. rewrite Hmarks. split; [tauto|].
    intros [Hn|Hn]; [auto|]. right. split; [apply Hkeys|]; exact Hn.
  - intros u Hu. rewrite (Hframe u Hu). apply Hframe0. exact Hu.
  - intros n Hn. apply Hvalid; [apply Hkeys|]; exact Hn.
Qed.

End TransactionFacts.

Lemma lineAt_Ret document i text :
  lineAt document i = Ret text <-> 0 <= i /\ lines document !! Z.to_nat i = Some text.
Proof.
  unfold lineAt, lineCount.
  destruct (0 <=? i) eqn:Hi; cbn [andb].
  - apply Z.leb_le in Hi.
    destruct (i <? Z.of_nat (length (lines document))) eqn:Hlt.
    + destruct (lines document !! Z.to_nat i) as [l|] eqn:Hl.
      * split; [intros [= <-]; auto|intros [_ [= <-]]; reflexivity].
      * split; [discriminate|intros [_ Hfalse]; discriminate].
    + apply Z.ltb_ge in Hlt. split; [discriminate|]. intros [_ Hl].
      apply lookup_lt_Some in Hl. lia.
  - apply Z.leb_gt in Hi. split; [discriminate|]. intros [Hfalse _]. lia.
Qed.

Lemma commentRun_lookup rest (i : nat) :
  (i < commentRun rest)%nat ->
  exists text, rest !! i = Some text /\ Comments.isComment text = true.
Proof.
  revert i. induction rest as [|l rest IH]; intros i; cbn [commentRun]; [lia|].
  destruct (Comments.isComment l) eqn:Hl; [|lia].
  destruct i as [|i]; [eauto|]. intros Hi. apply IH. lia.
Qed.

Lemma commentRun_ge rest (k : nat) :
  (forall i : nat, (i < k)%nat ->
     exists text, rest !! i = Some text /\ Comments.isComment text = true) ->
  (k <= commentRun rest)%nat.
Proof.
  revert k. induction rest as [|l rest IH]; intros k Hk.
  - destruct k as [|k]; [cbn; lia|].
    destruct (Hk O) as (text & Htext & _); [lia|discriminate].
  - destruct k as [|k]; [lia|]. cbn [commentRun].
    destruct (Hk O) as (text & [= <-] & ->); [lia|].
    apply le_n_S, IH. intros i Hi. apply (Hk (S i)). lia.
Qed.

(** The deletions below line [n]: the lines of the run of explanation
    comments that follows it. *)
Lemma elem_of_deletionsBelow document n d :
  0 <= n ->
  Delete d ∈ deletionsBelow document n
  <-> n < d /\ forall j, n < j <= d -> isCommentAt document j = true.
Proof.
  intros Hn. unfold deletionsBelow.
  set (rest := drop (Z.to_nat (n + 1)) (lines document)).
  assert (Hrest : forall j text, n < j ->
             rest !! Z.to_nat (j - (n + 1)) = Some text
             <-> lineAt document j = Ret text).
  { intros j text Hj. unfold rest. rewrite lookup_drop, lineAt_Ret.
    replace (Z.to_nat (n + 1) + Z.to_nat (j - (n + 1)))%nat with (Z.to_nat j) by lia.
    split; [intros Hl; split; [lia|exact Hl]|intros [_ Hl]; exact Hl]. }
  split.
  - intros (d' & [= <-] & Hd)%list_elem_of_In%in_map_iff.
    apply list_elem_of_In, elem_of_seqZ in Hd. split; [lia|].
    intros j Hj. destruct (commentRun_lookup rest (Z.to_nat (j - (n + 1))))
      as (text & Htext & Hcomment); [lia|].
    apply Hrest in Htext; [|lia]. unfold isCommentAt. rewrite Htext. exact Hcomment.
  - intros [Hd Hall]. apply list_elem_of_In, in_map, list_elem_of_In, elem_of_seqZ.
    assert (Hrun : (Z.to_nat (d - n) <= commentRun rest)%nat).
    { apply commentRun_ge. intros i Hi.
      specialize (Hall (n + 1 + Z.of_nat i)). unfold isCommentAt in Hall.
      destruct (lineAt document (n + 1 + Z.of_nat i)) as [text|msg] eqn:Hline;
        [|discriminate Hall; lia].
      exists text. split; [|apply Hall; lia].
      apply Hrest in Hline; [|lia].
      replace (Z.to_nat (n + 1 + Z.of_nat i - (n + 1))) with i in Hline by lia.
      exact Hline. }
    lia.
Qed.

Section InsertionFacts.
Context `{Host}.
Import Comments.

Lemma explained_in_sortedLines (explanations : gmap Z jsval) n :
  truthy (default undefined (explanations !! n)) = true ->
  n ∈ sortDescending (map fst (map_to_list explanations)).
Proof.
  intros Hn. apply elem_of_sortDescending.
  destruct (explanations !! n) as [v|] eqn:Hv; [|discriminate].
  apply (list_elem_of_fmap_2' fst _ (n, v)); [|reflexivity].
  apply elem_of_map_to_list. exact Hv.
Qed.

Lemma insertComments_deletions editor document explanations inserted inserted' transaction :
  insertCommentsAsExplanations (Some editor) document explanations inserted
  = (inserted', Ret (Some transaction)) ->
  forall d,
    Delete d ∈ transaction
    <-> exists n,
          n ∈ tracked inserted document
          /\ truthy (default undefined (explanations !! n)) = true
          /\ n < d
          /\ forall j, n < j <= d -> isCommentAt document j = true.
Proof.
  intros (-> & _ & _ & Hvalid)%insertComments_run d. split.
  - intros (n & Hn & Hd)%list_elem_of_In%in_flat_map. apply list_elem_of_In in Hd.
    unfold editsFor in Hd.
    destruct (default undefined (explanations !! n)) as [[| | |s| |]|] eqn:Hs;
      try (apply elem_of_nil in Hd; destruct Hd).
    destruct (lineAt document n) as [codeLineText|msg] eqn:Hline;
      [|apply elem_of_nil in Hd; destruct Hd].
    destruct (eqb s []) eqn:Hempty; [apply elem_of_nil in Hd; destruct Hd|].
    apply elem_of_app in Hd as [Hd|Hd]; [|apply list_elem_of_singleton in Hd; discriminate].
    destruct (bool_decide (n ∈ tracked inserted document)) eqn:Htracked;
      [|apply elem_of_nil in Hd; destruct Hd].
    apply bool_decide_eq_true in Htracked. apply lineAt_Ret in Hline as [Hn0 _].
    apply elem_of_deletionsBelow in Hd as [Hlt Hall]; [|exact Hn0].
    exists n. split_and!; auto. rewrite Hs. cbn. rewrite Hempty. reflexivity.
  - intros (n & Htracked & Htruthy & Hlt & Hall).
    apply list_elem_of_In, in_flat_map. exists n.
    split; [apply list_elem_of_In, explained_in_sortedLines; exact Htruthy|].
    apply list_elem_of_In. unfold editsFor.
    destruct (Hvalid n Htruthy) as (s & codeLineText & Hs & Hline).
    rewrite Hs in Htruthy |- *. cbn [default from_option id] in Htruthy |- *.
    rewrite Hline. cbn in Htruthy. apply negb_true_iff in Htruthy. rewrite Htruthy.
    apply elem_of_app. left.
    rewrite bool_decide_eq_true_2 by exact Htracked.
    apply lineAt_Ret in Hline as [Hn0 _].
    apply elem_of_deletionsBelow; auto.
Qed.

End InsertionFacts.

(** The lines that [insertCommentsAsExplanations] deletes are those of
    the runs of explanation comments that follow a line which was marked
    before the call and has an explanation in it: nothing else is
    deleted, and nothing at all below a line that was not marked. *)
Theorem deletes_comments_below_marked_lines `{Host}
    editor document explanations inserted inserted' transaction :
  Comments.insertCommentsAsExplanations (Some editor) document explanations inserted
  = (inserted', Ret (Some transaction)) ->
  forall d,
    Delete d ∈ transaction
    <-> exists n,
          n ∈ tracked inserted document
          /\ truthy (default undefined (explanations !! n)) = true
          /\ n < d
          /\ forall j, n < j <= d -> isCommentAt document j = true.
Proof. apply insertComments_deletions. Qed.

(** After a call of [insertCommentsAsExplanations] the marks of the
    document are those it had and the lines with an explanation, and the
    marks of the other documents are as they were. *)
Theorem marks_grow_by_explained_lines `{Host}
    editor document explanations inserted inserted' transaction :
  Comments.insertCommentsAsExplanations (Some editor) document explanations inserted
  = (inserted', Ret (Some transaction)) ->
  (forall n, n ∈ tracked inserted' document
             <-> n ∈ tracked inserted document
                 \/ truthy (default undefined (explanations !! n)) = true)
  /\ (forall u, u <> uri document -> inserted' !! u = inserted !! u).
Proof.
  intros (_ & Hmarks & Hframe & _)%insertComments_run. split; assumption.
Qed.

Lemma replacement_run :
  Comments.insertCommentsAsExplanations (H := Node.host) (Some commentedEditor)
    commentedLines firstExplained firstMarked
  = (firstMarked, Ret (Some replacement)).
Proof. vm_compute. reflexivity. Qed.

Lemma deletes_comments_below_marked_lines_witness :
  Delete 1 ∈ replacement
  <-> exists n,
        n ∈ tracked firstMarked commentedLines
        /\ truthy (default undefined (firstExplained !! n)) = true
        /\ n < 1
        /\ forall j, n < j <= 1 -> isCommentAt commentedLines j = true.
Proof.
  apply (deletes_comments_below_marked_lines (H := Node.host) commentedEditor
           commentedLines firstExplained firstMarked firstMarked replacement).
  exact replacement_run.
Defined.

Lemma twoLines_run :
  (Comments.insertCommentsAsExplanations (H := Node.host) (Some twoLinesEditor)
     twoLines twoExplanations ∅).1 = bothMarked
  /\ exists transaction,
       (Comments.insertCommentsAsExplanations (H := Node.host) (Some twoLinesEditor)
          twoLines twoExplanations ∅).2 = Ret (Some transaction).
Proof. split; [vm_compute; reflexivity|eexists; vm_compute; reflexivity]. Qed.

Lemma marks_grow_by_explained_lines_witness :
  (forall n, n ∈ tracked bothMarked twoLines
             <-> n ∈ tracked ∅ twoLines
                 \/ truthy (default undefined (twoExplanations !! n)) = true)
  /\ (forall u, u <> uri twoLines
                -> bothMarked !! u = (∅ : gmap jsstring (gset Z)) !! u).
Proof.
  destruct twoLines_run as [Hmarks [transaction Hrun]].
  apply (marks_grow_by_explained_lines (H := Node.host) twoLinesEditor
           twoLines twoExplanations ∅ bothMarked transaction).
  rewrite <- Hmarks, <- Hrun. apply surjective_pairing.
Defined.

(** ** The command on the selection *)

Lemma NoDup_foldl_addLine l set : NoDup set -> NoDup (foldl Comments.addLine set l).
Proof.
  revert set. induction l as [|i l IH]; intros set Hset; [exact Hset|].
  cbn [foldl]. apply IH. unfold Comments.addLine.
  destruct (bool_decide (i ∈ set)) eqn:Hi; [exact Hset|].
  apply bool_decide_eq_false in Hi. apply NoDup_app. split; [exact Hset|].
  split; [|apply NoDup_singleton].
  intros j Hj Hji%list_elem_of_singleton. subst j. exact (Hi Hj).
Qed.

Lemma NoDup_selectedLines selections : NoDup (Comments.selectedLines selections).
Proof.
  unfold Comments.selectedLines.
  assert (Hgen : forall set, NoDup set ->
            NoDup (foldl (fun set selection =>
                            foldl Comments.addLine set
                              (seqZ (line (start selection))
                                 (line (end_ selection) - line (start selection) + 1)))
                         set selections)).
  { induction selections as [|selection selections IH]; intros set Hset; [exact Hset|].
    cbn [foldl]. apply IH, NoDup_foldl_addLine, Hset. }
  apply Hgen. constructor.
Qed.

Lemma isCodeLine_blankOrComment text :
  blankOrComment selectionMarkers text -> Comments.isCodeLine (trim text) = false.
Proof.
  intros Hcomment. destruct (Comments.isCodeLine (trim text)) eqn:Hcode; [|reflexivity].
  apply isCodeLine_not_comment in Hcode. contradiction.
Qed.

(** The line numbers of the units of [interpretSelectedLines] are
    distinct, however the selections overlap. *)
Theorem selected_units_are_distinct editor units :
  Comments.interpretSelectedLines_lines (Some editor) = Ret (Some units) ->
  NoDup (map Comments.lineNumber units).
Proof.
  intros [Hlines _]%interpretSelectedLines_lines_spec. rewrite Hlines.
  apply NoDup_ListNoDup, List.NoDup_filter, NoDup_ListNoDup, NoDup_selectedLines.
Qed.

Lemma selected_units_are_distinct_witness :
  NoDup (map Comments.lineNumber
           [{| Comments.lineNumber := 0; Comments.code := str "x = 10" |};
            {| Comments.lineNumber := 4; Comments.code := str "print(x)" |}]).
Proof.
  apply (selected_units_are_distinct overlappingEditor). vm_compute. reflexivity.
Defined.

Lemma truthy_enteredExplanation explanations i :
  truthy (enteredExplanation explanations i) = true.
Proof.
  unfold enteredExplanation, or_else.
  destruct (truthy (default undefined (explanations !! Some i))) eqn:Htruthy;
    [exact Htruthy|reflexivity].
Qed.

Lemma lineNumberMap_from_lookup rest :
  forall i explanations (m : gmap Z jsval) k,
    (k ∉ map Comments.lineNumber rest ->
     Comments.lineNumberMap_from i rest explanations m !! k = m !! k)
    /\ (k ∈ map Comments.lineNumber rest ->
        exists j : nat,
          (j < length rest)%nat
          /\ Comments.lineNumberMap_from i rest explanations m !! k
             = Some (enteredExplanation explanations (i + Z.of_nat j))).
Proof.
  induction rest as [|unit rest IH]; intros i explanations m k;
    cbn [Comments.lineNumberMap_from map].
  - split; [reflexivity|]. intros Hk. apply elem_of_nil in Hk. destruct Hk.
  - fold (enteredExplanation explanations i).
    destruct (IH (i + 1) explanations
                (<[Comments.lineNumber unit := enteredExplanation explanations i]> m) k)
      as [Hout Hin].
    split.
    + intros Hk. apply not_elem_of_cons in Hk as [Hne Hk].
      rewrite (Hout Hk). apply lookup_insert_ne. congruence.
    + intros Hk.
      destruct (decide (k ∈ map Comments.lineNumber rest)) as [Hrest|Hrest].
      * destruct (Hin Hrest) as (j & Hj & ->). exists (S j). split; [cbn; lia|].
        do 2 f_equal. lia.
      * apply elem_of_cons in Hk as [->|Hk]; [|contradiction].
        exists O. split; [cbn; lia|]. rewrite (Hout Hrest), lookup_insert_eq.
        do 2 f_equal. lia.
Qed.

Lemma lineNumberMap_truthy units explanations k :
  truthy (default undefined
            (Comments.lineNumberMap_from 0 units explanations ∅ !! k)) = true
  <-> k ∈ map Comments.lineNumber units.
Proof.
  destruct (lineNumberMap_from_lookup units 0 explanations ∅ k) as [Hout Hin].
  destruct (decide (k ∈ map Comments.lineNumber units)) as [Hk|Hk].
  - destruct (Hin Hk) as (j & _ & ->). cbn [default from_option id].
    rewrite truthy_enteredExplanation. tauto.
  - rewrite (Hout Hk), lookup_empty. cbn. split; [discriminate|contradiction].
Qed.

Section CommandFacts.
Context `{Host}.
Variable setting : option jsstring.
Variable net : network.
Import Comments.

(** The command on a selection that holds code lines. *)
Lemma interpretSelectedLines_units editor later documentAtInsertion cache inserted
    units :
  interpretSelectedLines_lines (Some editor) = Ret (Some units) ->
  let call := interpretLines setting net (map code units) cache in
  let insertion :=
    insertCommentsAsExplanations later documentAtInsertion
      (lineNumberMap_from 0 units call.1.1 ∅) inserted in
  interpretSelectedLines setting net (Some editor) later documentAtInsertion cache
    inserted
  = Ret {| notices :=
             [Information (str "Interpreted " ++ ofInt (Z.of_nat (length units))
                             ++ str " selected lines.")];
           cacheAfter := call.1.2;
           requestsSent := call.2;
           insertedAfter := insertion.1;
           transaction := insertion.2 |}.
Proof.
  unfold interpretSelectedLines_lines, interpretSelectedLines.
  destruct ((length (Editor.selections editor) =? 0)%nat
            || forallb isEmpty (Editor.selections editor)); [discriminate|].
  destruct (collectCodeLines (Editor.document editor)
              (selectedLines (Editor.selections editor))) as [lines|msg];
    [|discriminate].
  cbn [obind]. destruct (length lines =? 0)%nat; [discriminate|].
  intros [= <-]. cbv zeta.
  destruct (interpretLines setting net (map code lines) cache) as [[r c] q].
  cbn [fst snd].
  destruct (insertCommentsAsExplanations later documentAtInsertion
              (lineNumberMap_from 0 lines r ∅) inserted) as [i t].
  reflexivity.
Qed.

(** The command that finds no code line. *)
Lemma interpretSelectedLines_stops activeTextEditor later documentAtInsertion cache
    inserted :
  interpretSelectedLines_lines activeTextEditor = Ret None ->
  exists message,
    interpretSelectedLines setting net activeTextEditor later documentAtInsertion cache
      inserted
    = Ret (stopped message cache inserted).
Proof.
  unfold interpretSelectedLines_lines, interpretSelectedLines.
  destruct activeTextEditor as [editor|]; [|eauto].
  destruct ((length (Editor.selections editor) =? 0)%nat
            || forallb isEmpty (Editor.selections editor)); [eauto|].
  destruct (collectCodeLines (Editor.document editor)
              (selectedLines (Editor.selections editor))) as [lines|msg];
    [|discriminate].
  cbn [obind]. destruct (length lines =? 0)%nat; [eauto|discriminate].
Qed.

Lemma insertComment_returns document (explanations : gmap Z jsval) n st :
  (truthy (default undefined (explanations !! n)) = true ->
   exists explanation codeLineText,
     explanations !! n = Some (Some (JStr explanation))
     /\ lineAt document n = Ret codeLineText) ->
  exists st', insertComment document explanations n st = (st', Ret tt).
Proof.
  intros Hvalid. unfold insertComment.
  destruct (truthy (default undefined (explanations !! n))) eqn:Htruthy;
    cbn [negb]; [|unfold mret; eauto].
  destruct (Hvalid eq_refl) as (s & codeLineText & Hs & Hline).
  apply lineAt_Ret in Hline as Hn. destruct Hn as [Hn Hlookup].
  apply lookup_lt_Some in Hlookup.
  assert (Hdelete : exists st1, deleteInserted document n st = (st1, Ret tt)).
  { unfold deleteInserted, mbind at 1, insertedSet_has, gets.
    destruct (bool_decide _); [|unfold mret; eauto].
    destruct (n + 1 <? lineCount document) eqn:Hnext; [|unfold mret; eauto].
    apply Z.ltb_lt in Hnext. unfold lineCount in Hnext.
    destruct (lines document !! Z.to_nat (n + 1)) as [l|] eqn:Hl.
    - assert (Hnext' : lineAt document (n + 1) = Ret l)
        by (apply lineAt_Ret; split; [lia|exact Hl]).
      unfold mbind, lift. rewrite Hnext', deleteExplanationLines_run. eauto.
    - apply lookup_ge_None in Hl. lia. }
  destruct Hdelete as [st1 Hdelete].
  unfold mbind at 1. rewrite Hdelete.
  unfold mbind at 1, lift. rewrite Hline.
  rewrite Hs. cbn [default from_option id].
  unfold mbind, mret, addEdit, insertedSet_add, modify. eauto.
Qed.

Lemma forEach_insertComment_returns document (explanations : gmap Z jsval) l :
  (forall n, truthy (default undefined (explanations !! n)) = true ->
     exists explanation codeLineText,
       explanations !! n = Some (Some (JStr explanation))
       /\ lineAt document n = Ret codeLineText) ->
  forall st, exists st',
    forEach (insertComment document explanations) l st = (st', Ret tt).
Proof.
  intros Hvalid. induction l as [|n l IH]; intros st; cbn [forEach].
  - unfold mret. eauto.
  - destruct (insertComment_returns document explanations n st (Hvalid n))
      as [st1 Hturn].
    unfold mbind. rewrite Hturn. apply IH.
Qed.

(** The insertion completes when the active editor shows the document,
    and every explanation is a string and belongs to a line of the
    document. *)
Lemma insertComments_returns editor document (explanations : gmap Z jsval) inserted :
  uri (Editor.document editor) = uri document ->
  (forall n, truthy (default undefined (explanations !! n)) = true ->
     exists explanation codeLineText,
       explanations !! n = Some (Some (JStr explanation))
       /\ lineAt document n = Ret codeLineText) ->
  exists inserted' transaction,
    insertCommentsAsExplanations (Some editor) document explanations inserted
    = (inserted', Ret (Some transaction)).
Proof.
  intros Huri Hvalid. unfold insertCommentsAsExplanations.
  rewrite Huri, eqb_refl. cbn [negb].
  match goal with
  | |- context [forEach ?f ?l ?st] =>
      destruct (forEach_insertComment_returns document explanations l Hvalid st)
        as [st' ->]
  end.
  eauto.
Qed.

(** Nothing is inserted when no editor is active, or when the active
    editor shows another document. *)
Lemma insertComments_elsewhere later document (explanations : gmap Z jsval) inserted :
  later = None
  \/ (exists other, later = Some other
                    /\ uri (Editor.document other) <> uri document) ->
  insertCommentsAsExplanations later document explanations inserted
  = (inserted, Ret None).
Proof.
  intros [->|(other & -> & Hother)]; [reflexivity|].
  unfold insertCommentsAsExplanations.
  apply eqb_neq in Hother. rewrite Hother. reflexivity.
Qed.

Lemma insertComments_insertions editor document explanations inserted inserted'
    transaction :
  insertCommentsAsExplanations (Some editor) document explanations inserted
  = (inserted', Ret (Some transaction)) ->
  forall k, k + 1 ∈ insertionLines transaction
            <-> truthy (default undefined (explanations !! k)) = true.
Proof.
  unfold insertCommentsAsExplanations.
  destruct (negb (eqb (uri (Editor.document editor)) (uri document)));
    [discriminate|].
  match goal with
  | |- context [forEach ?f ?l ?st] => destruct (forEach f l st) as [st' [[]|msg]] eqn:Hloop
  end; [|discriminate].
  intros [= <- <-] k.
  apply forEach_insertComment_spec in Hloop. cbn [edits insertionLines flat_map app] in Hloop.
  rewrite Hloop, list_elem_of_In, in_map_iff. split.
  - intros (k' & Hk' & Hin). assert (k' = k) as -> by lia.
    apply filter_In in Hin. tauto.
  - intros Htruthy. exists k. split; [reflexivity|].
    apply filter_In. split; [|exact Htruthy].
    apply list_elem_of_In, explained_in_sortedLines. exact Htruthy.
Qed.

End CommandFacts.

Lemma collectCodeLines_comments document selected :
  (forall i, i ∈ selected ->
     exists text, lineAt document i = Ret text /\ blankOrComment selectionMarkers text) ->
  Comments.collectCodeLines document selected = Ret [].
Proof.
  induction selected as [|i selected IH]; intros Hall; [reflexivity|].
  cbn [Comments.collectCodeLines].
  destruct (Hall i) as (text & -> & Hcomment); [apply elem_of_cons; left; reflexivity|].
  cbn [obind]. rewrite IH.
  - cbn [obind]. rewrite (isCodeLine_blankOrComment text Hcomment). reflexivity.
  - intros j Hj. apply Hall. apply elem_of_cons. right. exact Hj.
Qed.

(** The command comments every unit once: when the edit callback
    completes, the transaction inserts below the lines of the units and
    nowhere else, whatever the service answered, whichever editor is
    active by then and whatever the document holds by then. *)
Theorem command_comments_every_unit `{Host} setting net editor later documentAtInsertion
    cache inserted units run edits :
  Comments.interpretSelectedLines_lines (Some editor) = Ret (Some units) ->
  Comments.interpretSelectedLines setting net (Some editor) later documentAtInsertion
    cache inserted
  = Ret run ->
  Comments.transaction run = Ret (Some edits) ->
  forall k, k + 1 ∈ insertionLines edits <-> k ∈ map Comments.lineNumber units.
Proof.
  intros Hunits Hrun Hedits k.
  rewrite (interpretSelectedLines_units setting net editor later documentAtInsertion
             cache inserted units Hunits) in Hrun.
  cbv zeta in Hrun. injection Hrun as <-. cbn [Comments.transaction] in Hedits.
  rewrite <- lineNumberMap_truthy.
  destruct later as [shown|]; [|discriminate].
  eapply insertComments_insertions.
  rewrite <- Hedits. apply surjective_pairing.
Qed.

(** When the request of the command fails, the command still completes
    and the cache is as it was.  What is written depends on the editor
    when the answer has arrived.  With no active editor, or with one
    that shows another document, nothing is inserted and the marks stay.
    With an active editor that shows the document, in which the lines of
    the units are still there, a comment with the error message is
    inserted below every unit, indented as its line is by then. *)
Theorem failed_request_is_written_as_comments `{Host} setting net editor later
    documentAtInsertion cache inserted units :
  let codeLines := map Comments.code units in
  Comments.interpretSelectedLines_lines (Some editor) = Ret (Some units) ->
  (Comments.interpretLines setting net codeLines cache).2 <> [] ->
  batchFailure (net (Comments.batchRequest codeLines
                       (Comments.getInterpretationLanguage setting))) ->
  exists run message,
    Comments.interpretSelectedLines setting net (Some editor) later documentAtInsertion
      cache inserted = Ret run
    /\ Comments.cacheAfter run = cache
    /\ (later = None
        \/ (exists other, later = Some other
                          /\ uri (Editor.document other) <> uri documentAtInsertion) ->
        Comments.transaction run = Ret None
        /\ Comments.insertedAfter run = inserted)
    /\ (forall shown,
          later = Some shown ->
          uri (Editor.document shown) = uri documentAtInsertion ->
          Forall (fun unit =>
                    exists codeLineText,
                      lineAt documentAtInsertion (Comments.lineNumber unit)
                      = Ret codeLineText) units ->
          exists edits,
            Comments.transaction run = Ret (Some edits)
            /\ Forall (fun unit =>
                         exists codeLineText,
                           lineAt documentAtInsertion (Comments.lineNumber unit)
                           = Ret codeLineText
                           /\ Insert {| line := Comments.lineNumber unit + 1;
                                        character := 0 |}
                                (Comments.commentText (leadingWhiteSpace codeLineText)
                                   (Comments.getCommentPrefix
                                      (languageId documentAtInsertion))
                                   (Comments.getCommentSuffix
                                      (languageId documentAtInsertion))
                                   (Comments.cleanExplanation
                                      (str "Error: " ++ message)))
                              ∈ edits) units).
Proof.
  intros codeLines Hunits Hsent Hfail.
  destruct (interpretLines_try_sent setting net codeLines cache Hsent)
    as (st1 & _ & _ & Htry).
  destruct (batchFailure_throws setting net codeLines st1 Hfail) as (st2 & msg & Hthrow).
  rewrite Hthrow in Htry.
  pose proof (interpretLines_throw setting net codeLines cache _ _ Htry) as Herror.
  pose proof (interpretLines_try_cache setting net codeLines (Comments.initial cache))
    as [_ Hcache].
  specialize (Hcache msg). rewrite Htry in Hcache. specialize (Hcache eq_refl).
  cbn [fst Comments.interpretationCache Comments.initial] in Hcache.
  pose proof (interpretLines_cache setting net codeLines cache) as Hafter.
  rewrite Htry in Hafter. cbn [fst] in Hafter. rewrite Hcache in Hafter.
  clear Hcache. rename Hafter into Hcache.
  set (call := Comments.interpretLines setting net codeLines cache) in *.
  set (lineNumberMap := Comments.lineNumberMap_from 0 units call.1.1 ∅).
  (* every entry of the map is the error string *)
  assert (Hentries : forall k,
             k ∈ map Comments.lineNumber units ->
             lineNumberMap !! k
             = Some (Some (JStr (str "Error: " ++ Comments.reportedMessage msg)))).
  { intros k Hk.
    destruct (lineNumberMap_from_lookup units 0 call.1.1 ∅ k) as [_ Hin].
    destruct (Hin Hk) as (j & Hj & Hlookup). unfold lineNumberMap. rewrite Hlookup.
    unfold enteredExplanation. replace (0 + Z.of_nat j) with (Z.of_nat j) by lia.
    rewrite (Herror j) by (unfold codeLines; rewrite length_map; exact Hj).
    reflexivity. }
  eexists _, (Comments.reportedMessage msg).
  split.
  { apply (interpretSelectedLines_units setting net editor later documentAtInsertion
             cache inserted units Hunits). }
  cbv zeta. cbn [Comments.cacheAfter Comments.transaction Comments.insertedAfter].
  fold codeLines. fold call. fold lineNumberMap.
  split; [exact Hcache|]. split.
  { intros Helsewhere.
    rewrite (insertComments_elsewhere later documentAtInsertion lineNumberMap inserted
               Helsewhere).
    split; reflexivity. }
  intros shown -> Huri Htexts.
  assert (Hvalid : forall n,
             truthy (default undefined (lineNumberMap !! n)) = true ->
             exists explanation codeLineText,
               lineNumberMap !! n = Some (Some (JStr explanation))
               /\ lineAt documentAtInsertion n = Ret codeLineText).
  { intros n Hn. apply lineNumberMap_truthy in Hn.
    rewrite (Hentries n Hn).
    apply list_elem_of_In, in_map_iff in Hn as (unit & <- & Hunit).
    rewrite Forall_forall in Htexts.
    destruct (Htexts unit) as (text & Htext); [apply list_elem_of_In; exact Hunit|].
    eauto. }
  destruct (insertComments_returns shown documentAtInsertion lineNumberMap inserted
              Huri Hvalid)
    as (inserted' & edits & Hinsertion).
  exists edits. rewrite Hinsertion. cbn [snd]. split; [reflexivity|].
  apply insertComments_run in Hinsertion as (-> & _).
  rewrite Forall_forall in Htexts |- *. intros unit Hunit.
  destruct (Htexts unit Hunit) as (text & Htext).
  exists text. split; [exact Htext|].
  apply list_elem_of_In, in_flat_map. exists (Comments.lineNumber unit).
  assert (Hk : Comments.lineNumber unit ∈ map Comments.lineNumber units).
  { apply list_elem_of_In, in_map, list_elem_of_In, Hunit. }
  split.
  { apply list_elem_of_In, explained_in_sortedLines.
    rewrite (Hentries _ Hk). reflexivity. }
  apply list_elem_of_In. unfold editsFor.
  rewrite (Hentries _ Hk). cbn [default from_option id]. rewrite Htext.
  replace (eqb (str "Error: " ++ Comments.reportedMessage msg) []) with false
    by (symmetry; apply eqb_neq; discriminate).
  apply elem_of_app. right. apply list_elem_of_singleton. reflexivity.
Qed.

(** The command that has nothing to interpret shows a message and does
    nothing else: it sends no request, leaves the cache and the marks as
    they were and edits nothing.  That is so when every selected line is
    blank or a comment. *)
Theorem command_without_code_lines_does_nothing `{Host} setting net later
    documentAtInsertion cache inserted :
  (forall activeTextEditor,
      Comments.interpretSelectedLines_lines activeTextEditor = Ret None ->
      exists message,
        Comments.interpretSelectedLines setting net activeTextEditor later
          documentAtInsertion cache inserted
        = Ret (Comments.stopped message cache inserted))
  /\ (forall editor,
        Exists (fun selection => isEmpty selection = false) (Editor.selections editor) ->
        (forall i, i ∈ Comments.selectedLines (Editor.selections editor) ->
           exists text,
             lineAt (Editor.document editor) i = Ret text
             /\ blankOrComment selectionMarkers text) ->
        Comments.interpretSelectedLines setting net (Some editor) later
          documentAtInsertion cache inserted
        = Ret (Comments.stopped
                 (Comments.Information (str "No code lines found in selection."))
                 cache inserted)).
Proof.
  split.
  - intros activeTextEditor. apply interpretSelectedLines_stops.
  - intros editor Hselected Hcomments. unfold Comments.interpretSelectedLines.
    replace ((length (Editor.selections editor) =? 0)%nat
             || forallb isEmpty (Editor.selections editor)) with false.
    + rewrite collectCodeLines_comments by exact Hcomments. reflexivity.
    + symmetry. apply orb_false_iff. split.
      * apply Nat.eqb_neq. intros Hlen.
        destruct (Editor.selections editor); [inversion Hselected|discriminate].
      * apply not_true_is_false. intros Hall. rewrite forallb_forall in Hall.
        apply Exists_exists in Hselected as (selection & Hin & Hne).
        apply list_elem_of_In, Hall in Hin. congruence.
Qed.

Lemma pythonUnits_selected :
  Comments.interpretSelectedLines_lines (Some pythonEditor) = Ret (Some pythonUnits).
Proof. vm_compute. reflexivity. Qed.

Lemma pythonEditor_run :
  exists run edits,
    Comments.interpretSelectedLines (H := Node.host) None net500 (Some pythonEditor)
      (Some pythonEditor) pythonLines ∅ ∅ = Ret run
    /\ Comments.transaction run = Ret (Some edits)
    /\ insertionLines edits = [5; 1].
Proof. eexists _, _. vm_compute. split_and!; reflexivity. Qed.

Lemma command_comments_every_unit_witness :
  4 + 1 ∈ [5; 1] <-> 4 ∈ map Comments.lineNumber pythonUnits.
Proof.
  destruct pythonEditor_run as (run & edits & Hrun & Hedits & <-).
  apply (command_comments_every_unit (H := Node.host) None net500 pythonEditor
           (Some pythonEditor) pythonLines ∅ ∅ pythonUnits run edits
           pythonUnits_selected Hrun Hedits 4).
Defined.

Lemma failed_request_is_written_as_comments_witness :
  exists run message edits,
    Comments.interpretSelectedLines (H := Node.host) None net500 (Some pythonEditor)
      (Some pythonEditorIndented) pythonLinesIndented ∅ ∅ = Ret run
    /\ Comments.cacheAfter run = ∅
    /\ Comments.transaction run = Ret (Some edits)
    /\ Forall (fun unit =>
                 exists codeLineText,
                   lineAt pythonLinesIndented (Comments.lineNumber unit)
                   = Ret codeLineText
                   /\ Insert {| line := Comments.lineNumber unit + 1; character := 0 |}
                        (Comments.commentText (leadingWhiteSpace codeLineText)
                           (Comments.getCommentPrefix (languageId pythonLinesIndented))
                           (Comments.getCommentSuffix (languageId pythonLinesIndented))
                           (Comments.cleanExplanation (str "Error: " ++ message)))
                      ∈ edits) pythonUnits.
Proof.
  destruct (failed_request_is_written_as_comments (H := Node.host) None net500
              pythonEditor (Some pythonEditorIndented) pythonLinesIndented ∅ ∅
              pythonUnits pythonUnits_selected)
    as (run & message & Hrun & Hcache & _ & Hshown).
  - vm_compute. discriminate.
  - eapply HttpErrorStatus; reflexivity.
  - destruct (Hshown pythonEditorIndented eq_refl eq_refl) as (edits & Hedits & Hall).
    + repeat constructor; eexists; reflexivity.
    + exists run, message, edits. split_and!; assumption.
Defined.

Lemma command_without_code_lines_does_nothing_witness :
  Comments.interpretSelectedLines (H := Node.host) None net500 (Some commentsEditor)
    (Some commentsEditor) pythonLines ∅ ∅
  = Ret (Comments.stopped
           (Comments.Information (str "No code lines found in selection.")) ∅ ∅).
Proof.
  apply (proj2 (command_without_code_lines_does_nothing (H := Node.host) None net500
                  (Some commentsEditor) pythonLines ∅ ∅)).
  - apply Exists_cons_hd. reflexivity.
  - intros i Hi. change (i ∈ [1; 2; 3]) in Hi.
    rewrite !elem_of_cons, elem_of_nil in Hi.
    destruct Hi as [->|[->|[->|[]]]]; eexists; (split; [reflexivity|]).
    + right. exists (str "#"). split; [|reflexivity].
      unfold selectionMarkers. rewrite !elem_of_cons. auto 10.
    + left. reflexivity.
    + right. exists (str "//"). split; [|reflexivity].
      unfold selectionMarkers. rewrite !elem_of_cons. auto.
Defined.

(** ** The hints of the code lines *)

Lemma steady_mret {S A} (a : A) : steady (@mret S A a).
Proof. intros st. reflexivity. Qed.

Lemma steady_mthrow {S A} msg : steady (@mthrow S A msg).
Proof. intros st. reflexivity. Qed.

Lemma steady_lift {S A} (o : outcome A) : steady (@lift S A o).
Proof. intros st. reflexivity. Qed.

Lemma steady_mbind {S A B} (m : M S A) (f : A -> M S B) :
  steady m -> (forall a, steady (f a)) -> steady (mbind m f).
Proof.
  intros Hm Hf st. specialize (Hm st). unfold mbind.
  destruct (m st) as [st1 [a|msg]]; cbn [fst] in Hm; subst st1; [apply Hf|reflexivity].
Qed.

Lemma gives_mret {S A} (P : A -> Prop) a : P a -> gives P (@mret S A a).
Proof. intros Ha st st' b [= <- <-]. exact Ha. Qed.

Lemma gives_mthrow {S A} (P : A -> Prop) msg : gives P (@mthrow S A msg).
Proof. intros st st' b. discriminate. Qed.

Lemma gives_mbind {S A B} (P : B -> Prop) (m : M S A) (f : A -> M S B) :
  (forall a, gives P (f a)) -> gives P (mbind m f).
Proof.
  intros Hf st st' b. unfold mbind.
  destruct (m st) as [st1 [a|msg]]; [apply Hf|discriminate].
Qed.

Lemma gives_try_catch {S A} (P : A -> Prop) (m : M S A) h :
  gives P m -> (forall msg, gives P (h msg)) -> gives P (try_catch m h).
Proof.
  intros Hm Hh st st' b. unfold try_catch.
  destruct (m st) as [st1 [a|msg]] eqn:Hrun; [|apply Hh].
  intros [= <- <-]. eapply Hm. exact Hrun.
Qed.

Section HintCacheFacts.
Context `{Host}.
Variable setting : option jsstring.
Import Hints.

Lemma steady_throw_new_Error {A} v : steady (@throw_new_Error _ A v).
Proof.
  unfold throw_new_Error. apply steady_mbind; [apply steady_lift|].
  intros msg. apply steady_mthrow.
Qed.

Lemma gives_throw_new_Error {A} (P : A -> Prop) v : gives P (@throw_new_Error _ A v).
Proof. unfold throw_new_Error. apply gives_mbind. intros msg. apply gives_mthrow. Qed.

(** [interpretLine] gives an explanation that is not falsy. *)
Lemma interpretLine_truthy net codeLine lineNumber :
  gives (fun explanation => truthy (Some explanation) = true)
        (interpretLine setting net codeLine lineNumber).
Proof.
  unfold interpretLine.
  apply gives_try_catch; [|intros msg; apply gives_mret; reflexivity].
  apply gives_mbind. intros response. apply gives_mbind. intros _.
  apply gives_mbind. intros data. apply gives_mbind. intros error.
  apply gives_mbind. intros _. apply gives_mbind. intros explanation.
  apply gives_mret. destruct (truthy explanation) eqn:Ht; [|reflexivity].
  destruct explanation as [v|]; [exact Ht|discriminate].
Qed.

(** [interpretLine] sends one request and changes nothing else. *)
Lemma interpretLine_asks net codeLine lineNumber st :
  (interpretLine setting net codeLine lineNumber st).1
  = asked st (lineRequest setting codeLine).
Proof.
  unfold interpretLine, try_catch, mbind at 1, fetch.
  fold (lineRequest setting codeLine). fold (asked st (lineRequest setting codeLine)).
  destruct (net (lineRequest setting codeLine)) as [msg|response]; [reflexivity|].
  match goal with
  | |- (match ?m ?s with _ => _ end).1 = _ =>
      assert (Hsteady : steady m);
      [|specialize (Hsteady s); destruct (m s) as [s' [a|msg]];
        cbn [fst] in Hsteady; subst s'; reflexivity]
  end.
  apply steady_mbind.
  { destruct (negb (ok response)); [|apply steady_mret].
    apply steady_mbind; [apply steady_lift|intros errorData].
    apply steady_mbind; [apply steady_lift|intros error].
    apply steady_throw_new_Error. }
  intros _. apply steady_mbind; [apply steady_lift|intros data].
  apply steady_mbind; [apply steady_lift|intros error].
  apply steady_mbind.
  { destruct (truthy error); [apply steady_throw_new_Error|apply steady_mret]. }
  intros _. apply steady_mbind; [apply steady_lift|intros explanation].
  apply steady_mret.
Qed.

Lemma interpretLine_spec net codeLine lineNumber st :
  exists explanation,
    interpretLine setting net codeLine lineNumber st
    = (asked st (lineRequest setting codeLine), Ret explanation)
    /\ truthy (Some explanation) = true.
Proof.
  destruct (interpretLine_returns setting net codeLine lineNumber st)
    as (st' & explanation & Hrun).
  pose proof (interpretLine_asks net codeLine lineNumber st) as Hstate.
  rewrite Hrun in Hstate. cbn [fst] in Hstate. subst st'.
  exists explanation. split; [exact Hrun|].
  eapply interpretLine_truthy. exact Hrun.
Qed.

(** The state after the explanation [e] has been asked for and cached. *)
Lemma explanationFor_spec net documentUri i lineText st :
  let key := hintKey setting documentUri i lineText in
  (exists e, interpretationCache st !! key = Some e
             /\ truthy (Some e) = true
             /\ explanationFor setting net documentUri i lineText st = (st, Ret (Some e)))
  \/ (truthy (interpretationCache st !! key) = false
      /\ exists e,
           truthy (Some e) = true
           /\ explanationFor setting net documentUri i lineText st
              = ({| isAutoInterpretEnabled := isAutoInterpretEnabled st;
                    interpretationCache := <[key := e]> (interpretationCache st);
                    requests := requests st ++ [lineRequest setting lineText] |},
                 Ret (Some e))).
Proof.
  intros key. unfold explanationFor.
  fold (hintKey setting documentUri i lineText). fold key.
  destruct (truthy (interpretationCache st !! key)) eqn:Htruthy.
  - left. destruct (interpretationCache st !! key) as [e|] eqn:He; [|discriminate].
    exists e. split_and!; [reflexivity|exact Htruthy|].
    unfold mbind, cache_get, gets. rewrite He, Htruthy. reflexivity.
  - right. split; [reflexivity|].
    destruct (interpretLine_spec net lineText (i + 1) st) as (e & Hrun & He).
    exists e. split; [exact He|].
    unfold mbind at 1, cache_get, gets. cbv beta. rewrite Htruthy. cbn [negb].
    unfold try_catch, mbind. rewrite Hrun.
    unfold cache_set, modify, mret. reflexivity.
Qed.

Lemma allTruthy_falsy cache key :
  allTruthy cache -> truthy (cache !! key) = false -> cache !! key = None.
Proof.
  intros Hall Hfalsy. destruct (cache !! key) as [e|] eqn:He; [|reflexivity].
  rewrite (Hall key e He) in Hfalsy. discriminate.
Qed.

Lemma explanationFor_hit net documentUri i lineText st e :
  interpretationCache st !! hintKey setting documentUri i lineText = Some e ->
  truthy (Some e) = true ->
  explanationFor setting net documentUri i lineText st = (st, Ret (Some e)).
Proof.
  intros Hcached He.
  destruct (explanationFor_spec net documentUri i lineText st)
    as [(e' & Hcached' & _ & ->)|(Hfalsy & _)].
  - congruence.
  - rewrite Hcached, He in Hfalsy. discriminate.
Qed.

(** One line: afterwards the cache holds its explanation, and at most
    one request has been sent. *)
Lemma explanationFor_step net documentUri i lineText st :
  allTruthy (interpretationCache st) ->
  exists st1 e,
    explanationFor setting net documentUri i lineText st = (st1, Ret (Some e))
    /\ truthy (Some e) = true
    /\ interpretationCache st1 !! hintKey setting documentUri i lineText = Some e
    /\ interpretationCache st ⊆ interpretationCache st1
    /\ allTruthy (interpretationCache st1).
Proof.
  intros Hall.
  destruct (explanationFor_spec net documentUri i lineText st)
    as [(e & Hcached & He & ->)|(Hfalsy & e & He & ->)].
  - exists st, e. split_and!; auto.
  - eexists _, e. split; [reflexivity|]. cbn [interpretationCache].
    apply allTruthy_falsy in Hfalsy; [|exact Hall].
    split_and!; [exact He|apply lookup_insert_eq|apply insert_subseteq; exact Hfalsy|].
    apply map_Forall_insert_2; [exact He|exact Hall].
Qed.

(** The loop of [provideInlayHints] from line [i] on: the cache grows,
    and the hints are found again, without a request, in every state
    whose cache holds the entries of the cache that the loop left. *)
Lemma hintsFrom_replay net documentUri rest :
  forall i hints st st' hints',
    allTruthy (interpretationCache st) ->
    hintsFrom setting net documentUri i rest hints st = (st', Ret hints') ->
    exists new,
      hints' = hints ++ new
      /\ interpretationCache st ⊆ interpretationCache st'
      /\ allTruthy (interpretationCache st')
      /\ (forall net' hints0 t,
            interpretationCache st' ⊆ interpretationCache t ->
            hintsFrom setting net' documentUri i rest hints0 t
            = (t, Ret (hints0 ++ new))).
Proof.
  induction rest as [|lineText0 rest IH]; intros i hints st st' hints' Hall.
  - cbn [hintsFrom]. intros [= <- <-]. exists []. rewrite app_nil_r.
    split_and!; [reflexivity|reflexivity|exact Hall|].
    intros net' hints0 t _. rewrite app_nil_r. reflexivity.
  - cbn [hintsFrom]. destruct (i <? 100).
    2:{ intros [= <- <-]. exists []. rewrite app_nil_r.
        split_and!; [reflexivity|reflexivity|exact Hall|].
        intros net' hints0 t _. rewrite app_nil_r. reflexivity. }
    destruct (isSkipped (trim lineText0)); [apply IH; exact Hall|].
    unfold mbind at 1.
    destruct (explanationFor_step net documentUri i (trim lineText0) st Hall)
      as (st1 & e & -> & He & Hcached & Hsub1 & Hall1).
    unfold mbind at 1, lift.
    destruct (ToString e) as [text|msg] eqn:Htext; [|discriminate].
    intros Hloop. apply IH in Hloop as (new & -> & Hsub & Hall' & Hreplay);
      [|exact Hall1].
    eexists. rewrite <- app_assoc. split; [reflexivity|].
    split_and!; [etrans; eassumption|exact Hall'|].
    intros net' hints0 t Ht. unfold mbind at 1.
    rewrite (explanationFor_hit net' documentUri i (trim lineText0) t e); [|
      eapply lookup_weaken; [|exact Ht]; eapply lookup_weaken; eassumption|exact He].
    unfold mbind at 1, lift. rewrite Htext.
    rewrite Hreplay by exact Ht. rewrite <- app_assoc. reflexivity.
Qed.

(** The requests of the loop: at most one for a hint, and no more than
    100 hints. *)
Lemma hintsFrom_cost net documentUri rest :
  forall i hints st st' hints',
    hintsFrom setting net documentUri i rest hints st = (st', Ret hints') ->
    exists new sent,
      hints' = hints ++ new
      /\ requests st' = requests st ++ sent
      /\ (length sent <= length new)%nat
      /\ Z.of_nat (length new) <= Z.max 0 (100 - i).
Proof.
  induction rest as [|lineText0 rest IH]; intros i hints st st' hints'.
  - cbn [hintsFrom]. intros [= <- <-]. exists [], []. rewrite !app_nil_r.
    split_and!; [reflexivity|reflexivity|reflexivity|cbn; lia].
  - cbn [hintsFrom]. destruct (i <? 100) eqn:Hcap.
    2:{ intros [= <- <-]. exists [], []. rewrite !app_nil_r.
        split_and!; [reflexivity|reflexivity|reflexivity|cbn; lia]. }
    apply Z.ltb_lt in Hcap.
    destruct (isSkipped (trim lineText0)).
    { intros Hloop. apply IH in Hloop as (new & sent & -> & Hsent & Hle & Hcount).
      exists new, sent. split_and!; auto. lia. }
    unfold mbind at 1.
    assert (Hstep : exists st1 e sent1,
               explanationFor setting net documentUri i (trim lineText0) st
               = (st1, Ret (Some e))
               /\ requests st1 = requests st ++ sent1 /\ (length sent1 <= 1)%nat).
    { destruct (explanationFor_spec net documentUri i (trim lineText0) st)
        as [(e & _ & _ & ->)|(_ & e & _ & ->)].
      - exists st, e, []. rewrite app_nil_r. split_and!; auto.
      - eexists _, e, [_]. split_and!; [reflexivity|reflexivity|cbn; lia]. }
    destruct Hstep as (st1 & e & sent1 & -> & Hsent1 & Hle1).
    unfold mbind at 1, lift.
    destruct (ToString e) as [text|msg]; [|discriminate].
    intros Hloop. apply IH in Hloop as (new & sent & -> & Hsent & Hle & Hcount).
    eexists (_ :: new), (sent1 ++ sent). rewrite <- app_assoc.
    split_and!; [reflexivity|rewrite Hsent, Hsent1, <- app_assoc; reflexivity| |].
    + rewrite length_app. cbn [length]. lia.
    + cbn [length]. lia.
Qed.

End HintCacheFacts.



(** A call of [provideInlayHints] on the state that an earlier call for
    the document left gives the same hints from the cache: it sends no
    request and changes nothing, whatever the service would answer. *)
Theorem hints_are_replayed_from_cache `{Host} setting net document st st' hints :
  allTruthy (Hints.interpretationCache st) ->
  Hints.provideInlayHints setting net document st = (st', Ret hints) ->
  allTruthy (Hints.interpretationCache st')
  /\ forall net', Hints.provideInlayHints setting net' document st' = (st', Ret hints).
Proof.
  intros Hall. unfold Hints.provideInlayHints, mbind, gets.
  destruct (Hints.isAutoInterpretEnabled st) eqn:Henabled; cbn [negb].
  - intros Hloop.
    assert (Henabled' : Hints.isAutoInterpretEnabled st' = true).
    { clear Hall. revert Hloop. generalize (@nil Hints.InlayHint).
      generalize 0. revert st Henabled.
      induction (lines document) as [|lineText0 rest IH]; intros st Henabled i hints0.
      - intros [= <- _]. exact Henabled.
      - cbn [Hints.hintsFrom]. destruct (i <? 100); [|intros [= <- _]; exact Henabled].
        destruct (Hints.isSkipped (trim lineText0)); [apply IH; exact Henabled|].
        unfold mbind at 1.
        destruct (explanationFor_spec setting net (uri document) i (trim lineText0) st)
          as [(e & _ & _ & ->)|(_ & e & _ & ->)];
          unfold mbind at 1, lift; (destruct (ToString e); [|discriminate]);
          apply IH; exact Henabled. }
    apply hintsFrom_replay in Hloop as (new & -> & _ & Hall' & Hreplay); [|exact Hall].
    split; [exact Hall'|]. intros net'. rewrite Henabled'. cbn [negb].
    apply (Hreplay net' []). reflexivity.
  - unfold mret. intros [= <- <-]. split; [exact Hall|].
    intros net'. rewrite Henabled. reflexivity.
Qed.

(** A call of [provideInlayHints] sends at most one request for a hint
    that it gives, and gives no more than 100 hints. *)
Theorem requests_bounded_by_hints `{Host} setting net document st st' hints :
  Hints.provideInlayHints setting net document st = (st', Ret hints) ->
  exists sent,
    Hints.requests st' = Hints.requests st ++ sent
    /\ (length sent <= length hints <= 100)%nat.
Proof.
  unfold Hints.provideInlayHints, mbind, gets.
  destruct (Hints.isAutoInterpretEnabled st); cbn [negb].
  - intros Hloop. apply hintsFrom_cost in Hloop as (new & sent & -> & Hsent & Hle & Hcount).
    exists sent. cbn [app]. split; [exact Hsent|]. lia.
  - unfold mret. intros [= <- <-]. exists []. rewrite app_nil_r.
    split; [reflexivity|cbn; lia].
Qed.

Lemma pythonLines_hints :
  (Hints.provideInlayHints (H := Node.host) None netExplains pythonLines
     autoInterpreting).2
  = Ret (hintsOf (Hints.provideInlayHints (H := Node.host) None netExplains pythonLines
                    autoInterpreting)).
Proof. vm_compute. reflexivity. Qed.


Lemma hints_are_replayed_from_cache_witness :
  let first :=
    Hints.provideInlayHints (H := Node.host) None netExplains pythonLines
      autoInterpreting in
  allTruthy (Hints.interpretationCache first.1)
  /\ forall net',
       Hints.provideInlayHints (H := Node.host) None net' pythonLines first.1
       = (first.1, Ret (hintsOf first)).
Proof.
  apply (hints_are_replayed_from_cache (H := Node.host) None netExplains pythonLines
           autoInterpreting).
  - apply map_Forall_empty.
  - apply hintsOf_ret, pythonLines_hints.
Defined.

Lemma requests_bounded_by_hints_witness :
  let first :=
    Hints.provideInlayHints (H := Node.host) None netExplains pythonLines
      autoInterpreting in
  exists sent,
    Hints.requests first.1 = Hints.requests autoInterpreting ++ sent
    /\ (length sent <= length (hintsOf first) <= 100)%nat.
Proof.
  apply (requests_bounded_by_hints (H := Node.host) None netExplains pythonLines
           autoInterpreting).
  apply hintsOf_ret, pythonLines_hints.
Defined.

(** ** The keys of the cache *)






Section HintRequestFacts.
Context `{Host}.
Variable setting : option jsstring.
Import Hints.




End HintRequestFacts.



(** ** Changes of the document *)

Lemma foldl_delete_lookup (cache : gmap jsstring json) keys k :
  foldl (fun cache key => delete key cache) cache keys !! k
  = if bool_decide (k ∈ keys) then None else cache !! k.
Proof.
  revert cache. induction keys as [|key keys IH]; intros cache; cbn [foldl].
  - rewrite bool_decide_eq_false_2 by apply not_elem_of_nil. reflexivity.
  - rewrite IH. destruct (decide (k ∈ keys)) as [Hk|Hk].
    + rewrite !bool_decide_eq_true_2; [reflexivity|apply elem_of_cons; auto|exact Hk].
    + rewrite (bool_decide_eq_false_2 _ Hk).
      destruct (decide (k = key)) as [->|Hne].
      * rewrite lookup_delete_eq, bool_decide_eq_true_2; [reflexivity|].
        apply elem_of_cons. left. reflexivity.
      * rewrite lookup_delete_ne by congruence.
        rewrite bool_decide_eq_false_2; [reflexivity|].
        intros [?|?]%elem_of_cons; contradiction.
Qed.

Lemma deleteLineKeys_lookup cache i k :
  Hints.deleteLineKeys cache i !! k
  = if includes k (lineMarker i) then None else cache !! k.
Proof.
  unfold Hints.deleteLineKeys. rewrite foldl_delete_lookup.
  fold (lineMarker i).
  destruct (includes k (lineMarker i)) eqn:Hmarker.
  - destruct (cache !! k) as [v|] eqn:Hk.
    + rewrite bool_decide_eq_true_2; [reflexivity|].
      apply list_elem_of_In, filter_In. split; [|exact Hmarker].
      apply list_elem_of_In. apply (list_elem_of_fmap_2' fst _ (k, v)); [|reflexivity].
      apply elem_of_map_to_list. exact Hk.
    + destruct (bool_decide _); reflexivity.
  - rewrite bool_decide_eq_false_2; [reflexivity|].
    intros [_ Hin]%list_elem_of_In%filter_In. congruence.
Qed.

Lemma foldl_deleteLineKeys_lookup changed cache k :
  foldl Hints.deleteLineKeys cache changed !! k
  = if existsb (fun i => includes k (lineMarker i)) changed then None else cache !! k.
Proof.
  revert cache. induction changed as [|i changed IH]; intros cache; [reflexivity|].
  cbn [foldl existsb]. rewrite IH, deleteLineKeys_lookup.
  destruct (includes k (lineMarker i)); cbn [orb]; [|reflexivity].
  destruct (existsb _ changed); reflexivity.
Qed.

Lemma foldl_deleteChangedKeys contentChanges cache :
  foldl Hints.deleteChangedKeys cache contentChanges
  = foldl Hints.deleteLineKeys cache (changedLines contentChanges).
Proof.
  revert cache. induction contentChanges as [|change contentChanges IH]; intros cache;
    [reflexivity|].
  cbn [foldl]. unfold changedLines. cbn [flat_map]. rewrite foldl_app.
  apply IH.
Qed.

Lemma includes_hintKey setting documentUri i lineText :
  includes (hintKey setting documentUri i lineText) (lineMarker i) = true.
Proof.
  unfold hintKey, lineMarker. apply includes_skip.
  replace (str ":" ++ ofInt i ++ str ":" ++ lineText ++ str ":"
             ++ Hints.getInterpretationLanguage setting)
    with ((str ":" ++ ofInt i ++ str ":")
            ++ (lineText ++ str ":" ++ Hints.getInterpretationLanguage setting))
    by (rewrite <- !app_assoc; reflexivity).
  apply includes_app.
Qed.

Lemma onDidChangeTextDocument_cache document contentChanges editor later st :
  Hints.isAutoInterpretEnabled (Hints.hint st) = true ->
  uri document = uri (Editor.document editor) ->
  Hints.hint (Hints.onDidChangeTextDocument document contentChanges (Some editor) later st)
  = {| Hints.isAutoInterpretEnabled := true;
       Hints.interpretationCache :=
         foldl Hints.deleteLineKeys (Hints.interpretationCache (Hints.hint st))
           (changedLines contentChanges);
       Hints.requests := Hints.requests (Hints.hint st) |}.
Proof.
  intros Henabled Huri. unfold Hints.onDidChangeTextDocument.
  rewrite Henabled, Huri, eqb_refl. cbn [andb].
  cbn [Hints.with_refresh Hints.with_cache Hints.hint Hints.isAutoInterpretEnabled].
  rewrite Henabled, foldl_deleteChangedKeys. reflexivity.
Qed.

(** When a document changes in the active editor while auto
    interpretation is on, the cache loses the entries whose key holds
    the number of a changed line between two colons, and no other
    entry; so it loses the explanations of the changed lines. *)
Theorem changed_lines_are_forgotten document contentChanges editor later st :
  let after :=
    Hints.hint (Hints.onDidChangeTextDocument document contentChanges (Some editor)
                  later st) in
  Hints.isAutoInterpretEnabled (Hints.hint st) = true ->
  uri document = uri (Editor.document editor) ->
  (forall k,
      Hints.interpretationCache after !! k
      = if existsb (fun i => includes k (lineMarker i)) (changedLines contentChanges)
        then None
        else Hints.interpretationCache (Hints.hint st) !! k)
  /\ (forall setting documentUri i lineText,
        i ∈ changedLines contentChanges ->
        Hints.interpretationCache after !! hintKey setting documentUri i lineText = None).
Proof.
  intros after Henabled Huri. unfold after.
  rewrite onDidChangeTextDocument_cache by assumption. cbn [Hints.interpretationCache].
  split.
  - intros k. apply foldl_deleteLineKeys_lookup.
  - intros setting documentUri i lineText Hi. rewrite foldl_deleteLineKeys_lookup.
    replace (existsb _ (changedLines contentChanges)) with true; [reflexivity|].
    symmetry. apply existsb_exists. exists i.
    split; [apply list_elem_of_In; exact Hi|apply includes_hintKey].
Qed.


Lemma changed_lines_are_forgotten_witness :
  let after :=
    Hints.hint (Hints.onDidChangeTextDocument pythonLines lastLineChanged
                  (Some pythonEditor) (Some pythonEditor) watching) in
  (forall k,
      Hints.interpretationCache after !! k
      = if existsb (fun i => includes k (lineMarker i)) (changedLines lastLineChanged)
        then None
        else Hints.interpretationCache (Hints.hint watching) !! k)
  /\ (forall setting documentUri i lineText,
        i ∈ changedLines lastLineChanged ->
        Hints.interpretationCache after !! hintKey setting documentUri i lineText = None).
Proof.
  apply (changed_lines_are_forgotten pythonLines lastLineChanged pythonEditor
           (Some pythonEditor) watching); reflexivity.
Defined.



(** ** The switch *)

Lemma consistent_handle st e : consistent st -> consistent (handle st e).
Proof.
  destruct st as [[enabled cache sent] provider registered text tooltip background
                    refreshed shown].
  unfold consistent. cbn. intros (-> & -> & -> & ->).
  destruct e as [setting editor|affects setting editor|editor|document changes editor later];
    cbn [handle].
  - unfold Hints.toggleAutoInterpret. cbn. destruct enabled; cbn; auto.
  - unfold Hints.onDidChangeConfiguration. destruct affects; [|cbn; auto].
    cbn. destruct enabled; [destruct editor|]; cbn; auto.
  - unfold Hints.onDidChangeActiveTextEditor. cbn. destruct enabled; cbn; auto.
  - unfold Hints.onDidChangeTextDocument. cbn. destruct enabled; cbn; [|auto].
    destruct editor as [editor|]; [|cbn; auto].
    destruct (eqb _ _); cbn; auto.
Qed.

(** Whatever happens after the activation, the status bar reads
    [Interpretation On] exactly while auto interpretation is on, and
    exactly then one provider of hints is registered, never two. *)
Theorem status_bar_shows_the_switch events :
  consistent (foldl handle Hints.activated events).
Proof.
  assert (Hgen : forall st, consistent st -> consistent (foldl handle st events)).
  { induction events as [|e events IH]; intros st Hst; [exact Hst|].
    cbn [foldl]. apply IH, consistent_handle, Hst. }
  apply Hgen. repeat split.
Qed.

(** ** The blocks of a document *)

Lemma StronglySorted_snoc {A} (R : A -> A -> Prop) l x :
  StronglySorted R l -> Forall (fun y => R y x) l -> StronglySorted R (l ++ [x]).
Proof.
  induction 1 as [|y l Hl IH Hy]; intros Hx; cbn [app].
  - constructor; constructor.
  - apply Forall_cons in Hx as [Hyx Hx]. constructor; [apply IH, Hx|].
    apply Forall_app. split; [exact Hy|]. constructor; [exact Hyx|constructor].
Qed.

Lemma scanned_weaken lines n m st : n <= m -> scanned lines n st -> scanned lines m st.
Proof.
  intros Hle (Hin & Hsorted & Hopen). split_and!; [|exact Hsorted|].
  - eapply Forall_impl; [exact Hin|]. intros block [[? ?] ?].
    split; [split; [assumption|lia]|assumption].
  - destruct Hopen as [?|[? ?]]; [left; assumption|right; split; [lia|assumption]].
Qed.

Lemma scanned_scanChar lines i flag st c :
  0 <= i -> scanned lines (i + 1) st ->
  scanned lines (i + 1) (Blocks.scanChar lines i flag st c).
Proof.
  intros Hi (Hin & Hsorted & Hopen). unfold Blocks.scanChar.
  destruct (c =? Blocks.openBrace)%N.
  { split_and!; cbn; [exact Hin|exact Hsorted|].
    destruct ((Blocks.braceDepth st =? 0) && flag); [|exact Hopen].
    right. split; [lia|]. eapply Forall_impl; [exact Hin|].
    intros block [[_ ?] _]. lia. }
  destruct (c =? Blocks.closeBrace)%N; [|split_and!; assumption].
  destruct ((Blocks.braceDepth st - 1 =? 0) && negb (Blocks.blockStart st =? -1))
    eqn:Hclose; [|split_and!; assumption].
  apply andb_true_iff in Hclose as [_ Hstart].
  apply negb_true_iff, Z.eqb_neq in Hstart.
  destruct Hopen as [?|[Hrange Hbelow]]; [contradiction|].
  split_and!; cbn.
  - apply Forall_app. split; [exact Hin|]. constructor; [|constructor].
    split; [split; cbn; lia|left; reflexivity].
  - apply StronglySorted_snoc; [exact Hsorted|exact Hbelow].
  - left. reflexivity.
Qed.

Lemma scanned_scanLine lines i line st :
  0 <= i -> scanned lines i st -> scanned lines (i + 1) (Blocks.scanLine lines i line st).
Proof.
  intros Hi Hst. apply (scanned_weaken _ _ (i + 1)) in Hst; [|lia].
  unfold Blocks.scanLine. destruct (Blocks.isSkipped (trim line)); [exact Hst|].
  generalize (Blocks.isBlockStart (trim line)). intros flag.
  revert st Hst. induction line as [|c line IH]; intros st Hst; [exact Hst|].
  cbn [foldl]. apply IH, scanned_scanChar; assumption.
Qed.

Lemma scanned_scanLines lines rest :
  forall i st,
    0 <= i -> scanned lines i st ->
    scanned lines (i + Z.of_nat (length rest)) (Blocks.scanLines lines i rest st).
Proof.
  induction rest as [|line rest IH]; intros i st Hi Hst; cbn [Blocks.scanLines length].
  - rewrite Z.add_0_r. exact Hst.
  - replace (i + Z.of_nat (S (length rest))) with (i + 1 + Z.of_nat (length rest)) by lia.
    apply IH; [lia|]. apply scanned_scanLine; assumption.
Qed.

(** The blocks of the lines taken one by one. *)
Lemma lineBlocks_spans lines rest :
  forall i,
    0 <= i -> drop (Z.to_nat i) lines = rest ->
    Forall (fun block => (i <= Blocks.startLine block
                          /\ within (i + Z.of_nat (length rest)) block)
                         /\ carries lines block)
           (Blocks.lineBlocks i rest)
    /\ StronglySorted before (Blocks.lineBlocks i rest).
Proof.
  induction rest as [|line rest IH]; intros i Hi Hdrop; cbn [Blocks.lineBlocks length].
  - split; constructor.
  - assert (Hline : lines !! Z.to_nat i = Some line).
    { rewrite <- (Nat.add_0_r (Z.to_nat i)), <- lookup_drop, Hdrop. reflexivity. }
    assert (Hrest : drop (Z.to_nat (i + 1)) lines = rest).
    { replace (Z.to_nat (i + 1)) with (Z.to_nat i + 1)%nat by lia.
      rewrite <- drop_drop, Hdrop. reflexivity. }
    destruct (IH (i + 1) ltac:(lia) Hrest) as [Hin Hsorted].
    assert (Hin' : Forall (fun block =>
                             (i + 1 <= Blocks.startLine block
                              /\ within (i + Z.of_nat (S (length rest))) block)
                             /\ carries lines block)
                          (Blocks.lineBlocks (i + 1) rest)).
    { eapply Forall_impl; [exact Hin|]. intros block [[? [? ?]] ?].
      split; [split; [assumption|split; [assumption|lia]]|assumption]. }
    destruct (Blocks.isSkipped (trim line)); cbn [negb].
    + split; [|exact Hsorted]. eapply Forall_impl; [exact Hin'|].
      intros block [[? ?] ?]. split; [split; [lia|assumption]|assumption].
    + split.
      * constructor.
        -- split; [split; [cbn; lia|split; cbn; lia]|].
           right. split; [reflexivity|]. exists line. split; [exact Hline|reflexivity].
        -- eapply Forall_impl; [exact Hin'|].
           intros block [[? ?] ?]. split; [split; [lia|assumption]|assumption].
      * constructor; [exact Hsorted|]. eapply Forall_impl; [exact Hin'|].
        intros block [[? _] _]. unfold before. cbn. lia.
Qed.

Lemma parseCodeBlocks_spans document :
  Forall (fun block => within (lineCount document) block
                       /\ carries (lines document) block)
         (Blocks.parseCodeBlocks document)
  /\ StronglySorted before (Blocks.parseCodeBlocks document).
Proof.
  unfold Blocks.parseCodeBlocks.
  pose proof (scanned_scanLines (lines document) (lines document) 0
                {| Blocks.braceDepth := 0; Blocks.blockStart := -1; Blocks.blocks := [] |}
                ltac:(lia)) as Hscan.
  destruct (Blocks.blocks _) as [|block found] eqn:Hfound.
  - destruct (lineBlocks_spans (lines document) (lines document) 0 ltac:(lia) eq_refl)
      as [Hin Hsorted].
    split; [|exact Hsorted]. eapply Forall_impl; [exact Hin|].
    intros block [[_ ?] ?]. split; assumption.
  - destruct Hscan as (Hin & Hsorted & _).
    { split_and!; [constructor|constructor|left; reflexivity]. }
    rewrite Hfound in Hin, Hsorted. split; [exact Hin|exact Hsorted].
Qed.

(** Lines that are skipped leave the scan where it is. *)
Lemma scanLines_skipped lines rest :
  forall i st,
    Forall (fun text => Blocks.isSkipped (trim text) = true) rest ->
    Blocks.scanLines lines i rest st = st.
Proof.
  induction rest as [|line rest IH]; intros i st Hskip; [reflexivity|].
  apply Forall_cons in Hskip as [Hline Hskip].
  cbn [Blocks.scanLines]. unfold Blocks.scanLine. rewrite Hline. apply IH, Hskip.
Qed.

Lemma lineBlocks_nil rest :
  forall i,
    Blocks.lineBlocks i rest = []
    <-> Forall (fun text => Blocks.isSkipped (trim text) = true) rest.
Proof.
  induction rest as [|line rest IH]; intros i; cbn [Blocks.lineBlocks].
  - split; [constructor|reflexivity].
  - destruct (Blocks.isSkipped (trim line)) eqn:Hline; cbn [negb].
    + rewrite IH. split; [intros ?; constructor; assumption|].
      intros Hskip. apply Forall_cons in Hskip as [_ ?]. assumption.
    + split; [discriminate|]. intros Hskip. apply Forall_cons in Hskip as [Hskip _].
      congruence.
Qed.

(** Every block of a document covers lines of the document, one or
    more; the blocks come in the order of their lines, none starting
    above the end of the one before it, and a block carries the text of
    the lines that it covers, or the trimmed text of its only line. *)
Theorem blocks_are_ordered_spans document :
  Forall (fun block => within (lineCount document) block
                       /\ carries (lines document) block)
         (Blocks.parseCodeBlocks document)
  /\ StronglySorted before (Blocks.parseCodeBlocks document).
Proof. exact (parseCodeBlocks_spans document). Qed.

(** A document has no block exactly when each of its lines is blank or
    starts, after its indentation, with [//], [/*] or [*]. *)
Theorem no_blocks_without_code document :
  Blocks.parseCodeBlocks document = []
  <-> Forall (fun text => Blocks.isSkipped (trim text) = true) (lines document).
Proof.
  unfold Blocks.parseCodeBlocks. split.
  - destruct (Blocks.blocks _) as [|block found]; [|discriminate].
    apply lineBlocks_nil.
  - intros Hskip. rewrite scanLines_skipped by exact Hskip. cbn [Blocks.blocks].
    apply lineBlocks_nil, Hskip.
Qed.

(** ** The command that interprets a file by blocks *)

(** The conversion to a string throws one error only. *)
Lemma ToString_throws `{Host} :
  forall v msg, ToString v = Throw msg -> msg = typeErrorMessage NotPrimitive.
Proof.
  fix IH 1. intros [| [|] |n|s|items|fields] msg; cbn [ToString]; try discriminate.
  - induction items as [|x items IHitems]; [discriminate|].
    destruct (match x with JNull => Ret [] | _ => ToString x end) as [sx|m] eqn:Hx.
    + cbn [obind]. destruct items as [|y items]; [discriminate|].
      match goal with
      | |- obind ?r _ = _ -> _ => destruct r as [sr|m] eqn:Hr
      end; [discriminate|].
      cbn [obind]. intros [= <-]. apply IHitems. reflexivity.
    + cbn [obind]. intros [= <-]. apply (IH x).
      destruct x; try discriminate; exact Hx.
  - destruct (lookup_field (str "toString") fields); [|discriminate].
    intros [= <-]. reflexivity.
Qed.

Lemma truthy_errorText message : truthy (Some (errorText message)) = true.
Proof. reflexivity. Qed.

Section BlockCommandFacts.
Context `{Host}.
Variable setting : option jsstring.
Import Blocks.

(** [interpretBlock] always returns: one request is sent, nothing else
    changes, and what it returns is not falsy. *)
Lemma interpretBlock_spec net blockCode st :
  exists e,
    interpretBlock setting net blockCode st
    = (askedBlock st (blockRequest setting blockCode), Ret e)
    /\ truthy (Some e) = true
    /\ (forall message,
          net (blockRequest setting blockCode) = Rejected message ->
          e = errorText message).
Proof.
  unfold interpretBlock, try_catch, mbind at 1, fetch.
  fold (blockRequest setting blockCode).
  fold (askedBlock st (blockRequest setting blockCode)).
  destruct (net (blockRequest setting blockCode)) as [msg|response] eqn:Hnet.
  { exists (errorText msg). split_and!; [reflexivity|apply truthy_errorText|].
    intros message [= <-]. reflexivity. }
  unfold mbind, lift.
  destruct (Comments.responsePayload response) as [data|msg].
  2:{ exists (errorText msg). split_and!; [reflexivity|apply truthy_errorText|].
      intros message [=]. }
  destruct (get_prop data (str "explanation")) as [explanation|msg].
  2:{ exists (errorText msg). split_and!; [reflexivity|apply truthy_errorText|].
      intros message [=]. }
  eexists. split_and!; [reflexivity| |intros message [=]].
  destruct (truthy explanation) eqn:Ht; [|reflexivity].
  destruct explanation as [v|]; [exact Ht|discriminate].
Qed.

(** One block: its explanation is in the cache, or it is asked for and
    entered there. *)
Lemma explanationOf_spec net documentUri block st :
  let key := blockKey setting documentUri block in
  (exists e, blockInterpretationCache st !! key = Some e
             /\ truthy (Some e) = true
             /\ explanationOf setting net documentUri block st = (st, Ret e))
  \/ (truthy (blockInterpretationCache st !! key) = false
      /\ exists e,
           truthy (Some e) = true
           /\ (forall message,
                 net (blockRequest setting (code block)) = Rejected message ->
                 e = errorText message)
           /\ explanationOf setting net documentUri block st
              = ({| blockInterpretationCache := <[key := e]> (blockInterpretationCache st);
                    blockDecorationType := blockDecorationType st;
                    decorationTypes := decorationTypes st;
                    requests := requests st ++ [blockRequest setting (code block)] |},
                 Ret e)).
Proof.
  intros key. unfold explanationOf. fold key.
  destruct (truthy (blockInterpretationCache st !! key)) eqn:Htruthy.
  - left. destruct (blockInterpretationCache st !! key) as [e|] eqn:He; [|discriminate].
    exists e. split_and!; [reflexivity|exact Htruthy|].
    unfold mbind, cache_get, gets. rewrite He, Htruthy. reflexivity.
  - right. split; [reflexivity|].
    destruct (interpretBlock_spec net (code block) st) as (e & Hrun & He & Herr).
    exists e. split_and!; [exact He|exact Herr|].
    unfold mbind at 1, cache_get, gets. cbv beta. rewrite Htruthy. cbn [negb].
    unfold try_catch, mbind. rewrite Hrun.
    unfold cache_set, modify, mret. reflexivity.
Qed.

Lemma explanationOf_hit net documentUri block st e :
  blockInterpretationCache st !! blockKey setting documentUri block = Some e ->
  truthy (Some e) = true ->
  explanationOf setting net documentUri block st = (st, Ret e).
Proof.
  intros Hcached He.
  destruct (explanationOf_spec net documentUri block st)
    as [(e' & Hcached' & _ & ->)|(Hfalsy & _)].
  - congruence.
  - rewrite Hcached, He in Hfalsy. discriminate.
Qed.

(** One block: afterwards the cache holds its explanation, and the
    decoration type is the one before. *)
Lemma explanationOf_step net documentUri block st :
  allTruthy (blockInterpretationCache st) ->
  exists st1 e,
    explanationOf setting net documentUri block st = (st1, Ret e)
    /\ truthy (Some e) = true
    /\ blockInterpretationCache st1 !! blockKey setting documentUri block = Some e
    /\ blockInterpretationCache st ⊆ blockInterpretationCache st1
    /\ allTruthy (blockInterpretationCache st1).
Proof.
  intros Hall.
  destruct (explanationOf_spec net documentUri block st)
    as [(e & Hcached & He & ->)|(Hfalsy & e & He & _ & ->)].
  - exists st, e. split_and!; auto.
  - eexists _, e. split; [reflexivity|]. cbn [blockInterpretationCache].
    apply allTruthy_falsy in Hfalsy; [|exact Hall].
    split_and!; [exact He|apply lookup_insert_eq|apply insert_subseteq; exact Hfalsy|].
    apply map_Forall_insert_2; [exact He|exact Hall].
Qed.

(** The loop leaves the decoration type alone, however it ends. *)
Lemma decorateFrom_types net documentAt documentUri rest :
  forall i decorations st st' r,
    decorateFrom setting net documentAt documentUri i rest decorations st = (st', r) ->
    blockDecorationType st' = blockDecorationType st
    /\ decorationTypes st' = decorationTypes st.
Proof.
  induction rest as [|block rest IH]; intros i decorations st st' r; cbn [decorateFrom].
  - intros [= <- _]. split; reflexivity.
  - unfold mbind at 1.
    destruct (explanationOf_spec net documentUri block st)
      as [(e & _ & _ & ->)|(_ & e & _ & _ & ->)];
      unfold mbind at 1, lift;
      (destruct (lineAt (documentAt i) (endLine block)) as [lineText|msg];
       [|intros [= <- _]; split; reflexivity]);
      unfold mbind at 1;
      (destruct (ToString e) as [text|msg]; [|intros [= <- _]; split; reflexivity]);
      intros Hloop; apply IH in Hloop as [Hflag Htypes];
      rewrite Hflag, Htypes; split; reflexivity.
Qed.

(** With the document as it was parsed, the loop decorates the end of
    the last line of each block; it stops early only when an
    explanation cannot be converted to a string. *)
Lemma decorateFrom_ends net document documentAt documentUri rest :
  (forall i, documentAt i = document) ->
  Forall (within (lineCount document)) rest ->
  forall i decorations st,
    exists st' r,
      decorateFrom setting net documentAt documentUri i rest decorations st = (st', r)
      /\ (r = Throw (typeErrorMessage NotPrimitive)
          \/ exists new,
               r = Ret (decorations ++ new)
               /\ map range new
                  = map (fun block => lineEnd document (endLine block)) rest).
Proof.
  intros Hsame Hin. induction Hin as [|block rest Hblock Hin IH];
    intros i decorations st; cbn [decorateFrom].
  { exists st. eexists. split; [reflexivity|].
    right. exists []. rewrite app_nil_r. split; reflexivity. }
  unfold mbind at 1.
  assert (Hrun : exists st1 e,
             explanationOf setting net documentUri block st = (st1, Ret e)).
  { destruct (explanationOf_spec net documentUri block st)
      as [(e & _ & _ & ->)|(_ & e & _ & _ & ->)]; eexists _, e; reflexivity. }
  destruct Hrun as (st1 & e & ->).
  unfold mbind at 1, lift. rewrite Hsame.
  destruct Hblock as [[Hstart Hle] Hend].
  destruct (lines document !! Z.to_nat (endLine block)) as [lineText|] eqn:Hline.
  2:{ apply lookup_ge_None in Hline. unfold lineCount in Hend. lia. }
  rewrite (proj2 (lineAt_Ret document (endLine block) lineText))
    by (split; [lia|exact Hline]).
  unfold mbind at 1.
  destruct (ToString e) as [text|msg] eqn:Htext.
  2:{ exists st1. eexists. split; [reflexivity|].
      left. apply ToString_throws in Htext. subst msg. reflexivity. }
  match goal with
  | |- context [decorateFrom _ _ _ _ ?j _ ?ds ?s] =>
      destruct (IH j ds s) as (st' & r & -> & [->|(new & -> & Hranges)])
  end.
  - exists st'. eexists. split; [reflexivity|]. left. reflexivity.
  - exists st'. eexists. split; [reflexivity|]. right.
    eexists. rewrite <- app_assoc. split; [reflexivity|].
    cbn [map app range]. rewrite Hranges. unfold lineEnd. rewrite Hline. reflexivity.
Qed.

(** The loop, once it has returned, is replayed from the cache for any
    blocks of the same spans: no request is sent, and the texts shown
    are those of the first run. *)
Lemma decorateFrom_replay net documentAt documentUri rest :
  forall i decorations st st' decorations',
    allTruthy (blockInterpretationCache st) ->
    decorateFrom setting net documentAt documentUri i rest decorations st
    = (st', Ret decorations') ->
    exists new,
      decorations' = decorations ++ new
      /\ blockInterpretationCache st ⊆ blockInterpretationCache st'
      /\ allTruthy (blockInterpretationCache st')
      /\ (forall net' document' documentAt' rest' j decorations0 t,
            (forall k, documentAt' k = document') ->
            Forall (within (lineCount document')) rest' ->
            map span rest' = map span rest ->
            blockInterpretationCache st' ⊆ blockInterpretationCache t ->
            exists new',
              decorateFrom setting net' documentAt' documentUri j rest' decorations0 t
              = (t, Ret (decorations0 ++ new'))
              /\ map contentText new' = map contentText new).
Proof.
  induction rest as [|block rest IH]; intros i decorations st st' decorations' Hall.
  - cbn [decorateFrom]. intros [= <- <-]. exists []. rewrite app_nil_r.
    split_and!; [reflexivity|reflexivity|exact Hall|].
    intros net' document' documentAt' rest' j decorations0 t _ _ Hspans _.
    destruct rest'; [|discriminate]. exists []. rewrite app_nil_r. split; reflexivity.
  - cbn [decorateFrom]. unfold mbind at 1.
    destruct (explanationOf_step net documentUri block st Hall)
      as (st1 & e & -> & He & Hcached & Hsub1 & Hall1).
    unfold mbind at 1, lift.
    destruct (lineAt (documentAt i) (endLine block)) as [lineText|msg]; [|discriminate].
    unfold mbind at 1.
    destruct (ToString e) as [text|msg] eqn:Htext; [|discriminate].
    intros Hloop. apply IH in Hloop as (new & -> & Hsub & Hall' & Hreplay);
      [|exact Hall1].
    eexists. rewrite <- app_assoc. split; [reflexivity|].
    split_and!; [etrans; eassumption|exact Hall'|].
    intros net' document' documentAt' rest' j decorations0 t Hsame Hin Hspans Ht.
    destruct rest' as [|block' rest']; [discriminate|].
    cbn [map] in Hspans. apply (f_equal tail) in Hspans as Htail.
    apply (f_equal head) in Hspans as Hspan. cbn [head tail] in Hspan, Htail.
    clear Hspans. rename Htail into Hspans.
    apply Forall_cons in Hin as [Hblock Hin].
    cbn [decorateFrom]. unfold mbind at 1.
    assert (Hkey : blockKey setting documentUri block' = blockKey setting documentUri block).
    { unfold span in Hspan. injection Hspan as Hs He'. unfold blockKey.
      rewrite Hs, He'. reflexivity. }
    rewrite (explanationOf_hit net' documentUri block' t e); [| |exact He].
    2:{ rewrite Hkey. eapply lookup_weaken; [|exact Ht].
        eapply lookup_weaken; eassumption. }
    unfold mbind at 1, lift. rewrite Hsame.
    destruct Hblock as [[Hstart Hle] Hend].
    destruct (lines document' !! Z.to_nat (endLine block')) as [lineText'|] eqn:Hline.
    2:{ apply lookup_ge_None in Hline. unfold lineCount in Hend. lia. }
    rewrite (proj2 (lineAt_Ret document' (endLine block') lineText'))
      by (split; [lia|exact Hline]).
    unfold mbind at 1. rewrite Htext.
    match goal with
    | |- context [decorateFrom _ _ _ _ ?j' _ ?ds _] =>
        destruct (Hreplay net' document' documentAt' rest' j' ds t Hsame Hin Hspans Ht)
          as (new' & Hrun & Htexts)
    end.
    eexists. rewrite Hrun, <- app_assoc. split; [reflexivity|].
    cbn [map app contentText]. rewrite Htexts. reflexivity.
Qed.

End BlockCommandFacts.

Section BlockRunFacts.
Context `{Host}.
Variable setting : option jsstring.
Import Blocks.

(** A status outside 200 to 299 is answered with the message of the
    service, or with what stands for it. *)
Lemma interpretBlock_refused net blockCode st response :
  net (blockRequest setting blockCode) = Responded response ->
  ok response = false ->
  exists message,
    (ToString (Comments.httpErrorMessage response) = Ret message
     \/ ToString (Comments.httpErrorMessage response) = Throw message)
    /\ interpretBlock setting net blockCode st
       = (askedBlock st (blockRequest setting blockCode), Ret (errorText message)).
Proof.
  intros Hnet Hok.
  unfold interpretBlock, try_catch, mbind at 1, fetch.
  fold (blockRequest setting blockCode). rewrite Hnet.
  unfold mbind, lift, Comments.responsePayload. rewrite Hok. cbn [negb].
  unfold Comments.throw_new_Error.
  destruct (ToString (Comments.httpErrorMessage response)) as [message|message];
    exists message; (split; [auto|reflexivity]).
Qed.

(** The requests of the loop: at most one for a block, each with the
    text of a block. *)
Lemma decorateFrom_asks net documentAt documentUri rest :
  forall i decorations st st' r,
    decorateFrom setting net documentAt documentUri i rest decorations st = (st', r) ->
    exists sent,
      requests st' = requests st ++ sent
      /\ (length sent <= length rest)%nat
      /\ Forall (fun req => exists block,
                   block ∈ rest /\ req = blockRequest setting (code block)) sent.
Proof.
  induction rest as [|block rest IH]; intros i decorations st st' r; cbn [decorateFrom].
  - intros [= <- _]. exists []. rewrite app_nil_r.
    split_and!; [reflexivity|cbn [length]; lia|constructor].
  - unfold mbind at 1.
    assert (Hstep : exists st1 e first,
               explanationOf setting net documentUri block st = (st1, Ret e)
               /\ requests st1 = requests st ++ first
               /\ (length first <= 1)%nat
               /\ Forall (fun req => req = blockRequest setting (code block)) first).
    { destruct (explanationOf_spec setting net documentUri block st)
        as [(e & _ & _ & ->)|(_ & e & _ & _ & ->)].
      - exists st, e, []. rewrite app_nil_r.
        split_and!; [reflexivity|reflexivity|cbn; lia|constructor].
      - eexists _, e, [_]. split_and!; [reflexivity|reflexivity|cbn; lia|].
        constructor; [reflexivity|constructor]. }
    destruct Hstep as (st1 & e & first & -> & Hfirst & Hlen & Hreq).
    assert (Hhere : exists sent,
               requests st1 = requests st ++ sent
               /\ (length sent <= length (block :: rest))%nat
               /\ Forall (fun req => exists block0,
                            block0 ∈ block :: rest
                            /\ req = blockRequest setting (code block0)) sent).
    { exists first. split_and!; [exact Hfirst|cbn [length]; lia|].
      eapply Forall_impl; [exact Hreq|]. intros req ->.
      exists block. split; [left|reflexivity]. }
    unfold mbind at 1, lift.
    destruct (lineAt (documentAt i) (endLine block)) as [lineText|msg];
      [|intros [= <- _]; exact Hhere].
    unfold mbind at 1.
    destruct (ToString e) as [text|msg]; [|intros [= <- _]; exact Hhere].
    intros Hloop. apply IH in Hloop as (sent & Hsent & Hle & Hall).
    exists (first ++ sent). rewrite Hsent, Hfirst, <- app_assoc.
    split_and!; [reflexivity|rewrite length_app; cbn [length]; lia|].
    apply Forall_app. split.
    + eapply Forall_impl; [exact Hreq|]. intros req ->.
      exists block. split; [left|reflexivity].
    + eapply Forall_impl; [exact Hall|]. intros req (block0 & Hin & ->).
      exists block0. split; [right; exact Hin|reflexivity].
Qed.

(** The loop keeps the cache free of falsy values, however it ends. *)
Lemma decorateFrom_allTruthy net documentAt documentUri rest :
  forall i decorations st st' r,
    decorateFrom setting net documentAt documentUri i rest decorations st = (st', r) ->
    allTruthy (blockInterpretationCache st) ->
    allTruthy (blockInterpretationCache st').
Proof.
  induction rest as [|block rest IH]; intros i decorations st st' r; cbn [decorateFrom].
  - intros [= <- _] Hall. exact Hall.
  - intros Hrun Hall. revert Hrun. unfold mbind at 1.
    destruct (explanationOf_step setting net documentUri block st Hall)
      as (st1 & e & -> & _ & _ & _ & Hall1).
    unfold mbind at 1, lift.
    destruct (lineAt (documentAt i) (endLine block)) as [lineText|msg];
      [|intros [= <- _]; exact Hall1].
    unfold mbind at 1.
    destruct (ToString e) as [text|msg]; [|intros [= <- _]; exact Hall1].
    intros Hloop. eapply IH; eassumption.
Qed.

End BlockRunFacts.

Lemma outcome_ret {S A} (r : S * outcome A) (a : A) : r.2 = Ret a -> r = (r.1, Ret a).
Proof. destruct r; simpl; intros ->; reflexivity. Qed.

Lemma length_zero_nil {A} (l : list A) : (Z.of_nat (length l) =? 0) = true <-> l = [].
Proof.
  destruct l; cbn [length]; [split; reflexivity|].
  split; [|discriminate]. intros Hzero. apply Z.eqb_eq in Hzero. lia.
Qed.

(** [interpretBlock] never throws.  It sends one request and changes
    nothing else; what it returns is not falsy; a request that is
    rejected, or answered with a status outside 200 to 299, is returned
    as a text that starts with [Error: ]. *)
Theorem block_is_always_answered `{Host} setting net blockCode st :
  exists e,
    Blocks.interpretBlock setting net blockCode st
    = (askedBlock st (blockRequest setting blockCode), Ret e)
    /\ truthy (Some e) = true
    /\ (forall message,
          net (blockRequest setting blockCode) = Rejected message ->
          e = errorText message)
    /\ (forall response,
          net (blockRequest setting blockCode) = Responded response ->
          ok response = false ->
          exists message,
            (ToString (Comments.httpErrorMessage response) = Ret message
             \/ ToString (Comments.httpErrorMessage response) = Throw message)
            /\ e = errorText message).
Proof.
  destruct (interpretBlock_spec setting net blockCode st) as (e & Hrun & He & Hrejected).
  exists e. split_and!; [exact Hrun|exact He|exact Hrejected|].
  intros response Hnet Hok.
  destruct (interpretBlock_refused setting net blockCode st response Hnet Hok)
    as (message & Hmessage & Hrefused).
  exists message. split; [exact Hmessage|]. congruence.
Qed.

(** While the document stays as it was parsed, the command never fails
    on a line of a block.  With no block it shows a message and changes
    nothing; otherwise it sets one decoration for each block, in their
    order, at the end of the last line of the block, unless an
    explanation cannot be converted to a string. *)
Theorem every_block_is_decorated `{Host} setting net editor documentAt st :
  (forall i, documentAt i = Editor.document editor) ->
  let document := Editor.document editor in
  let blocks := Blocks.parseCodeBlocks document in
  exists st' r,
    Blocks.interpretFileByBlocks setting net (Some editor) documentAt st = (st', r)
    /\ (r = Ret noBlocks /\ blocks = [] /\ st' = st
        \/ blocks <> []
           /\ (r = Throw (typeErrorMessage NotPrimitive)
               \/ exists decorations,
                    r = Ret {| Blocks.notices := interpretedBlocks (length blocks);
                               Blocks.decorations := Some decorations |}
                    /\ map Blocks.range decorations
                       = map (fun block => lineEnd document (Blocks.endLine block))
                             blocks)).
Proof.
  intros Hsame document blocks. unfold Blocks.interpretFileByBlocks.
  fold document. fold blocks.
  destruct (Z.of_nat (length blocks) =? 0) eqn:Hzero.
  { apply length_zero_nil in Hzero. exists st. eexists. split; [reflexivity|].
    left. split_and!; [reflexivity|exact Hzero|reflexivity]. }
  assert (Hblocks : blocks <> []).
  { intros Hnil. apply length_zero_nil in Hnil. congruence. }
  unfold mbind at 1, Blocks.newDecorationType, modify. unfold mbind at 1.
  assert (Hin : Forall (within (lineCount document)) blocks).
  { eapply Forall_impl; [apply parseCodeBlocks_spans|]. intros block [? _]. assumption. }
  match goal with
  | |- context [Blocks.decorateFrom _ _ _ ?u ?j _ ?ds ?s] =>
      destruct (decorateFrom_ends setting net document documentAt u blocks Hsame Hin j ds s)
        as (st' & r & -> & [->|(new & -> & Hranges)])
  end.
  - exists st'. eexists. split; [reflexivity|]. right. split; [exact Hblocks|].
    left. reflexivity.
  - exists st'. eexists. split; [reflexivity|]. right. split; [exact Hblocks|].
    right. exists new. split; [reflexivity|exact Hranges].
Qed.

(** A run of the command sends at most one request for a block, each
    with the text of a block, whether it ends with decorations or with
    an error. *)
Theorem asks_at_most_once_per_block `{Host} setting net editor documentAt st :
  exists sent,
    Blocks.requests
      (Blocks.interpretFileByBlocks setting net (Some editor) documentAt st).1
    = Blocks.requests st ++ sent
    /\ (length sent <= length (Blocks.parseCodeBlocks (Editor.document editor)))%nat
    /\ Forall (fun req =>
                 exists block,
                   block ∈ Blocks.parseCodeBlocks (Editor.document editor)
                   /\ req = blockRequest setting (Blocks.code block)) sent.
Proof.
  unfold Blocks.interpretFileByBlocks.
  destruct (Z.of_nat (length (Blocks.parseCodeBlocks (Editor.document editor))) =? 0).
  { exists []. rewrite app_nil_r. split_and!; [reflexivity|cbn; lia|constructor]. }
  unfold mbind at 1, Blocks.newDecorationType, modify. unfold mbind at 1.
  match goal with
  | |- context [Blocks.decorateFrom ?a ?b ?c ?u ?j ?l ?ds ?s] =>
      destruct (Blocks.decorateFrom a b c u j l ds s) as [st1 r1] eqn:Hloop
  end.
  apply decorateFrom_asks in Hloop as (sent & Hsent & Hle & Hall).
  cbn [Blocks.requests] in Hsent.
  exists sent. split_and!; [|exact Hle|exact Hall].
  destruct r1; exact Hsent.
Qed.

(** Explanations are cached by the position of a block, not by its
    text.  After a run that has returned, a run for a document of the
    same uri whose blocks cover the same lines shows the explanations of
    the first run again, errors included: it sends no request and
    leaves the cache as it is, whatever the blocks now contain and
    whatever the service would answer. *)
Theorem explanations_are_kept_by_position `{Host} setting net net' editor editor'
    documentAt documentAt' st st1 run1 :
  allTruthy (Blocks.blockInterpretationCache st) ->
  uri (Editor.document editor') = uri (Editor.document editor) ->
  map span (Blocks.parseCodeBlocks (Editor.document editor'))
  = map span (Blocks.parseCodeBlocks (Editor.document editor)) ->
  (forall i, documentAt' i = Editor.document editor') ->
  Blocks.interpretFileByBlocks setting net (Some editor) documentAt st
  = (st1, Ret run1) ->
  exists st2 run2,
    Blocks.interpretFileByBlocks setting net' (Some editor') documentAt' st1
    = (st2, Ret run2)
    /\ Blocks.blockInterpretationCache st2 = Blocks.blockInterpretationCache st1
    /\ Blocks.requests st2 = Blocks.requests st1
    /\ Blocks.notices run2 = Blocks.notices run1
    /\ map Blocks.contentText (shown run2) = map Blocks.contentText (shown run1).
Proof.
  intros Hall Huri Hspans Hsame. unfold Blocks.interpretFileByBlocks.
  assert (Hlength : length (Blocks.parseCodeBlocks (Editor.document editor'))
                    = length (Blocks.parseCodeBlocks (Editor.document editor))).
  { rewrite <- (length_map span), Hspans, length_map. reflexivity. }
  rewrite Hlength, Huri.
  destruct (Z.of_nat (length (Blocks.parseCodeBlocks (Editor.document editor))) =? 0).
  { intros [= <- <-]. exists st. eexists. split; [reflexivity|].
    split_and!; reflexivity. }
  unfold mbind at 1, Blocks.newDecorationType, modify. unfold mbind at 1.
  match goal with
  | |- context [Blocks.decorateFrom ?a ?b ?c ?u ?j ?l ?ds ?s] =>
      destruct (Blocks.decorateFrom a b c u j l ds s) as [st1' [decorations|msg]] eqn:Hloop
  end; [|discriminate].
  intros [= <- <-].
  apply decorateFrom_replay in Hloop as (new & -> & _ & _ & Hreplay); [|exact Hall].
  assert (Hin : Forall (within (lineCount (Editor.document editor')))
                       (Blocks.parseCodeBlocks (Editor.document editor'))).
  { eapply Forall_impl; [apply parseCodeBlocks_spans|]. intros block [? _]. assumption. }
  unfold mbind at 1. unfold mbind at 1.
  match goal with
  | |- context [Blocks.decorateFrom _ _ _ _ ?j _ ?ds ?s] =>
      destruct (Hreplay net' (Editor.document editor') documentAt'
                  (Blocks.parseCodeBlocks (Editor.document editor')) j ds s
                  Hsame Hin Hspans)
        as (new' & -> & Htexts); [reflexivity|]
  end.
  eexists _, _. split; [reflexivity|].
  split_and!; [reflexivity|reflexivity|reflexivity|exact Htexts].
Qed.

(** ** The decoration type over the runs of the command *)

Lemma tidy_invoke `{Host} st call : tidy st -> tidy (invoke st call).
Proof.
  intros [Htypes Hall]. unfold invoke, Blocks.interpretFileByBlocks.
  destruct (withEditor call) as [editor|]; [|split; assumption].
  destruct (Z.of_nat (length (Blocks.parseCodeBlocks (Editor.document editor))) =? 0);
    [split; assumption|].
  unfold mbind at 1, Blocks.newDecorationType, modify. unfold mbind at 1.
  match goal with
  | |- context [Blocks.decorateFrom ?a ?b ?c ?u ?j ?l ?ds ?s] =>
      destruct (Blocks.decorateFrom a b c u j l ds s) as [st1 r1] eqn:Hloop
  end.
  pose proof (decorateFrom_types _ _ _ _ _ _ _ _ _ _ Hloop) as [Hflag Hcount].
  apply decorateFrom_allTruthy in Hloop; [|exact Hall].
  cbn [Blocks.blockDecorationType Blocks.decorationTypes] in Hflag, Hcount.
  assert (Htidy : tidy st1).
  { split; [|exact Hloop]. rewrite Hflag, Hcount, Htypes.
    destruct (Blocks.blockDecorationType st); reflexivity. }
  destruct r1; exact Htidy.
Qed.

(** However often the command runs, one run after the other, at most
    one decoration type is left that is not disposed of, the one that
    the variable holds, and the cache never holds a falsy explanation. *)
Theorem one_decoration_type_is_kept `{Host} calls :
  tidy (foldl invoke loaded calls).
Proof.
  assert (Hgen : forall st, tidy st -> tidy (foldl invoke st calls)).
  { induction calls as [|call calls IH]; intros st Hst; [exact Hst|].
    cbn [foldl]. apply IH, tidy_invoke, Hst. }
  apply Hgen. split; [reflexivity|apply map_Forall_empty].
Qed.

(** ** A file of one function *)

Lemma every_block_is_decorated_witness :
  let document := oneFunction in
  let blocks := Blocks.parseCodeBlocks document in
  exists st' r,
    Blocks.interpretFileByBlocks (H := Node.host) None netExplains
      (Some (editorOf oneFunction)) (fun _ => oneFunction) loaded = (st', r)
    /\ (r = Ret noBlocks /\ blocks = [] /\ st' = loaded
        \/ blocks <> []
           /\ (r = Throw (typeErrorMessage (Host := Node.host) NotPrimitive)
               \/ exists decorations,
                    r = Ret {| Blocks.notices := interpretedBlocks (length blocks);
                               Blocks.decorations := Some decorations |}
                    /\ map Blocks.range decorations
                       = map (fun block => lineEnd document (Blocks.endLine block))
                             blocks)).
Proof.
  apply (every_block_is_decorated (H := Node.host) None netExplains
           (editorOf oneFunction) (fun _ => oneFunction) loaded).
  intros i. reflexivity.
Defined.

Lemma oneFunction_run :
  (Blocks.interpretFileByBlocks (H := Node.host) None netExplains
     (Some (editorOf oneFunction)) (fun _ => oneFunction) loaded).2
  = Ret oneFunctionRun.
Proof. vm_compute. reflexivity. Qed.

Lemma explanations_are_kept_by_position_witness :
  let first :=
    Blocks.interpretFileByBlocks (H := Node.host) None netExplains
      (Some (editorOf oneFunction)) (fun _ => oneFunction) loaded in
  exists st2 run2,
    Blocks.interpretFileByBlocks (H := Node.host) None netDown
      (Some (editorOf oneFunctionEdited)) (fun _ => oneFunctionEdited) first.1
    = (st2, Ret run2)
    /\ Blocks.blockInterpretationCache st2 = Blocks.blockInterpretationCache first.1
    /\ Blocks.requests st2 = Blocks.requests first.1
    /\ Blocks.notices run2 = Blocks.notices oneFunctionRun
    /\ map Blocks.contentText (shown run2) = map Blocks.contentText (shown oneFunctionRun).
Proof.
  apply (explanations_are_kept_by_position (H := Node.host) None netExplains netDown
           (editorOf oneFunction) (editorOf oneFunctionEdited)
           (fun _ => oneFunction) (fun _ => oneFunctionEdited) loaded
           (Blocks.interpretFileByBlocks (H := Node.host) None netExplains
              (Some (editorOf oneFunction)) (fun _ => oneFunction) loaded).1
           oneFunctionRun).
  - apply map_Forall_empty.
  - reflexivity.
  - vm_compute. reflexivity.
  - intros i. reflexivity.
  - apply outcome_ret, oneFunction_run.
Defined.
